(** * Video-Dataset-Tool: frame navigation and save sequencing

    A shallow embedding of [src/mainwindow.cpp] (class [MainWindow]) and the
    properties of its playback cursor, save sequencer, directory scanner and
    session config store.

    Conventions of the embedding:
    - a C++ [int] is a [Z] kept in the 32-bit signed range, arithmetic on it
      goes through [int_add]/[int_sub], which wrap around;
    - a [double] is an IEEE-754 binary64 value ([spec_float], precision 53);
    - a [QString] is a [string], each character standing for the code
      point of its number, U+0000 to U+00FF;
    - the member functions of [MainWindow] are functions from the window
      state to the window state; the disk, the timer, the slider and the
      dialogs shown to the user are fields of that state. *)

From Stdlib Require Import ZArith Lia Bool String Ascii List SpecFloat DecimalString.
From stdpp Require Import gmap strings list.
From Stdlib Require DecimalN.

Open Scope Z_scope.

(** ** C++ [int] *)

Module Int.

Definition int_min : Z := -2147483648.
Definition int_max : Z := 2147483647.

Definition in_range (z : Z) : Prop := int_min <= z <= int_max.

(** Two's-complement reduction to 32 bits. *)
Definition wrap (z : Z) : Z := (z + 2147483648) mod 4294967296 - 2147483648.

Definition int_add (a b : Z) : Z := wrap (a + b).
Definition int_sub (a b : Z) : Z := wrap (a - b).

(** [std::max], [std::clamp] on [int]. *)
Definition max (a b : Z) : Z := if a <? b then b else a.
Definition clamp (v lo hi : Z) : Z :=
  if v <? lo then lo else if hi <? v then hi else v.

End Int.

(** ** [QString] operations used by the source *)

Module QStr.

Definition isDigit (c : ascii) : bool :=
  let n := nat_of_ascii c in (48 <=? n)%nat && (n <=? 57)%nat.

Definition digitVal (c : ascii) : Z := Z.of_nat (nat_of_ascii c) - 48.

(** [QChar::isSpace] on U+0000 to U+00FF: tab, LF, VT, FF, CR and space,
    the next-line control U+0085 and the no-break space U+00A0. *)
Definition isSpace (c : ascii) : bool :=
  let n := nat_of_ascii c in
  ((9 <=? n)%nat && (n <=? 13)%nat) || (n =? 32)%nat
  || (n =? 133)%nat || (n =? 160)%nat.

Definition toLower (c : ascii) : ascii :=
  let n := nat_of_ascii c in
  if (65 <=? n)%nat && (n <=? 90)%nat then ascii_of_nat (n + 32) else c.

Fixpoint map_chars (f : ascii -> ascii) (s : string) : string :=
  match s with
  | EmptyString => EmptyString
  | String c r => String (f c) (map_chars f r)
  end.

Definition isEmpty (s : string) : bool :=
  match s with EmptyString => true | _ => false end.

Fixpoint all_chars (p : ascii -> bool) (s : string) : bool :=
  match s with
  | EmptyString => true
  | String c r => p c && all_chars p r
  end.

Fixpoint dropSpaces (s : string) : string :=
  match s with
  | String c r => if isSpace c then dropSpaces r else s
  | EmptyString => EmptyString
  end.

(** Removes trailing white space: a character is kept when something that is
    kept follows it or when it is not a space itself. *)
Fixpoint dropTrailingSpaces (s : string) : string :=
  match s with
  | EmptyString => EmptyString
  | String c r =>
      match dropTrailingSpaces r with
      | EmptyString => if isSpace c then EmptyString else String c EmptyString
      | r' => String c r'
      end
  end.

(** [QString::trimmed]. *)
Definition trimmed (s : string) : string := dropTrailingSpaces (dropSpaces s).

(** [QString::startsWith(QChar)]. *)
Definition startsWith (c : ascii) (s : string) : bool :=
  match s with
  | String d _ => Ascii.eqb c d
  | EmptyString => false
  end.

(** [QString::indexOf(QChar)]: position of the first occurrence, -1 if none. *)
Fixpoint indexOf (c : ascii) (s : string) : Z :=
  match s with
  | EmptyString => -1
  | String d r =>
      if Ascii.eqb c d then 0
      else let i := indexOf c r in if i <? 0 then -1 else i + 1
  end.

(** [QString::lastIndexOf(QChar)]. *)
Fixpoint lastIndexOf (c : ascii) (s : string) : Z :=
  match s with
  | EmptyString => -1
  | String d r =>
      let i := lastIndexOf c r in
      if 0 <=? i then i + 1 else if Ascii.eqb c d then 0 else -1
  end.

(** [QString::left(n)] and [QString::mid(pos)], for [0 <= n], [0 <= pos]. *)
Definition left (n : Z) (s : string) : string := substring 0 (Z.to_nat n) s.
Definition mid (pos : Z) (s : string) : string :=
  substring (Z.to_nat pos) (String.length s - Z.to_nat pos) s.

(** [QString::endsWith(suffix, Qt::CaseInsensitive)]. *)
Definition endsWithCI (suffix s : string) : bool :=
  let n := String.length s in
  let k := String.length suffix in
  (k <=? n)%nat &&
  String.eqb (map_chars toLower (substring (n - k) k s)) (map_chars toLower suffix).

(** Value of a string of decimal digits, most significant digit first. *)
Definition digitsValue (s : string) : Z :=
  fold_left (fun acc c => 10 * acc + digitVal c) (list_ascii_of_string s) 0.

(** [QString::toInt(bool *ok)], base 10, C locale: surrounding white space
    is skipped, then an optional sign and at least one digit must make up
    the whole string, and the value must fit an [int]; on failure the
    result is 0 and [ok] is false. The pair is [(ok, value)]. *)
Definition toInt (s : string) : bool * Z :=
  let t := trimmed s in
  let '(neg, ds) :=
    match t with
    | String "-"%char r => (true, r)
    | String "+"%char r => (false, r)
    | _ => (false, t)
    end in
  if isEmpty ds || negb (all_chars isDigit ds) then (false, 0)
  else
    let v := if neg then - digitsValue ds else digitsValue ds in
    if (Int.int_min <=? v) && (v <=? Int.int_max) then (true, v) else (false, 0).

(** [QString::arg(int a, int fieldWidth, 10, QLatin1Char('0'))]: decimal
    digits, padded with zeros on the left up to [fieldWidth]; the sign of a
    negative number comes first and counts in the width. *)
Fixpoint zeros (n : nat) : string :=
  match n with O => EmptyString | S k => String "0"%char (zeros k) end.

Definition argInt (a : Z) (fieldWidth : nat) : string :=
  let digits := NilZero.string_of_uint (N.to_uint (Z.to_N (Z.abs a))) in
  let sign := if a <? 0 then "-"%string else EmptyString in
  let used := (String.length sign + String.length digits)%nat in
  (sign +:+ zeros (fieldWidth - used) +:+ digits)%string.

End QStr.

(** ** The disk *)

(** What [QDir::entryInfoList] sees of a directory entry. *)
Record QFileInfo := mkFileInfo {
  fileName : string;
  isFile : bool;
  isSymLink : bool;
  isReadable : bool;
  isHidden : bool
}.

(** A directory is the list of its entries; [dirs] maps the path of every
    existing directory to its listing, [files] maps the path of a readable
    text file to its content. The two are kept apart: the listings hold what
    a scan for images can meet, and a text file in [files] (the config
    file, whose name matches no image filter) has no entry in them. *)
Record Disk := mkDisk {
  dirs : gmap string (list QFileInfo);
  files : gmap string string
}.

(** The entry [cv::imwrite] creates: a plain readable file. *)
Definition plainFile (name : string) : QFileInfo :=
  mkFileInfo name true false true false.

Definition hasEntry (name : string) (entries : list QFileInfo) : bool :=
  existsb (fun fi => String.eqb (fileName fi) name) entries.

(** Writing [name] into a listing: an entry of that name is overwritten in
    place, otherwise a new plain file is added at the end. *)
Definition writeEntry (name : string) (entries : list QFileInfo) : list QFileInfo :=
  if hasEntry name entries then entries else entries ++ [plainFile name].

(** A directory holding exactly the given plain files. *)
Definition dirOf (names : list string) : list QFileInfo := map plainFile names.

Definition diskWith (dirPath : string) (entries : list QFileInfo) (d : Disk) : Disk :=
  mkDisk (<[dirPath := entries]> (dirs d)) (files d).

Definition emptyDisk : Disk := mkDisk ∅ ∅.

(** ** Directory scanner *)

Module Scanner.

(** [filters << "*.jpg" << "*.jpeg" << "*.png" << "*.bmp"], each a wildcard
    [*<suffix>]; [QDir] matches name filters without regard to case. *)
Definition filters : list string := [".jpg"; ".jpeg"; ".png"; ".bmp"]%string.

Definition matchesFilters (name : string) : bool :=
  existsb (fun suffix => QStr.endsWithCI suffix name) filters.

(** [dir.entryInfoList(filters, QDir::Files | QDir::NoSymLinks | QDir::Readable)];
    [QDir::Hidden] is not among the flags, so hidden entries are left out. *)
Definition listed (fi : QFileInfo) : bool :=
  isFile fi && negb (isSymLink fi) && isReadable fi && negb (isHidden fi)
  && matchesFilters (fileName fi).

Definition entryInfoList (entries : list QFileInfo) : list QFileInfo :=
  List.filter listed entries.

(** [QFileInfo::completeBaseName]: the name up to, and without, its last dot;
    the whole name when it has no dot. *)
Definition completeBaseName (fi : QFileInfo) : string :=
  let i := QStr.lastIndexOf "."%char (fileName fi) in
  if i <? 0 then fileName fi else QStr.left i (fileName fi).

(** [QRegularExpression("(\\d+)").globalMatch(base)]: the matches from left
    to right. The quantifier is greedy and the next match starts where the
    last one ended, so each match is a whole run of digits. [cur] is the
    run being read, if any. *)
Fixpoint globalMatchFrom (cur : option string) (s : string) : list string :=
  match s with
  | EmptyString => match cur with Some run => [run] | None => [] end
  | String c r =>
      if QStr.isDigit c then
        globalMatchFrom
          (Some (match cur with
                 | Some run => (run +:+ String c EmptyString)%string
                 | None => String c EmptyString
                 end)) r
      else
        match cur with
        | Some run => run :: globalMatchFrom None r
        | None => globalMatchFrom None r
        end
  end.

Definition globalMatch (s : string) : list string := globalMatchFrom None s.

(** The body of the [while (it.hasNext())] loop. *)
Definition scanMatch (maxNum : Z) (captured : string) : Z :=
  let '(ok, num) := QStr.toInt captured in
  if ok then Int.max maxNum num else maxNum.

(** The body of the [for (const QFileInfo &fi : list)] loop. *)
Definition scanFile (maxNum : Z) (fi : QFileInfo) : Z :=
  fold_left scanMatch (globalMatch (completeBaseName fi)) maxNum.

(** [MainWindow::extractLargestNumberInDir]. *)
Definition extractLargestNumberInDir (d : Disk) (dirPath : string) : Z :=
  match dirs d !! dirPath with
  | None => 0
  | Some entries => fold_left scanFile (entryInfoList entries) 0
  end.

(** What a captured string contributes to the maximum: its value when
    [toInt] accepts it. *)
Definition candidate (captured : string) : option Z :=
  let '(ok, num) := QStr.toInt captured in if ok then Some num else None.

(** A non-empty string of digits. *)
Definition isDigitRun (run : string) : Prop :=
  run <> EmptyString /\ QStr.all_chars QStr.isDigit run = true.

(** [MaximalRuns s runs]: [runs] are the maximal runs of digits of [s], from
    left to right. A string with no digit has none; otherwise [s] is a gap
    without digits, then a run of digits, then a rest that does not go on
    with a digit and holds the other runs. *)
Inductive MaximalRuns : string -> list string -> Prop :=
| runs_none gap :
    QStr.all_chars (fun c => negb (QStr.isDigit c)) gap = true ->
    MaximalRuns gap []
| runs_cons gap run rest runs :
    QStr.all_chars (fun c => negb (QStr.isDigit c)) gap = true ->
    isDigitRun run ->
    match rest with
    | String c _ => QStr.isDigit c = false
    | EmptyString => True
    end ->
    MaximalRuns rest runs ->
    MaximalRuns (gap +:+ run +:+ rest)%string (run :: runs).

(** The digit runs the scanner looks at in a directory listing: those of
    the base names of the listed files. *)
Definition runsOf (entries : list QFileInfo) : list string :=
  flat_map (fun fi => globalMatch (completeBaseName fi)) (entryInfoList entries).

End Scanner.

(** ** C++ [double] *)

Module Double.

Definition prec : Z := 53.
Definition emax : Z := 1024.

Definition double := spec_float.

(** The double nearest to an integer (exact below 2^53). *)
Definition of_Z (z : Z) : double := binary_normalize prec emax z 0 false.

Definition zero : double := S754_zero false.

Definition div (x y : double) : double := SFdiv prec emax x y.
Definition ltb (x y : double) : bool := SFltb x y.
Definition leb (x y : double) : bool := SFleb x y.

(** [std::max(a, b)] is [(a < b) ? b : a]. *)
Definition max (a b : double) : double := if ltb a b then b else a.

(** [static_cast<int>(x)]: the fraction is dropped. A value with no [int]
    to hold it (NaN, infinities, magnitude beyond the range) has no defined
    result in C++; the embedding takes [int_min] there, the value the x86
    conversion delivers. *)
Definition to_int (x : double) : Z :=
  match x with
  | S754_zero _ => 0
  | S754_finite s m e =>
      let mag := Z.shiftl (Zpos m) e in
      let v := if s then - mag else mag in
      if (Int.int_min <=? v) && (v <=? Int.int_max) then v else Int.int_min
  | _ => Int.int_min
  end.

End Double.

(** ** Decoder adapter ([cv::VideoCapture]) *)

(** The operations the window uses on [cap_]. [Mat] is the type of decoded,
    non-empty images; an empty [cv::Mat] is [None]. [cap_frame_count] and
    [cap_pos_frames] stand for [static_cast<int>(cap.get(CAP_PROP_...))].
    [cap_read] is [cap.read(frame)]: [Some] frame when it returns true. *)
Class VideoCapture (Mat Cap : Type) := {
  cap_isOpened : Cap -> bool;
  cap_release : Cap -> Cap;
  cap_open : string -> Cap -> Cap;
  cap_fps : Cap -> Double.double;
  cap_frame_count : Cap -> Z;
  cap_pos_frames : Cap -> Z;
  cap_set_pos_frames : Z -> Cap -> Cap;
  cap_read : Cap -> option Mat * Cap
}.

(** An exact decoder: a video is its list of frames, a seek lands on the
    frame asked for, a read delivers the frame at the position and moves
    the position one further. *)
Module ExactDecoder.

Record Video (Mat : Type) := mkVideo {
  video_fps : Double.double;
  video_frames : list Mat
}.
Arguments mkVideo {Mat}.
Arguments video_fps {Mat}.
Arguments video_frames {Mat}.

Record Capture (Mat : Type) := mkCapture {
  library : gmap string (Video Mat);
  source : option (Video Mat);
  position : Z
}.
Arguments mkCapture {Mat}.
Arguments library {Mat}.
Arguments source {Mat}.
Arguments position {Mat}.

Section Ops.
Context {Mat : Type}.

Definition isOpened (c : Capture Mat) : bool :=
  match source c with Some _ => true | None => false end.

Definition release (c : Capture Mat) : Capture Mat :=
  mkCapture (library c) None 0.

Definition open (path : string) (c : Capture Mat) : Capture Mat :=
  mkCapture (library c) (library c !! path) 0.

Definition fps (c : Capture Mat) : Double.double :=
  match source c with Some v => video_fps v | None => Double.zero end.

Definition frame_count (c : Capture Mat) : Z :=
  match source c with
  | Some v => Z.of_nat (length (video_frames v))
  | None => 0
  end.

Definition set_pos_frames (p : Z) (c : Capture Mat) : Capture Mat :=
  match source c with
  | Some _ => mkCapture (library c) (source c) p
  | None => c
  end.

Definition read (c : Capture Mat) : option Mat * Capture Mat :=
  match source c with
  | Some v =>
      if position c <? 0 then (None, c)
      else
        match video_frames v !! Z.to_nat (position c) with
        | Some frame => (Some frame, mkCapture (library c) (source c) (position c + 1))
        | None => (None, c)
        end
  | None => (None, c)
  end.

End Ops.

#[global] Instance capture_ops (Mat : Type) : VideoCapture Mat (Capture Mat) := {
  cap_isOpened := isOpened;
  cap_release := release;
  cap_open := open;
  cap_fps := fps;
  cap_frame_count := frame_count;
  cap_pos_frames := position;
  cap_set_pos_frames := set_pos_frames;
  cap_read := read
}.

End ExactDecoder.

(** ** Widgets and dialogs *)

(** [QTimer]: whether it is running, and its interval in milliseconds. *)
Record QTimer := mkTimer { timer_active : bool; timer_interval : Z }.

(** [QSlider]: its range and value. *)
Record QSlider := mkSlider { slider_minimum : Z; slider_maximum : Z; slider_value : Z }.

Module Slider.

(** [qBound(min, v, max)]. *)
Definition qBound (lo v hi : Z) : Z := Z.max lo (Z.min hi v).

Definition setRange (lo hi : Z) (s : QSlider) : QSlider :=
  let hi' := Z.max lo hi in
  mkSlider lo hi' (qBound lo (slider_value s) hi').

Definition setMinimum (lo : Z) (s : QSlider) : QSlider :=
  setRange lo (Z.max (slider_maximum s) lo) s.

Definition setMaximum (hi : Z) (s : QSlider) : QSlider :=
  setRange (Z.min (slider_minimum s) hi) hi s.

Definition setValue (v : Z) (s : QSlider) : QSlider :=
  mkSlider (slider_minimum s) (slider_maximum s)
           (qBound (slider_minimum s) v (slider_maximum s)).

End Slider.

(** What the user gets to see besides the video: message boxes and the
    status bar. *)
Inductive Notice :=
| WarningBox (title text : string)
| InformationBox (title text : string)
| StatusMessage (text : string).

(** Outcome of the system calls of one [saveCurrentFrame]: whether
    [QDir::mkpath], the encoder's file write and the opening of the config
    file for writing go through. *)
Record IO := mkIO { mkpathOk : bool; imwriteOk : bool; configOpenOk : bool }.

(** ** The window *)

Section Window.

Context {Mat Cap : Type} {VC : VideoCapture Mat Cap}.

(** The members of [MainWindow] the core logic reads or writes, and the
    surroundings it acts on. *)
Record MainWindow := mkMainWindow {
  cap_ : Cap;
  fps_ : Double.double;
  frameCount_ : Z;
  currentFrameIndex_ : Z;
  currentFrameBGR_ : option Mat;
  playing_ : bool;
  sliderHeld_ : bool;
  lastVideoPath_ : string;
  saveDirPath_ : string;
  nextImageIndex_ : Z;
  configPath_ : string;
  timer_ : QTimer;  (** the playback timer *)
  timeSlider : QSlider;  (** [ui->timeSlider] *)
  videoLabel : option Mat;  (** the image on [ui->videoLabel], set by [displayMat] *)
  disk : Disk;  (** the file system the window works on *)
  shown : list Notice  (** dialogs and status messages shown so far, oldest first *)
}.

(** Field updates. *)

Definition with_cap (x : Cap) (w : MainWindow) : MainWindow :=
  mkMainWindow x (fps_ w) (frameCount_ w) (currentFrameIndex_ w) (currentFrameBGR_ w)
    (playing_ w) (sliderHeld_ w) (lastVideoPath_ w) (saveDirPath_ w)
    (nextImageIndex_ w) (configPath_ w) (timer_ w) (timeSlider w)
    (videoLabel w) (disk w) (shown w).

Definition with_fps (x : Double.double) (w : MainWindow) : MainWindow :=
  mkMainWindow (cap_ w) x (frameCount_ w) (currentFrameIndex_ w) (currentFrameBGR_ w)
    (playing_ w) (sliderHeld_ w) (lastVideoPath_ w) (saveDirPath_ w)
    (nextImageIndex_ w) (configPath_ w) (timer_ w) (timeSlider w)
    (videoLabel w) (disk w) (shown w).

Definition with_frameCount (x : Z) (w : MainWindow) : MainWindow :=
  mkMainWindow (cap_ w) (fps_ w) x (currentFrameIndex_ w) (currentFrameBGR_ w)
    (playing_ w) (sliderHeld_ w) (lastVideoPath_ w) (saveDirPath_ w)
    (nextImageIndex_ w) (configPath_ w) (timer_ w) (timeSlider w)
    (videoLabel w) (disk w) (shown w).

Definition with_currentFrameIndex (x : Z) (w : MainWindow) : MainWindow :=
  mkMainWindow (cap_ w) (fps_ w) (frameCount_ w) x (currentFrameBGR_ w) (playing_ w)
    (sliderHeld_ w) (lastVideoPath_ w) (saveDirPath_ w) (nextImageIndex_ w)
    (configPath_ w) (timer_ w) (timeSlider w) (videoLabel w) (disk w)
    (shown w).

Definition with_currentFrameBGR (x : option Mat) (w : MainWindow) : MainWindow :=
  mkMainWindow (cap_ w) (fps_ w) (frameCount_ w) (currentFrameIndex_ w) x (playing_ w)
    (sliderHeld_ w) (lastVideoPath_ w) (saveDirPath_ w) (nextImageIndex_ w)
    (configPath_ w) (timer_ w) (timeSlider w) (videoLabel w) (disk w)
    (shown w).

Definition with_playing (x : bool) (w : MainWindow) : MainWindow :=
  mkMainWindow (cap_ w) (fps_ w) (frameCount_ w) (currentFrameIndex_ w)
    (currentFrameBGR_ w) x (sliderHeld_ w) (lastVideoPath_ w) (saveDirPath_ w)
    (nextImageIndex_ w) (configPath_ w) (timer_ w) (timeSlider w)
    (videoLabel w) (disk w) (shown w).

Definition with_sliderHeld (x : bool) (w : MainWindow) : MainWindow :=
  mkMainWindow (cap_ w) (fps_ w) (frameCount_ w) (currentFrameIndex_ w)
    (currentFrameBGR_ w) (playing_ w) x (lastVideoPath_ w) (saveDirPath_ w)
    (nextImageIndex_ w) (configPath_ w) (timer_ w) (timeSlider w)
    (videoLabel w) (disk w) (shown w).

Definition with_lastVideoPath (x : string) (w : MainWindow) : MainWindow :=
  mkMainWindow (cap_ w) (fps_ w) (frameCount_ w) (currentFrameIndex_ w)
    (currentFrameBGR_ w) (playing_ w) (sliderHeld_ w) x (saveDirPath_ w)
    (nextImageIndex_ w) (configPath_ w) (timer_ w) (timeSlider w)
    (videoLabel w) (disk w) (shown w).

Definition with_saveDirPath (x : string) (w : MainWindow) : MainWindow :=
  mkMainWindow (cap_ w) (fps_ w) (frameCount_ w) (currentFrameIndex_ w)
    (currentFrameBGR_ w) (playing_ w) (sliderHeld_ w) (lastVideoPath_ w) x
    (nextImageIndex_ w) (configPath_ w) (timer_ w) (timeSlider w)
    (videoLabel w) (disk w) (shown w).

Definition with_nextImageIndex (x : Z) (w : MainWindow) : MainWindow :=
  mkMainWindow (cap_ w) (fps_ w) (frameCount_ w) (currentFrameIndex_ w)
    (currentFrameBGR_ w) (playing_ w) (sliderHeld_ w) (lastVideoPath_ w)
    (saveDirPath_ w) x (configPath_ w) (timer_ w) (timeSlider w)
    (videoLabel w) (disk w) (shown w).

Definition with_timer (x : QTimer) (w : MainWindow) : MainWindow :=
  mkMainWindow (cap_ w) (fps_ w) (frameCount_ w) (currentFrameIndex_ w)
    (currentFrameBGR_ w) (playing_ w) (sliderHeld_ w) (lastVideoPath_ w)
    (saveDirPath_ w) (nextImageIndex_ w) (configPath_ w) x (timeSlider w)
    (videoLabel w) (disk w) (shown w).

Definition with_timeSlider (x : QSlider) (w : MainWindow) : MainWindow :=
  mkMainWindow (cap_ w) (fps_ w) (frameCount_ w) (currentFrameIndex_ w)
    (currentFrameBGR_ w) (playing_ w) (sliderHeld_ w) (lastVideoPath_ w)
    (saveDirPath_ w) (nextImageIndex_ w) (configPath_ w) (timer_ w) x
    (videoLabel w) (disk w) (shown w).

Definition with_videoLabel (x : option Mat) (w : MainWindow) : MainWindow :=
  mkMainWindow (cap_ w) (fps_ w) (frameCount_ w) (currentFrameIndex_ w)
    (currentFrameBGR_ w) (playing_ w) (sliderHeld_ w) (lastVideoPath_ w)
    (saveDirPath_ w) (nextImageIndex_ w) (configPath_ w) (timer_ w)
    (timeSlider w) x (disk w) (shown w).

Definition with_disk (x : Disk) (w : MainWindow) : MainWindow :=
  mkMainWindow (cap_ w) (fps_ w) (frameCount_ w) (currentFrameIndex_ w)
    (currentFrameBGR_ w) (playing_ w) (sliderHeld_ w) (lastVideoPath_ w)
    (saveDirPath_ w) (nextImageIndex_ w) (configPath_ w) (timer_ w)
    (timeSlider w) (videoLabel w) x (shown w).

Definition with_shown (x : list Notice) (w : MainWindow) : MainWindow :=
  mkMainWindow (cap_ w) (fps_ w) (frameCount_ w) (currentFrameIndex_ w)
    (currentFrameBGR_ w) (playing_ w) (sliderHeld_ w) (lastVideoPath_ w)
    (saveDirPath_ w) (nextImageIndex_ w) (configPath_ w) (timer_ w)
    (timeSlider w) (videoLabel w) (disk w) x.

Definition show (n : Notice) (w : MainWindow) : MainWindow :=
  with_shown (shown w ++ [n]) w.

(** *** Playback cursor *)

(** [MainWindow::displayMat]: an empty image is not drawn. *)
Definition displayMat (bgr : option Mat) (w : MainWindow) : MainWindow :=
  match bgr with
  | None => w
  | Some _ => with_videoLabel bgr w
  end.

(** [MainWindow::setPlaying]. The tool tip and the overlay glyph are drawn
    from [playing_] and leave no trace in the state. *)
Definition setPlaying (on : bool) (w : MainWindow) : MainWindow :=
  let w := with_playing on w in
  with_timer (mkTimer (playing_ w) (timer_interval (timer_ w))) w.

(** [MainWindow::updateTimerFromFPS]. *)
Definition intervalMs (fps : Double.double) : Z :=
  Double.to_int (Double.div (Double.of_Z 1000) (Double.max (Double.of_Z 1) fps)).

Definition updateTimerFromFPS (w : MainWindow) : MainWindow :=
  with_timer (mkTimer (timer_active (timer_ w)) (intervalMs (fps_ w))) w.

(** [MainWindow::ensureSliderRange] (the step sizes are left out). *)
Definition ensureSliderRange (w : MainWindow) : MainWindow :=
  let s := Slider.setMinimum 0 (timeSlider w) in
  let s := Slider.setMaximum (Int.max 0 (Int.int_sub (frameCount_ w) 1)) s in
  with_timeSlider s w.

(** [MainWindow::seekTo]. [updateInfoLabels] redraws two labels from the
    fields and changes none of them. *)
Definition seekTo (frameIndex : Z) (w : MainWindow) : MainWindow :=
  if negb (cap_isOpened (cap_ w)) then w
  else
    let frameIndex :=
      Int.clamp frameIndex 0 (Int.max 0 (Int.int_sub (frameCount_ w) 1)) in
    let w := with_cap (cap_set_pos_frames frameIndex (cap_ w)) w in
    match cap_read (cap_ w) with
    | (Some frame, cap') =>
        let w := with_cap cap' w in
        let w := with_currentFrameIndex
                   (Int.int_sub (cap_pos_frames (cap_ w)) 1) w in
        let w := with_currentFrameBGR (Some frame) w in
        let w := displayMat (currentFrameBGR_ w) w in
        if negb (sliderHeld_ w)
        then with_timeSlider (Slider.setValue (currentFrameIndex_ w) (timeSlider w)) w
        else w
    | (None, cap') => with_cap cap' w
    end.

(** [MainWindow::stepRelative]. *)
Definition stepRelative (deltaFrames : Z) (w : MainWindow) : MainWindow :=
  let target := Int.int_add (currentFrameIndex_ w) deltaFrames in
  seekTo target w.

(** [MainWindow::openVideo]. *)
Definition openVideo (path : string) (w : MainWindow) : MainWindow :=
  let w := if cap_isOpened (cap_ w) then with_cap (cap_release (cap_ w)) w else w in
  let w := with_cap (cap_open path (cap_ w)) w in
  if negb (cap_isOpened (cap_ w))
  then show (WarningBox "Error" "Failed to open video.") w
  else
    let w := with_fps (cap_fps (cap_ w)) w in
    let w := if Double.leb (fps_ w) Double.zero
             then with_fps (Double.of_Z 30) w else w in
    let w := with_frameCount (cap_frame_count (cap_ w)) w in
    let w := with_currentFrameIndex 0 w in
    let w := ensureSliderRange w in
    let w := updateTimerFromFPS w in
    seekTo 0 w.

(** [MainWindow::tick], the slot of the playback timer. *)
Definition tick (w : MainWindow) : MainWindow :=
  if negb (cap_isOpened (cap_ w)) then w
  else
    match cap_read (cap_ w) with
    | (None, cap') => setPlaying false (with_cap cap' w)
    | (Some frame, cap') =>
        let w := with_cap cap' w in
        let w := with_currentFrameIndex
                   (Int.int_sub (cap_pos_frames (cap_ w)) 1) w in
        let w := with_currentFrameBGR (Some frame) w in
        let w := displayMat (currentFrameBGR_ w) w in
        if negb (sliderHeld_ w)
        then with_timeSlider (Slider.setValue (currentFrameIndex_ w) (timeSlider w)) w
        else w
    end.

(** [MainWindow::togglePlayPause] and [MainWindow::on_playPauseBtn_clicked]. *)
Definition togglePlayPause (w : MainWindow) : MainWindow :=
  if negb (cap_isOpened (cap_ w)) then w
  else setPlaying (negb (playing_ w)) w.

Definition on_playPauseBtn_clicked (w : MainWindow) : MainWindow :=
  if negb (cap_isOpened (cap_ w)) then w
  else setPlaying (negb (playing_ w)) w.

(** [MainWindow::on_preVideoBtn_clicked], [MainWindow::on_nextVideoBtn_clicked]. *)
Definition on_preVideoBtn_clicked (w : MainWindow) : MainWindow :=
  if negb (cap_isOpened (cap_ w)) then w
  else stepRelative (-1) (setPlaying false w).

Definition on_nextVideoBtn_clicked (w : MainWindow) : MainWindow :=
  if negb (cap_isOpened (cap_ w)) then w
  else stepRelative 1 (setPlaying false w).

(** [MainWindow::on_reloadVideoBtn_clicked]. *)
Definition on_reloadVideoBtn_clicked (w : MainWindow) : MainWindow :=
  if negb (cap_isOpened (cap_ w)) then w
  else setPlaying true (seekTo 0 (setPlaying false w)).

(** [MainWindow::on_timeSlider_sliderMoved]. *)
Definition on_timeSlider_sliderMoved (value : Z) (w : MainWindow) : MainWindow :=
  if negb (cap_isOpened (cap_ w)) then w else seekTo value w.

(** [MainWindow::on_timeSlider_sliderPressed]. *)
Definition on_timeSlider_sliderPressed (w : MainWindow) : MainWindow :=
  let w := with_sliderHeld true w in
  if playing_ w then setPlaying false w else w.

(** [MainWindow::on_timeSlider_sliderReleased]. *)
Definition on_timeSlider_sliderReleased (w : MainWindow) : MainWindow :=
  if negb (cap_isOpened (cap_ w)) then with_sliderHeld false w
  else
    let target := slider_value (timeSlider w) in
    with_sliderHeld false (seekTo target w).

(** *** Session config store *)

(** The lines [QTextStream::readLine] delivers until [atEnd]. The file is
    opened with [QIODevice::Text], and such a device hands on no carriage
    return: each one is dropped, wherever it stands. *)
Fixpoint readLinesFrom (cur : string) (s : string) : list string :=
  match s with
  | EmptyString => if QStr.isEmpty cur then [] else [cur]
  | String c r =>
      if Ascii.eqb c "010"%char then cur :: readLinesFrom EmptyString r
      else if Ascii.eqb c "013"%char then readLinesFrom cur r
      else readLinesFrom (cur +:+ String c EmptyString)%string r
  end.

Definition readLines (content : string) : list string :=
  readLinesFrom EmptyString content.

(** The body of the [while (!in.atEnd())] loop of [loadConfig]. *)
Definition loadLine (w : MainWindow) (raw : string) : MainWindow :=
  let line := QStr.trimmed raw in
  if QStr.isEmpty line || QStr.startsWith "#"%char line then w
  else
    let eq := QStr.indexOf "="%char line in
    if eq <=? 0 then w
    else
      let key := QStr.trimmed (QStr.left eq line) in
      let val := QStr.trimmed (QStr.mid (eq + 1) line) in
      if String.eqb key "last_video" then with_lastVideoPath val w
      else if String.eqb key "save_dir" then with_saveDirPath val w
      else if String.eqb key "next_image"
           then with_nextImageIndex (snd (QStr.toInt val)) w
      else w.

(** The key and the value [loadLine] reads off a line, if it reads any. *)
Definition keyValue (raw : string) : option (string * string) :=
  let line := QStr.trimmed raw in
  if QStr.isEmpty line || QStr.startsWith "#"%char line then None
  else
    let eq := QStr.indexOf "="%char line in
    if eq <=? 0 then None
    else Some (QStr.trimmed (QStr.left eq line), QStr.trimmed (QStr.mid (eq + 1) line)).

(** [MainWindow::loadConfig]: a file that does not exist or cannot be
    opened is not in [files]. *)
Definition loadConfig (w : MainWindow) : MainWindow :=
  match files (disk w) !! configPath_ w with
  | None => w
  | Some content => fold_left loadLine (readLines content) w
  end.

(** [MainWindow::saveConfig]: the text written, and the write, which
    replaces the content of the file at [configPath_] when the file could
    be opened. The listings in [dirs] are for the scan, and the config file
    has no entry in them. *)
Definition configText (w : MainWindow) : string :=
  ("# Simple config for Video Dataset Preparation Tool" +:+ String "010"%char EmptyString
   +:+ "last_video=" +:+ lastVideoPath_ w +:+ String "010"%char EmptyString
   +:+ "save_dir=" +:+ saveDirPath_ w +:+ String "010"%char EmptyString
   +:+ "next_image=" +:+ QStr.argInt (nextImageIndex_ w) 0
   +:+ String "010"%char EmptyString)%string.

Definition saveConfig (openOk : bool) (w : MainWindow) : MainWindow :=
  if negb openOk then w
  else
    with_disk (mkDisk (dirs (disk w))
                      (<[configPath_ w := configText w]> (files (disk w)))) w.

(** *** Save sequencer *)

(** [MainWindow::recalcNextImageFromDir]. *)
Definition recalcNextImageFromDir (w : MainWindow) : MainWindow :=
  if QStr.isEmpty (saveDirPath_ w) then with_nextImageIndex 1 w
  else
    with_nextImageIndex
      (Int.int_add (Scanner.extractLargestNumberInDir (disk w) (saveDirPath_ w)) 1) w.

(** [dir.mkpath(".")] on a directory that does not exist: afterwards the
    directory is there, with nothing in it. Parents made on the way, and
    the entry the new directory gets in the listing of its parent, are
    directories; a scan takes regular files only, so they are not
    recorded. *)
Definition mkpath (ok : bool) (dirPath : string) (d : Disk) : Disk :=
  if ok then mkDisk (<[dirPath := []]> (dirs d)) (files d) else d.

(** [cv::imwrite(dir.filePath(filename), frame)]: the write needs the
    directory to exist and the system to let it through; then the file is
    in the directory. *)
Definition imwrite (allowed : bool) (dirPath filename : string) (d : Disk)
  : bool * Disk :=
  match dirs d !! dirPath with
  | Some entries =>
      if allowed
      then (true, mkDisk (<[dirPath := writeEntry filename entries]> (dirs d)) (files d))
      else (false, d)
  | None => (false, d)
  end.

(** The file name [QString("image_%1.png").arg(n, 4, 10, QLatin1Char('0'))]. *)
Definition imageName (n : Z) : string :=
  ("image_" +:+ QStr.argInt n 4 +:+ ".png")%string.

(** [QDir dir(saveDirPath_); if (!dir.exists()) dir.mkpath(".");] *)
Definition ensureSaveDir (io : IO) (w : MainWindow) : MainWindow :=
  match dirs (disk w) !! saveDirPath_ w with
  | Some _ => w
  | None => with_disk (mkpath (mkpathOk io) (saveDirPath_ w) (disk w)) w
  end.

(** [MainWindow::saveCurrentFrame]; flashing the label leaves no trace in
    the state. *)
Definition saveCurrentFrame (io : IO) (w : MainWindow) : MainWindow :=
  match currentFrameBGR_ w with
  | None => w
  | Some frame =>
      if QStr.isEmpty (saveDirPath_ w)
      then show (InformationBox "Save directory required"
                                "Please select a save directory first.") w
      else
        let w := ensureSaveDir io w in
        let w := recalcNextImageFromDir w in
        let filename := imageName (nextImageIndex_ w) in
        let '(ok, disk') := imwrite (imwriteOk io) (saveDirPath_ w) filename (disk w) in
        let w := with_disk disk' w in
        if negb ok
        then show (WarningBox "Save failed" "Could not save image.") w
        else
          let w := with_nextImageIndex (Int.int_add (nextImageIndex_ w) 1) w in
          let w := saveConfig (configOpenOk io) w in
          show (StatusMessage ("Saved: " +:+ filename)%string) w
  end.

(** *** Names for what the statements below talk about *)

(** Two windows that agree on the two paths. *)
Definition samePaths (w1 w2 : MainWindow) : Prop :=
  lastVideoPath_ w1 = lastVideoPath_ w2 /\ saveDirPath_ w1 = saveDirPath_ w2.

(** The decoder [openVideo] ends up with. *)
Definition reopened (path : string) (w : MainWindow) : Cap :=
  cap_open path (if cap_isOpened (cap_ w) then cap_release (cap_ w) else cap_ w).

(** The frame rate [openVideo] stores. *)
Definition storedFps (reported : Double.double) : Double.double :=
  if Double.leb reported Double.zero then Double.of_Z 30 else reported.

(** The window as [openVideo] has it when it calls [seekTo(0)]. *)
Definition openedAt (path : string) (w : MainWindow) : MainWindow :=
  updateTimerFromFPS
    (ensureSliderRange
       (with_currentFrameIndex 0
          (with_frameCount (cap_frame_count (reopened path w))
             (with_fps (storedFps (cap_fps (reopened path w)))
                (with_cap (reopened path w) w))))).

End Window.

Arguments MainWindow : clear implicits.
Arguments mkMainWindow {Mat Cap}.

(** ** The specification's reading of the timer period *)

(** [1000 / fps] rounded to the nearest integer, halves upwards, for an
    integer frame rate: the period the specification words describe. *)
Definition spec_roundedPeriod (fps : Z) : Z := (2 * 1000 + fps) / (2 * fps).

(** ** Sample windows *)

Module Examples.
Import ExactDecoder.

(** Frames are numbered; a five-frame clip at 60 frames per second and a
    stream with no frame at all. *)
Definition clip : Video nat := mkVideo (Double.of_Z 60) [0; 1; 2; 3; 4]%nat.
Definition emptyStream : Video nat := mkVideo (Double.of_Z 30) [].

Definition videos : gmap string (Video nat) :=
  <["clip.mp4"%string := clip]> (<["empty.mp4"%string := emptyStream]> ∅).

(** The window before any video is opened and any directory chosen. *)
Definition startup : MainWindow nat (Capture nat) :=
  mkMainWindow (mkCapture videos None 0) (Double.of_Z 30) 0 0 None false false
    EmptyString EmptyString 1 "config.txt"
    (mkTimer false 0) (mkSlider 0 99 0) None emptyDisk [].

(** The clip opened and stepped to frame 2. *)
Definition onFrame2 : MainWindow nat (Capture nat) :=
  seekTo 2 (openVideo "clip.mp4" startup).

(** The same with playback running. *)
Definition playingClip : MainWindow nat (Capture nat) :=
  setPlaying true onFrame2.

(** [onFrame2] with the empty directory /out selected for saving. *)
Definition readyToSave : MainWindow nat (Capture nat) :=
  with_disk (diskWith "/out" [] emptyDisk) (with_saveDirPath "/out" onFrame2).

(** Every system call goes through. *)
Definition allOk : IO := mkIO true true true.

(** A config file whose [next_image] value is no number. *)
Definition brokenConfig : string :=
  ("# Simple config for Video Dataset Preparation Tool" +:+ String "010"%char EmptyString
   +:+ "last_video=v.mp4" +:+ String "010"%char EmptyString
   +:+ "save_dir=/out" +:+ String "010"%char EmptyString
   +:+ "next_image=abc" +:+ String "010"%char EmptyString)%string.

Definition withBrokenConfig : MainWindow nat (Capture nat) :=
  with_disk (mkDisk ∅ (<["config.txt"%string := brokenConfig]> ∅)) startup.

End Examples.

(** The digits of the string being read after [acc]. *)
Definition valueFrom (acc : Z) (s : string) : Z :=
  fold_left (fun a c => 10 * a + QStr.digitVal c) (list_ascii_of_string s) acc.

(** The decimal digits of a natural number, as [QString::arg] and the text
    stream write them. *)
Definition decimal (m : N) : string := NilZero.string_of_uint (N.to_uint m).

(** ** The other slots, the event filter and the start of the window *)

(** What the event filter looks at in an event. *)
Inductive MouseButton := LeftButton | RightButton | OtherButton.
Inductive Key := Key_Space | Key_S | Key_Left | Key_Right | Key_Other.
Inductive QEvent :=
| MouseButtonPress (onVideoLabel : bool) (button : MouseButton)
| KeyPress (key : Key)
| OtherEvent.

Section Slots.

Context {Mat Cap : Type} {VC : VideoCapture Mat Cap}.

(** [MainWindow::on_selectDirBtn_clicked]; [dir] is what the directory
    dialog returns, empty when the user cancels. *)
Definition on_selectDirBtn_clicked (dir : string) (configOpenOk : bool)
    (w : MainWindow Mat Cap) : MainWindow Mat Cap :=
  if QStr.isEmpty dir then w
  else
    let w := with_saveDirPath dir w in
    let w := recalcNextImageFromDir w in
    saveConfig configOpenOk w.

(** [MainWindow::on_selectVideoBtn_clicked]; [path] is what the file dialog
    returns. *)
Definition on_selectVideoBtn_clicked (path : string) (configOpenOk : bool)
    (w : MainWindow Mat Cap) : MainWindow Mat Cap :=
  if QStr.isEmpty path then w
  else
    let w := openVideo path w in
    let w := with_lastVideoPath path w in
    saveConfig configOpenOk w.

Definition with_configPath (x : string) (w : MainWindow Mat Cap) : MainWindow Mat Cap :=
  mkMainWindow (cap_ w) (fps_ w) (frameCount_ w) (currentFrameIndex_ w) (currentFrameBGR_ w)
    (playing_ w) (sliderHeld_ w) (lastVideoPath_ w) (saveDirPath_ w)
    (nextImageIndex_ w) x (timer_ w) (timeSlider w) (videoLabel w) (disk w) (shown w).

(** [MainWindow::MainWindow], from where it works on the members; what comes
    before sets up widgets. [appData] is what
    [QStandardPaths::writableLocation] returns, [separator] is
    [QDir::separator()]; [QDir().mkpath(appData)] creates the directory
    unless it is there, and [QFile::exists] is given by [fileExists]. The
    config is loaded, the index recomputed, and the last video opened if
    there is one and its file exists. *)
Definition construct (appData : string) (separator : ascii) (mkpathOk : bool)
    (fileExists : string -> bool)
    (w : MainWindow Mat Cap) : MainWindow Mat Cap :=
  let w := match dirs (disk w) !! appData with
           | Some _ => w
           | None => with_disk (mkpath mkpathOk appData (disk w)) w
           end in
  let w := with_configPath (appData +:+ String separator "config.txt") w in
  let w := loadConfig w in
  let w := recalcNextImageFromDir w in
  if negb (QStr.isEmpty (lastVideoPath_ w)) && fileExists (lastVideoPath_ w)
  then openVideo (lastVideoPath_ w) w
  else w.

(** [MainWindow::~MainWindow]. *)
Definition destruct_window (configOpenOk : bool) (w : MainWindow Mat Cap)
  : MainWindow Mat Cap :=
  saveConfig configOpenOk w.

(** [MainWindow::eventFilter]: whether the event is consumed, and the
    window afterwards. What is not handled goes to
    [QMainWindow::eventFilter], which consumes nothing. *)
Definition eventFilter (io : IO) (event : QEvent) (w : MainWindow Mat Cap)
  : bool * MainWindow Mat Cap :=
  match event with
  | MouseButtonPress true LeftButton => (true, togglePlayPause w)
  | MouseButtonPress true RightButton => (true, saveCurrentFrame io w)
  | KeyPress Key_Space => (true, togglePlayPause w)
  | KeyPress Key_S => (true, saveCurrentFrame io w)
  | KeyPress Key_Left =>
      (true, if cap_isOpened (cap_ w)
             then stepRelative (-1) (setPlaying false w) else w)
  | KeyPress Key_Right =>
      (true, if cap_isOpened (cap_ w)
             then stepRelative 1 (setPlaying false w) else w)
  | _ => (false, w)
  end.

(** [MainWindow::resizeEvent], as far as the members go: the current frame
    is drawn again. *)
Definition resizeEvent (w : MainWindow Mat Cap) : MainWindow Mat Cap :=
  match currentFrameBGR_ w with
  | Some _ => displayMat (currentFrameBGR_ w) w
  | None => w
  end.

(** The slots and handlers as the event loop calls them, one at a time, and
    a run of them. The two selection buttons come with what their dialog
    returns and with whether the config file can be opened. *)
Inductive Slot :=
| SeekTo (frameIndex : Z)
| StepRelative (deltaFrames : Z)
| Tick
| SetPlaying (on : bool)
| TogglePlayPause
| PlayPauseBtn
| ReloadVideoBtn
| PreVideoBtn
| NextVideoBtn
| SliderMoved (value : Z)
| SliderPressed
| SliderReleased
| SaveCurrentFrame (io : IO)
| EventFilter (io : IO) (event : QEvent)
| ResizeEvent
| SelectVideoBtn (path : string) (configOpenOk : bool)
| SelectDirBtn (dir : string) (configOpenOk : bool).

Definition call (s : Slot) (w : MainWindow Mat Cap) : MainWindow Mat Cap :=
  match s with
  | SeekTo frameIndex => seekTo frameIndex w
  | StepRelative deltaFrames => stepRelative deltaFrames w
  | Tick => tick w
  | SetPlaying on => setPlaying on w
  | TogglePlayPause => togglePlayPause w
  | PlayPauseBtn => on_playPauseBtn_clicked w
  | ReloadVideoBtn => on_reloadVideoBtn_clicked w
  | PreVideoBtn => on_preVideoBtn_clicked w
  | NextVideoBtn => on_nextVideoBtn_clicked w
  | SliderMoved value => on_timeSlider_sliderMoved value w
  | SliderPressed => on_timeSlider_sliderPressed w
  | SliderReleased => on_timeSlider_sliderReleased w
  | SaveCurrentFrame io => saveCurrentFrame io w
  | EventFilter io event => snd (eventFilter io event w)
  | ResizeEvent => resizeEvent w
  | SelectVideoBtn path configOpenOk => on_selectVideoBtn_clicked path configOpenOk w
  | SelectDirBtn dir configOpenOk => on_selectDirBtn_clicked dir configOpenOk w
  end.

Definition run (slots : list Slot) (w : MainWindow Mat Cap) : MainWindow Mat Cap :=
  fold_left (fun w s => call s w) slots w.

(** The slots that end in [saveCurrentFrame]. *)
Definition saves (s : Slot) : bool :=
  match s with
  | SaveCurrentFrame _ => true
  | EventFilter _ (MouseButtonPress true RightButton) => true
  | EventFilter _ (KeyPress Key_S) => true
  | _ => false
  end.

(** The two selection buttons, and the selection that goes on to
    [openVideo]: a video dialog that was not cancelled. *)
Definition selects (s : Slot) : bool :=
  match s with
  | SelectVideoBtn _ _ | SelectDirBtn _ _ => true
  | _ => false
  end.

Definition opens (s : Slot) : bool :=
  match s with
  | SelectVideoBtn path _ => negb (QStr.isEmpty path)
  | _ => false
  end.

(** The slots and events that return at once while no video is open. *)
Definition needsVideo (s : Slot) : bool :=
  match s with
  | SeekTo _ | StepRelative _ | Tick | TogglePlayPause | PlayPauseBtn
  | ReloadVideoBtn | PreVideoBtn | NextVideoBtn | SliderMoved _ => true
  | EventFilter _ (MouseButtonPress true LeftButton) => true
  | EventFilter _ (KeyPress Key_Space) => true
  | EventFilter _ (KeyPress Key_Left) => true
  | EventFilter _ (KeyPress Key_Right) => true
  | _ => false
  end.

(** The save side of two windows is the same: disk, dialogs shown, index and
    paths; and the cursor side is the same: decoder, stream data, frame,
    play state, timer, slider and display. *)
Definition sameSaveSide (w w' : MainWindow Mat Cap) : Prop :=
  disk w' = disk w /\ shown w' = shown w /\
  nextImageIndex_ w' = nextImageIndex_ w /\
  saveDirPath_ w' = saveDirPath_ w /\ lastVideoPath_ w' = lastVideoPath_ w /\
  configPath_ w' = configPath_ w.

Definition sameCursor (w w' : MainWindow Mat Cap) : Prop :=
  cap_ w' = cap_ w /\ fps_ w' = fps_ w /\ frameCount_ w' = frameCount_ w /\
  currentFrameIndex_ w' = currentFrameIndex_ w /\
  currentFrameBGR_ w' = currentFrameBGR_ w /\
  playing_ w' = playing_ w /\ sliderHeld_ w' = sliderHeld_ w /\
  timer_ w' = timer_ w /\ timeSlider w' = timeSlider w /\
  videoLabel w' = videoLabel w.

(** Several saves in a row, and several ticks in a row. *)
Definition saveAll (ios : list IO) (w : MainWindow Mat Cap) : MainWindow Mat Cap :=
  fold_left (fun w io => saveCurrentFrame io w) ios w.

Definition ticks (n : nat) (w : MainWindow Mat Cap) : MainWindow Mat Cap :=
  Nat.iter n tick w.

(** The save target agrees with the directory: the index is what a rescan
    gives. *)
Definition indexFromDir (w : MainWindow Mat Cap) : Prop :=
  nextImageIndex_ w =
  if QStr.isEmpty (saveDirPath_ w) then 1
  else Int.int_add (Scanner.extractLargestNumberInDir (disk w) (saveDirPath_ w)) 1.

(** What [saveConfig] and [loadConfig] carry over. *)
Definition sameConfig (w1 w2 : MainWindow Mat Cap) : Prop :=
  lastVideoPath_ w1 = lastVideoPath_ w2 /\
  saveDirPath_ w1 = saveDirPath_ w2 /\
  nextImageIndex_ w1 = nextImageIndex_ w2.

(** [w'] differs from [w] in the three config fields at most. *)
Definition onlyConfigChanged (w w' : MainWindow Mat Cap) : Prop :=
  w' = with_nextImageIndex (nextImageIndex_ w')
         (with_saveDirPath (saveDirPath_ w')
            (with_lastVideoPath (lastVideoPath_ w') w)).

(** The slider's range is the one [ensureSliderRange] sets, its value
    inside. *)
Definition sliderRanged (w : MainWindow Mat Cap) : Prop :=
  slider_minimum (timeSlider w) = 0 /\
  slider_maximum (timeSlider w) = Z.max 0 (frameCount_ w - 1) /\
  0 <= slider_value (timeSlider w) <= slider_maximum (timeSlider w).

End Slots.

(** A key [loadLine] reads back from the line [key=value]: not empty, no
    white space and no equals sign in it, no [#] in front. *)
Definition goodKey (key : string) : bool :=
  negb (QStr.isEmpty key)
  && QStr.all_chars (fun c => negb (QStr.isSpace c) && negb (Ascii.eqb "="%char c)) key
  && negb (QStr.startsWith "#"%char key).

(** A character that stays in its line when the config file is read: no
    line feed, which ends the line, and no carriage return, which the text
    device drops. *)
Definition inLine (c : ascii) : bool :=
  negb (Ascii.eqb c "010"%char) && negb (Ascii.eqb c "013"%char).

(** The printable ASCII characters, U+0020 to U+007E. *)
Definition printable (c : ascii) : bool :=
  let n := nat_of_ascii c in (32 <=? n)%nat && (n <=? 126)%nat.

(** A path the config file gives back as it is: printable ASCII only, so
    that it holds no line break, no carriage return and no other control
    character, no white space but the space, and nothing that depends on
    the encoding of the file; and no space at its ends. *)
Definition plainPath (p : string) : Prop :=
  QStr.all_chars printable p = true /\
  QStr.dropSpaces p = p /\
  QStr.dropTrailingSpaces p = p.

(** The names of the first [k] saves into an empty directory. *)
Definition firstNames (k : nat) : list string :=
  map (fun i => imageName (Z.of_nat i)) (seq 1 k).

Section ExactCursor.
Import ExactDecoder.
Context {Mat : Type}.

(** The cursor is on a frame of the stream [v]: the index is valid, the
    current and displayed frame is the frame at the index, and the decoder
    stands right behind it. *)
Definition onFrame (v : Video Mat) (w : MainWindow Mat (Capture Mat)) : Prop :=
  source (cap_ w) = Some v /\
  frameCount_ w = Z.of_nat (length (video_frames v)) /\
  frameCount_ w <= Int.int_max /\
  0 <= currentFrameIndex_ w < frameCount_ w /\
  position (cap_ w) = currentFrameIndex_ w + 1 /\
  currentFrameBGR_ w = video_frames v !! Z.to_nat (currentFrameIndex_ w) /\
  videoLabel w = currentFrameBGR_ w.

End ExactCursor.


(** ** More sample windows *)

Module Samples.
Import ExactDecoder Examples.

(** [onFrame2] with a save directory that holds an image and a text file. *)
Definition withImages : MainWindow nat (Capture nat) :=
  with_disk (diskWith "/out" (dirOf ["image_0003.png"; "notes.txt"]%string) emptyDisk)
    (with_saveDirPath "/out" onFrame2).

(** A session with both paths set and its config at /app/config.txt, the
    window of the next run on the disk that session leaves when it is
    closed, and the application directory with its separator. *)
Definition session : MainWindow nat (Capture nat) :=
  with_configPath "/app/config.txt"
    (with_nextImageIndex 7 (with_lastVideoPath "clip.mp4" readyToSave)).

Definition nextRun : MainWindow nat (Capture nat) :=
  with_disk (disk (destruct_window true session)) startup.

Definition appData : string := "/app".
Definition separator : ascii := "/"%char.

(** The user holds the slider on [onFrame2] and has dragged it to frame 4. *)
Definition dragged : MainWindow nat (Capture nat) :=
  with_timeSlider (Slider.setValue 4 (timeSlider onFrame2)) (with_sliderHeld true onFrame2).

(** A mixed run of slots and events, with a save directory selected and a
    video dialog cancelled on the way. *)
Definition mixedRun : list Slot :=
  [Tick; SaveCurrentFrame allOk; NextVideoBtn; SliderPressed; SeekTo 9;
   SelectDirBtn "/out" true; EventFilter allOk (KeyPress Key_Left); ResizeEvent;
   SelectVideoBtn EmptyString true; SliderReleased; PlayPauseBtn; Tick].

(** The slider of the window at startup held at 50 of 0..99. *)
Definition heldAt50 : MainWindow nat (Capture nat) :=
  with_timeSlider (mkSlider 0 99 50) (with_sliderHeld true startup).

(** Transport controls only. *)
Definition controls : list Slot :=
  [PlayPauseBtn; Tick; SeekTo 3; EventFilter allOk (KeyPress Key_Right); ReloadVideoBtn].

End Samples.

(** * Properties *)

(** ** Facts on [int] arithmetic *)

Module IntFacts.
Import Int.

Lemma wrap_id z : in_range z -> wrap z = z.
Proof.
  unfold in_range, int_min, int_max, wrap. intros Hz.
  rewrite Z.mod_small; lia.
Qed.

Lemma wrap_in_range z : in_range (wrap z).
Proof.
  unfold in_range, int_min, int_max, wrap.
  pose proof (Z.mod_pos_bound (z + 2147483648) 4294967296 ltac:(lia)). lia.
Qed.

Lemma int_add_exact a b : in_range (a + b) -> int_add a b = a + b.
Proof. apply wrap_id. Qed.

Lemma int_sub_exact a b : in_range (a - b) -> int_sub a b = a - b.
Proof. apply wrap_id. Qed.

Lemma max_spec a b : max a b = Z.max a b.
Proof. unfold max. destruct (Z.ltb_spec a b); lia. Qed.

Lemma clamp_bounds v lo hi : lo <= hi -> lo <= clamp v lo hi <= hi.
Proof.
  unfold clamp. intros Hle.
  destruct (Z.ltb_spec v lo); [lia|]. destruct (Z.ltb_spec hi v); lia.
Qed.

Lemma clamp_inside v lo hi : lo <= v <= hi -> clamp v lo hi = v.
Proof.
  unfold clamp. intros Hv.
  destruct (Z.ltb_spec v lo); [lia|]. destruct (Z.ltb_spec hi v); lia.
Qed.

Lemma clamp_idem v lo hi : lo <= hi -> clamp (clamp v lo hi) lo hi = clamp v lo hi.
Proof. intros Hle. apply clamp_inside, clamp_bounds, Hle. Qed.

End IntFacts.

(** ** The directory scanner *)

Module ScannerFacts.
Import Scanner.

Lemma scanMatch_candidate m captured :
  scanMatch m captured =
  match candidate captured with Some v => Z.max m v | None => m end.
Proof.
  unfold scanMatch, candidate. destruct (QStr.toInt captured) as [[|] num]; [|reflexivity].
  apply IntFacts.max_spec.
Qed.

(** The two loops together are one pass over all the matches of all the
    listed files. *)
Lemma fold_scanFile fis m :
  fold_left scanFile fis m =
  fold_left scanMatch (flat_map (fun fi => globalMatch (completeBaseName fi)) fis) m.
Proof.
  revert m. induction fis as [|fi fis IH]; intros m; [reflexivity|].
  cbn [fold_left flat_map]. rewrite fold_left_app. apply IH.
Qed.

Lemma fold_scanMatch_spec runs m :
  let r := fold_left scanMatch runs m in
  m <= r /\
  (forall run v, In run runs -> candidate run = Some v -> v <= r) /\
  (r = m \/ exists run, In run runs /\ candidate run = Some r).
Proof.
  revert m. induction runs as [|run runs IH]; intros m; cbn [fold_left].
  - split; [lia|]. split; [intros ? ? []|]. now left.
  - specialize (IH (scanMatch m run)). cbv zeta in IH.
    destruct IH as (Hle & Hub & Hatt).
    pose proof (scanMatch_candidate m run) as Hstep.
    split; [|split].
    + destruct (candidate run); lia.
    + intros run' v [<-|Hin] Hc.
      * rewrite Hc in Hstep. lia.
      * eapply Hub; eassumption.
    + destruct Hatt as [Heq|(run' & Hin & Hc)].
      * destruct (candidate run) as [v|] eqn:Hc.
        -- destruct (Z.max_spec m v) as [[_ Hmax]|[_ Hmax]].
           ++ right. exists run. split; [now left|]. rewrite Hc. f_equal. lia.
           ++ left. lia.
        -- left. lia.
      * right. exists run'. split; [now right|assumption].
Qed.

Lemma all_chars_app p s t :
  QStr.all_chars p (s +:+ t) = QStr.all_chars p s && QStr.all_chars p t.
Proof.
  induction s as [|c s IH]; [reflexivity|].
  simpl. rewrite IH. now rewrite andb_assoc.
Qed.

(** Every match of the pattern is a non-empty string of digits. *)
Lemma globalMatchFrom_digits s : forall cur run,
  (forall r, cur = Some r -> isDigitRun r) ->
  In run (globalMatchFrom cur s) -> isDigitRun run.
Proof.
  induction s as [|c s IH]; intros cur run Hcur Hin; cbn [globalMatchFrom] in Hin.
  - destruct cur as [r|]; [|contradiction].
    destruct Hin as [<-|[]]. now apply Hcur.
  - destruct (QStr.isDigit c) eqn:Hc.
    + eapply IH; [|exact Hin]. intros r [= <-].
      destruct cur as [r0|].
      * destruct (Hcur r0 eq_refl) as [Hne Hall]. split.
        -- destruct r0; [congruence|discriminate].
        -- rewrite all_chars_app, Hall. cbn. now rewrite Hc.
      * split; [discriminate|]. cbn. now rewrite Hc.
    + destruct cur as [r0|].
      * destruct Hin as [<-|Hin]; [now apply Hcur|].
        eapply IH; [|exact Hin]. intros ? [=].
      * eapply IH; [|exact Hin]. intros ? [=].
Qed.

Lemma globalMatch_digits s run : In run (globalMatch s) -> isDigitRun run.
Proof. apply globalMatchFrom_digits. intros ? [=]. Qed.

Lemma append_nil_r s : (s +:+ EmptyString)%string = s.
Proof.
  induction s as [|c s IH]; [reflexivity|].
  change (String c (s +:+ EmptyString)%string = String c s). now rewrite IH.
Qed.

Lemma append_assoc s t u : ((s +:+ t) +:+ u)%string = (s +:+ t +:+ u)%string.
Proof.
  induction s as [|c s IH]; [reflexivity|].
  change (String c ((s +:+ t) +:+ u)%string = String c (s +:+ t +:+ u)%string).
  now rewrite IH.
Qed.

(** A character that is no digit in front of a string adds to its first gap. *)
Lemma MaximalRuns_gap c s runs :
  QStr.isDigit c = false -> MaximalRuns s runs -> MaximalRuns (String c s) runs.
Proof.
  intros Hc Hruns. destruct Hruns as [gap Hgap|gap run rest runs Hgap Hrun Hrest Hruns].
  - apply runs_none. cbn [QStr.all_chars]. now rewrite Hc.
  - change (String c (gap +:+ run +:+ rest)%string)
      with ((String c gap) +:+ run +:+ rest)%string.
    apply runs_cons; try assumption. cbn [QStr.all_chars]. now rewrite Hc.
Qed.

(** The matches of the pattern are the maximal runs of digits; with a run
    [cur] being read, the first match is [cur] and the digits that follow. *)
Lemma globalMatchFrom_runs s :
  MaximalRuns s (globalMatchFrom None s) /\
  forall cur, exists more rest runs,
    s = (more +:+ rest)%string /\
    QStr.all_chars QStr.isDigit more = true /\
    match rest with
    | String c _ => QStr.isDigit c = false
    | EmptyString => True
    end /\
    MaximalRuns rest runs /\
    globalMatchFrom (Some cur) s = (cur +:+ more)%string :: runs.
Proof.
  induction s as [|c s [IHnone IHsome]].
  - split; [now apply runs_none|].
    intros cur. exists EmptyString, EmptyString, [].
    repeat split; [now apply runs_none|]. cbn [globalMatchFrom]. now rewrite append_nil_r.
  - destruct (QStr.isDigit c) eqn:Hc.
    + split.
      * cbn [globalMatchFrom]. rewrite Hc.
        destruct (IHsome (String c EmptyString))
          as (more & rest & runs & -> & Hmore & Hrest & Hruns & ->).
        change (String c (more +:+ rest)%string)
          with (EmptyString +:+ (String c more) +:+ rest)%string.
        apply runs_cons; try assumption; [reflexivity|].
        split; [discriminate|].
        change (QStr.isDigit c && QStr.all_chars QStr.isDigit more = true).
        now rewrite Hc, Hmore.
      * intros cur. cbn [globalMatchFrom]. rewrite Hc.
        destruct (IHsome (cur +:+ String c EmptyString)%string)
          as (more & rest & runs & -> & Hmore & Hrest & Hruns & ->).
        exists (String c more), rest, runs.
        repeat split; try assumption.
        -- cbn [QStr.all_chars]. now rewrite Hc, Hmore.
        -- now rewrite append_assoc.
    + assert (Hnone : MaximalRuns (String c s) (globalMatchFrom None (String c s))).
      { cbn [globalMatchFrom]. rewrite Hc. now apply MaximalRuns_gap. }
      split; [exact Hnone|].
      intros cur. exists EmptyString, (String c s), (globalMatchFrom None s).
      repeat split.
      * exact Hc.
      * cbn [globalMatchFrom] in Hnone. now rewrite Hc in Hnone.
      * cbn [globalMatchFrom]. rewrite Hc. now rewrite append_nil_r.
Qed.

Lemma globalMatch_runs s : MaximalRuns s (globalMatch s).
Proof. apply globalMatchFrom_runs. Qed.

Lemma digit_not_space c : QStr.isDigit c = true -> QStr.isSpace c = false.
Proof.
  unfold QStr.isDigit, QStr.isSpace. intros H.
  apply andb_true_iff in H as [H1 H2].
  apply Nat.leb_le in H1. apply Nat.leb_le in H2. cbv zeta.
  destruct (Nat.leb_spec (nat_of_ascii c) 13); [lia|]. rewrite andb_false_r.
  destruct (Nat.eqb_spec (nat_of_ascii c) 32); [lia|].
  destruct (Nat.eqb_spec (nat_of_ascii c) 133); [lia|].
  destruct (Nat.eqb_spec (nat_of_ascii c) 160); [lia|]. reflexivity.
Qed.

Lemma dropTrailingSpaces_digits s :
  QStr.all_chars QStr.isDigit s = true -> QStr.dropTrailingSpaces s = s.
Proof.
  induction s as [|c s IH]; [reflexivity|]. cbn. intros H.
  apply andb_true_iff in H as [Hc Hs]. rewrite (IH Hs).
  destruct s; [|reflexivity]. now rewrite (digit_not_space c Hc).
Qed.

Lemma trimmed_digits s :
  QStr.all_chars QStr.isDigit s = true -> QStr.trimmed s = s.
Proof.
  intros H. unfold QStr.trimmed.
  assert (QStr.dropSpaces s = s) as ->.
  { destruct s as [|c s]; [reflexivity|]. cbn in *.
    apply andb_true_iff in H as [Hc _]. now rewrite (digit_not_space c Hc). }
  now apply dropTrailingSpaces_digits.
Qed.

Lemma digitVal_nonneg c : QStr.isDigit c = true -> 0 <= QStr.digitVal c <= 9.
Proof.
  unfold QStr.isDigit, QStr.digitVal. intros H.
  apply andb_true_iff in H as [H1 H2].
  apply Nat.leb_le in H1. apply Nat.leb_le in H2. lia.
Qed.

Lemma digitsValue_nonneg s :
  QStr.all_chars QStr.isDigit s = true -> 0 <= QStr.digitsValue s.
Proof.
  unfold QStr.digitsValue.
  assert (forall acc, 0 <= acc -> QStr.all_chars QStr.isDigit s = true ->
            0 <= fold_left (fun a c => 10 * a + QStr.digitVal c)
                           (list_ascii_of_string s) acc) as Hgen.
  { induction s as [|c s IH]; intros acc Hacc Hall; cbn in *; [assumption|].
    apply andb_true_iff in Hall as [Hc Hs].
    apply IH; [|assumption]. pose proof (digitVal_nonneg c Hc). lia. }
  apply Hgen. lia.
Qed.

(** [toInt] on a digit run: its value, unless that exceeds [int_max]. *)
Lemma toInt_digits run :
  isDigitRun run ->
  QStr.toInt run =
  if QStr.digitsValue run <=? Int.int_max then (true, QStr.digitsValue run) else (false, 0).
Proof.
  intros [Hne Hall]. unfold QStr.toInt. rewrite (trimmed_digits run Hall).
  destruct run as [|c r]; [congruence|].
  assert (Hc : QStr.isDigit c = true) by (cbn in Hall; now apply andb_true_iff in Hall as [? _]).
  assert (Hsign : c <> "-"%char /\ c <> "+"%char).
  { split; intros ->; discriminate Hc. }
  destruct Hsign as [Hm Hp].
  assert (Hbody : (let '(neg, ds) := (false, String c r) in
            if QStr.isEmpty ds || negb (QStr.all_chars QStr.isDigit ds) then (false, 0)
            else let v := if (neg : bool) then - QStr.digitsValue ds else QStr.digitsValue ds in
                 if (Int.int_min <=? v) && (v <=? Int.int_max) then (true, v) else (false, 0))
           = if QStr.digitsValue (String c r) <=? Int.int_max
             then (true, QStr.digitsValue (String c r)) else (false, 0)).
  { cbv zeta beta iota. rewrite Hall. cbn [QStr.isEmpty orb negb].
    pose proof (digitsValue_nonneg _ Hall) as Hnn.
    assert ((Int.int_min <=? QStr.digitsValue (String c r)) = true) as ->
      by (apply Z.leb_le; unfold Int.int_min; lia).
    reflexivity. }
  destruct c as [[] [] [] [] [] [] [] []]; try exact Hbody; congruence.
Qed.

Lemma candidate_digits run :
  isDigitRun run ->
  candidate run =
  if QStr.digitsValue run <=? Int.int_max then Some (QStr.digitsValue run) else None.
Proof.
  intros H. unfold candidate. rewrite (toInt_digits run H).
  now destruct (QStr.digitsValue run <=? Int.int_max).
Qed.

Lemma in_runsOf entries run :
  In run (runsOf entries) <->
  exists fi, In fi entries /\ listed fi = true /\ In run (globalMatch (completeBaseName fi)).
Proof.
  unfold runsOf, entryInfoList. rewrite in_flat_map. split.
  - intros (fi & Hfi & Hrun). apply filter_In in Hfi as [Hin Hl]. eauto.
  - intros (fi & Hin & Hl & Hrun). exists fi. split; [|assumption].
    apply filter_In. now split.
Qed.

Lemma runsOf_digits entries run : In run (runsOf entries) -> isDigitRun run.
Proof.
  intros H. apply in_runsOf in H as (fi & _ & _ & Hrun).
  eapply globalMatch_digits, Hrun.
Qed.

Lemma extract_runsOf d dirPath entries :
  dirs d !! dirPath = Some entries ->
  extractLargestNumberInDir d dirPath = fold_left scanMatch (runsOf entries) 0.
Proof.
  intros H. unfold extractLargestNumberInDir. rewrite H. apply fold_scanFile.
Qed.

Lemma extract_diskWith d dirPath entries :
  extractLargestNumberInDir (diskWith dirPath entries d) dirPath =
  fold_left scanFile (entryInfoList entries) 0.
Proof.
  unfold extractLargestNumberInDir, diskWith. cbn [dirs].
  now rewrite lookup_insert_eq.
Qed.

Lemma extract_bounds d dirPath :
  0 <= extractLargestNumberInDir d dirPath <= Int.int_max.
Proof.
  destruct (dirs d !! dirPath) as [entries|] eqn:Hdir.
  - rewrite (extract_runsOf d dirPath entries Hdir).
    destruct (fold_scanMatch_spec (runsOf entries) 0) as (Hle & _ & [->|(run & Hin & Hc)]).
    + unfold Int.int_max. lia.
    + split; [exact Hle|].
      rewrite (candidate_digits run (runsOf_digits entries run Hin)) in Hc.
      destruct (Z.leb_spec (QStr.digitsValue run) Int.int_max); [|discriminate].
      injection Hc as <-. assumption.
  - unfold extractLargestNumberInDir. rewrite Hdir. unfold Int.int_max. lia.
Qed.

(** C2, as stated, fails: a directory holding only [99999999999.png] has a
    digit run of value 99999999999 in a listed file, and the scanner returns
    0, not that maximum ([toInt] rejects what no [int] holds, and the loop
    skips it). *)
Lemma largestNumber_skips_wide_runs :
  let d := diskWith "/out" (dirOf ["99999999999.png"%string]) emptyDisk in
  In "99999999999"%string (runsOf (dirOf ["99999999999.png"%string])) /\
  QStr.digitsValue "99999999999" = 99999999999 /\
  extractLargestNumberInDir d "/out" = 0.
Proof.
  cbv zeta. split; [|split].
  - vm_compute. now left.
  - reflexivity.
  - rewrite extract_diskWith. reflexivity.
Qed.

(** Entries the listing leaves out do not count, whatever number their
    name holds: a hidden image, a symbolic link and an unreadable image
    scan to 0. *)
Lemma unlisted_entries_scan_to_zero :
  extractLargestNumberInDir
    (diskWith "/out"
       [mkFileInfo ".hidden_99.png" true false true true;
        mkFileInfo "link_500.png" true true true false;
        mkFileInfo "frame_7.png" true false false false] emptyDisk) "/out" = 0.
Proof. rewrite extract_diskWith. reflexivity. Qed.

Lemma listed_spec fi :
  listed fi = true <->
  isFile fi = true /\ isSymLink fi = false /\ isReadable fi = true /\
  isHidden fi = false /\
  exists suffix, In suffix [".jpg"; ".jpeg"; ".png"; ".bmp"]%string /\
                 QStr.endsWithCI suffix (fileName fi) = true.
Proof.
  unfold listed, matchesFilters, filters.
  rewrite !andb_true_iff, !negb_true_iff, existsb_exists. tauto.
Qed.

Lemma extract_unlisted d dirPath before fi after :
  listed fi = false ->
  extractLargestNumberInDir (diskWith dirPath (before ++ fi :: after) d) dirPath =
  extractLargestNumberInDir (diskWith dirPath (before ++ after) d) dirPath.
Proof.
  intros Hfi. rewrite !extract_diskWith. unfold entryInfoList.
  rewrite !List.filter_app. cbn [List.filter]. now rewrite Hfi.
Qed.

(** C2, amended: [extractLargestNumberInDir] returns 0 for a directory that
    does not exist; otherwise it looks only at the entries the listing
    returns: regular files that are readable, not hidden and no symbolic
    link, with a name ending in .jpg, .jpeg, .png or .bmp in any case. An
    entry that fails one of these does not count, whatever its name. Over
    the listed files it takes every run of digits of each base name,
    leaves out the runs whose value exceeds 2147483647, and returns the
    maximum of the values of the others, 0 when there is none. For a
    directory holding exactly the plain files frame3.png, img_10_v2.png and
    x.png that is 10. *)
Theorem extractLargestNumberInDir_max (d : Disk) (dirPath : string) :
  match dirs d !! dirPath with
  | None => extractLargestNumberInDir d dirPath = 0
  | Some entries =>
      let r := extractLargestNumberInDir d dirPath in
      (forall run, In run (runsOf entries) ->
                   QStr.digitsValue run <= Int.int_max -> QStr.digitsValue run <= r) /\
      (r = 0 \/
       exists run, In run (runsOf entries) /\
                   QStr.digitsValue run <= Int.int_max /\ r = QStr.digitsValue run) /\
      ((forall run, In run (runsOf entries) -> Int.int_max < QStr.digitsValue run) -> r = 0)
  end /\
  (forall entries run,
     In run (runsOf entries) <->
     exists fi, In fi entries /\ listed fi = true /\
                In run (globalMatch (completeBaseName fi))) /\
  (forall fi,
     listed fi = true <->
     isFile fi = true /\ isSymLink fi = false /\ isReadable fi = true /\
     isHidden fi = false /\
     exists suffix, In suffix [".jpg"; ".jpeg"; ".png"; ".bmp"]%string /\
                    QStr.endsWithCI suffix (fileName fi) = true) /\
  (forall before fi after,
     listed fi = false ->
     extractLargestNumberInDir (diskWith dirPath (before ++ fi :: after) d) dirPath =
     extractLargestNumberInDir (diskWith dirPath (before ++ after) d) dirPath) /\
  (forall base, MaximalRuns base (globalMatch base)) /\
  extractLargestNumberInDir
    (diskWith dirPath (dirOf ["frame3.png"; "img_10_v2.png"; "x.png"]%string) d) dirPath = 10.
Proof.
  split; [|split; [exact in_runsOf|split; [exact listed_spec|
           split; [exact (extract_unlisted d dirPath)|split; [exact globalMatch_runs|]]]];
           rewrite extract_diskWith; reflexivity].
  destruct (dirs d !! dirPath) as [entries|] eqn:Hdir.
  - cbv zeta. rewrite (extract_runsOf d dirPath entries Hdir).
    destruct (fold_scanMatch_spec (runsOf entries) 0) as (Hle & Hub & Hatt).
    assert (Hcand : forall run, In run (runsOf entries) ->
              candidate run = if QStr.digitsValue run <=? Int.int_max
                              then Some (QStr.digitsValue run) else None).
    { intros run Hin. apply candidate_digits. eapply runsOf_digits, Hin. }
    assert (Hwitness : fold_left scanMatch (runsOf entries) 0 = 0 \/
              exists run, In run (runsOf entries) /\
                QStr.digitsValue run <= Int.int_max /\
                fold_left scanMatch (runsOf entries) 0 = QStr.digitsValue run).
    { destruct Hatt as [Heq|(run & Hin & Hc)]; [now left|right].
      exists run. rewrite (Hcand run Hin) in Hc.
      destruct (Z.leb_spec (QStr.digitsValue run) Int.int_max); [|discriminate].
      injection Hc as Hc. repeat split; [assumption|assumption|now symmetry]. }
    split; [|split].
    + intros run Hin Hfit. apply (Hub run); [assumption|].
      rewrite (Hcand run Hin).
      now destruct (Z.leb_spec (QStr.digitsValue run) Int.int_max); [|lia].
    + exact Hwitness.
    + intros Hwide. destruct Hwitness as [Hz|(run & Hin & Hfit & _)]; [exact Hz|].
      specialize (Hwide run Hin). lia.
  - unfold extractLargestNumberInDir. now rewrite Hdir.
Qed.

End ScannerFacts.

(** ** The save sequencer *)

Section SaveFacts.
Context {Mat Cap : Type}.
Implicit Types (w : MainWindow Mat Cap) (io : IO).

Lemma isEmpty_false s : s <> EmptyString -> QStr.isEmpty s = false.
Proof. destruct s; [congruence|reflexivity]. Qed.

Lemma hasEntry_app name es es' :
  hasEntry name (es ++ es') = hasEntry name es || hasEntry name es'.
Proof. unfold hasEntry. apply existsb_app. Qed.

(** After a write the file is in the listing. *)
Lemma hasEntry_writeEntry name es : hasEntry name (writeEntry name es) = true.
Proof.
  unfold writeEntry. destruct (hasEntry name es) eqn:Hhas; [exact Hhas|].
  rewrite hasEntry_app, Hhas. cbn. now rewrite String.eqb_refl.
Qed.

Lemma ensureSaveDir_fields io w :
  currentFrameBGR_ (ensureSaveDir io w) = currentFrameBGR_ w /\
  saveDirPath_ (ensureSaveDir io w) = saveDirPath_ w /\
  shown (ensureSaveDir io w) = shown w.
Proof. unfold ensureSaveDir. now destruct (dirs (disk w) !! saveDirPath_ w). Qed.

Lemma ensureSaveDir_existing io w entries :
  dirs (disk w) !! saveDirPath_ w = Some entries -> ensureSaveDir io w = w.
Proof. intros H. unfold ensureSaveDir. now rewrite H. Qed.

(** One save whose write goes through: the rescanned index names the file,
    the file is in the directory, the index moves one further. *)
Lemma save_written io w frame entries :
  currentFrameBGR_ w = Some frame ->
  saveDirPath_ w <> EmptyString ->
  dirs (disk (ensureSaveDir io w)) !! saveDirPath_ w = Some entries ->
  imwriteOk io = true ->
  let n := Int.int_add (Scanner.extractLargestNumberInDir
                          (disk (ensureSaveDir io w)) (saveDirPath_ w)) 1 in
  let w' := saveCurrentFrame io w in
  currentFrameBGR_ w' = Some frame /\
  saveDirPath_ w' = saveDirPath_ w /\
  dirs (disk w') !! saveDirPath_ w = Some (writeEntry (imageName n) entries) /\
  nextImageIndex_ w' = Int.int_add n 1 /\
  shown w' = shown w ++ [StatusMessage ("Saved: " +:+ imageName n)%string].
Proof.
  intros Hframe Hdir Hentries Hok. cbv zeta.
  destruct (ensureSaveDir_fields io w) as (Hf & Hd & Hs).
  unfold saveCurrentFrame. rewrite Hframe, (isEmpty_false _ Hdir).
  set (w0 := ensureSaveDir io w) in *.
  unfold recalcNextImageFromDir. rewrite Hd, (isEmpty_false _ Hdir).
  unfold imwrite. cbn [disk dirs saveDirPath_ with_nextImageIndex nextImageIndex_].
  rewrite Hd, Hentries, Hok.
  cbn -[Int.int_add imageName writeEntry Scanner.extractLargestNumberInDir String.append].
  destruct (configOpenOk io);
    cbn -[Int.int_add imageName writeEntry Scanner.extractLargestNumberInDir String.append];
    rewrite Hf, Hs, lookup_insert_eq; auto.
Qed.

(** One save whose write fails: the index stays at the rescanned value and
    the disk as it was at the rescan. *)
Lemma save_failed io w frame :
  currentFrameBGR_ w = Some frame ->
  saveDirPath_ w <> EmptyString ->
  imwriteOk io = false \/ dirs (disk (ensureSaveDir io w)) !! saveDirPath_ w = None ->
  let n := Int.int_add (Scanner.extractLargestNumberInDir
                          (disk (ensureSaveDir io w)) (saveDirPath_ w)) 1 in
  let w' := saveCurrentFrame io w in
  disk w' = disk (ensureSaveDir io w) /\
  nextImageIndex_ w' = n /\
  shown w' = shown w ++ [WarningBox "Save failed" "Could not save image."].
Proof.
  intros Hframe Hdir Hfail. cbv zeta.
  destruct (ensureSaveDir_fields io w) as (Hf & Hd & Hs).
  unfold saveCurrentFrame. rewrite Hframe, (isEmpty_false _ Hdir).
  set (w0 := ensureSaveDir io w) in *.
  unfold recalcNextImageFromDir. rewrite Hd, (isEmpty_false _ Hdir).
  unfold imwrite. cbn [disk dirs saveDirPath_ with_nextImageIndex nextImageIndex_].
  rewrite Hd.
  assert (Hno : (let '(ok, _) :=
              match dirs (disk w0) !! saveDirPath_ w with
              | Some entries =>
                  if imwriteOk io
                  then (true, mkDisk (<[saveDirPath_ w := writeEntry
                          (imageName (Int.int_add (Scanner.extractLargestNumberInDir
                             (disk w0) (saveDirPath_ w)) 1)) entries]> (dirs (disk w0)))
                          (files (disk w0)))
                  else (false, disk w0)
              | None => (false, disk w0)
              end in ok) = false /\
            (dirs (disk w0) !! saveDirPath_ w = None \/ imwriteOk io = false)).
  { destruct Hfail as [Hio|Hnone].
    - rewrite Hio. destruct (dirs (disk w0) !! saveDirPath_ w); auto.
    - rewrite Hnone. auto. }
  destruct Hno as [_ [Hnone|Hio]].
  - rewrite Hnone. cbn. rewrite Hs. destruct (disk w0). auto.
  - rewrite Hio. destruct (dirs (disk w0) !! saveDirPath_ w); cbn; rewrite Hs;
      destruct (disk w0); auto.
Qed.

Lemma save_next io w frame entries n :
  currentFrameBGR_ w = Some frame ->
  saveDirPath_ w <> EmptyString ->
  dirs (disk w) !! saveDirPath_ w = Some entries ->
  imwriteOk io = true ->
  Int.int_add (fold_left Scanner.scanFile (Scanner.entryInfoList entries) 0) 1 = n ->
  let w' := saveCurrentFrame io w in
  currentFrameBGR_ w' = Some frame /\
  saveDirPath_ w' = saveDirPath_ w /\
  dirs (disk w') !! saveDirPath_ w = Some (writeEntry (imageName n) entries) /\
  nextImageIndex_ w' = Int.int_add n 1 /\
  shown w' = shown w ++ [StatusMessage ("Saved: " +:+ imageName n)%string].
Proof.
  intros Hframe Hdir Hentries Hok Hn.
  pose proof (ensureSaveDir_existing io w entries Hentries) as Hsame.
  pose proof (save_written io w frame entries Hframe Hdir) as Hstep.
  rewrite Hsame in Hstep. specialize (Hstep Hentries Hok).
  unfold Scanner.extractLargestNumberInDir in Hstep.
  rewrite Hentries, Hn in Hstep. exact Hstep.
Qed.

(** C1: with a save directory selected and a frame decoded,
    [saveCurrentFrame] rescans the directory (the index becomes the largest
    embedded number plus one), writes the frame as image_<index>.png with
    the index padded to four digits, and after a successful write moves the
    index on by one; a failed write leaves it at the rescanned value.
    Starting from an empty directory, three saves that go through produce
    image_0001.png, image_0002.png and image_0003.png in this order and
    leave the index at 4. The additions are those of the C++ [int]: they
    are the exact sums as long as the largest number is at most
    2147483645. *)
Theorem saveCurrentFrame_sequencing w frame :
  currentFrameBGR_ w = Some frame ->
  saveDirPath_ w <> EmptyString ->
  (forall io,
     let w0 := ensureSaveDir io w in
     let largest := Scanner.extractLargestNumberInDir (disk w0) (saveDirPath_ w) in
     let n := Int.int_add largest 1 in
     let w' := saveCurrentFrame io w in
     (largest <= Int.int_max - 2 -> n = largest + 1 /\ Int.int_add n 1 = n + 1) /\
     (forall entries,
        dirs (disk w0) !! saveDirPath_ w = Some entries -> imwriteOk io = true ->
        dirs (disk w') !! saveDirPath_ w = Some (writeEntry (imageName n) entries) /\
        hasEntry (imageName n) (writeEntry (imageName n) entries) = true /\
        nextImageIndex_ w' = Int.int_add n 1 /\
        shown w' = shown w ++ [StatusMessage ("Saved: " +:+ imageName n)%string]) /\
     (imwriteOk io = false \/ dirs (disk w0) !! saveDirPath_ w = None ->
        disk w' = disk w0 /\
        nextImageIndex_ w' = n /\
        shown w' = shown w ++ [WarningBox "Save failed" "Could not save image."])) /\
  (dirs (disk w) !! saveDirPath_ w = Some [] ->
   forall io1 io2 io3,
     imwriteOk io1 = true -> imwriteOk io2 = true -> imwriteOk io3 = true ->
     let w1 := saveCurrentFrame io1 w in
     let w2 := saveCurrentFrame io2 w1 in
     let w3 := saveCurrentFrame io3 w2 in
     dirs (disk w1) !! saveDirPath_ w = Some (dirOf ["image_0001.png"%string]) /\
     dirs (disk w2) !! saveDirPath_ w =
       Some (dirOf ["image_0001.png"; "image_0002.png"]%string) /\
     dirs (disk w3) !! saveDirPath_ w =
       Some (dirOf ["image_0001.png"; "image_0002.png"; "image_0003.png"]%string) /\
     nextImageIndex_ w3 = 4 /\
     shown w3 = shown w ++ [StatusMessage "Saved: image_0001.png";
                            StatusMessage "Saved: image_0002.png";
                            StatusMessage "Saved: image_0003.png"]).
Proof.
  intros Hframe Hdir. split.
  - intros io. cbv zeta. split; [|split].
    + intros Hsmall.
      pose proof (ScannerFacts.extract_bounds (disk (ensureSaveDir io w)) (saveDirPath_ w)) as Hb.
      assert (Hn : Int.int_add (Scanner.extractLargestNumberInDir
                      (disk (ensureSaveDir io w)) (saveDirPath_ w)) 1
                   = Scanner.extractLargestNumberInDir
                       (disk (ensureSaveDir io w)) (saveDirPath_ w) + 1).
      { apply IntFacts.int_add_exact. unfold Int.in_range, Int.int_min, Int.int_max in *. lia. }
      split; [exact Hn|]. rewrite Hn.
      apply IntFacts.int_add_exact. unfold Int.in_range, Int.int_min, Int.int_max in *. lia.
    + intros entries Hentries Hok.
      destruct (save_written io w frame entries Hframe Hdir Hentries Hok)
        as (_ & _ & Hfile & Hidx & Hshown).
      repeat split; try assumption. apply hasEntry_writeEntry.
    + intros Hfail. exact (save_failed io w frame Hframe Hdir Hfail).
  - intros Hempty io1 io2 io3 Hok1 Hok2 Hok3. cbv zeta.
    destruct (save_next io1 w frame [] 1 Hframe Hdir Hempty Hok1 eq_refl)
      as (Hf1 & Hd1 & He1 & Hi1 & Hs1).
    set (w1 := saveCurrentFrame io1 w) in *.
    rewrite <- Hd1 in Hdir, He1.
    destruct (save_next io2 w1 frame _ 2 Hf1 Hdir He1 Hok2 eq_refl)
      as (Hf2 & Hd2 & He2 & Hi2 & Hs2).
    set (w2 := saveCurrentFrame io2 w1) in *.
    rewrite <- Hd2 in Hdir, He2.
    destruct (save_next io3 w2 frame _ 3 Hf2 Hdir He2 Hok3 eq_refl)
      as (Hf3 & Hd3 & He3 & Hi3 & Hs3).
    set (w3 := saveCurrentFrame io3 w2) in *.
    rewrite Hd2 in He3, He2. rewrite Hd1 in He3, He2, He1.
    repeat split.
    + exact He1.
    + exact He2.
    + exact He3.
    + exact Hi3.
    + rewrite Hs3, Hs2, Hs1. rewrite <- !app_assoc. reflexivity.
Qed.

(** C10: with no decoded frame, [saveCurrentFrame] changes nothing at all:
    no file, no counter change, no dialog; the test for the frame comes
    before the test for the save directory, so this holds with no directory
    selected as well. *)
Theorem saveCurrentFrame_without_frame io w :
  currentFrameBGR_ w = None ->
  saveCurrentFrame io w = w /\
  (saveDirPath_ w = EmptyString -> shown (saveCurrentFrame io w) = shown w).
Proof.
  intros Hnone.
  assert (Hsame : saveCurrentFrame io w = w).
  { unfold saveCurrentFrame. now rewrite Hnone. }
  split; [exact Hsame|]. intros _. now rewrite Hsame.
Qed.

(** C4, amended: with no save directory selected and a frame decoded,
    [saveCurrentFrame] shows the notice asking for a directory and changes
    nothing else: no file is created, the index and all other fields stay
    as they were. (With no frame decoded it returns before that test and
    shows nothing.) *)
Theorem saveCurrentFrame_without_directory io w frame :
  currentFrameBGR_ w = Some frame ->
  saveDirPath_ w = EmptyString ->
  saveCurrentFrame io w =
  with_shown (shown w ++ [InformationBox "Save directory required"
                                         "Please select a save directory first."]) w.
Proof.
  intros Hframe Hdir. unfold saveCurrentFrame. rewrite Hframe, Hdir. reflexivity.
Qed.

End SaveFacts.

(** ** The timer cadence *)

Module TimerFacts.

Lemma intervalMs_integer_rates_checked :
  forallb (fun k => intervalMs (Double.of_Z (Z.of_nat k)) =? 1000 / Z.of_nat k)
          (seq 1 1000) = true.
Proof. vm_compute. reflexivity. Qed.

(** For a whole number of frames per second between 1 and 1000 the interval
    is the integer quotient: the fraction of [1000 / fps] is dropped. *)
Lemma intervalMs_integer_rates n :
  1 <= n <= 1000 -> intervalMs (Double.of_Z n) = 1000 / n.
Proof.
  intros Hn. pose proof intervalMs_integer_rates_checked as Hall.
  rewrite forallb_forall in Hall.
  specialize (Hall (Z.to_nat n)).
  rewrite Z2Nat.id in Hall by lia.
  apply Z.eqb_eq, Hall. apply in_seq. lia.
Qed.

End TimerFacts.

(** ** The playback cursor, for any decoder *)

Section PlaybackFacts.
Context {Mat Cap : Type} {VC : VideoCapture Mat Cap}.
Implicit Types (w : MainWindow Mat Cap).

(** The upper end of the range [seekTo] clamps to. *)
Lemma seek_range_nonneg w : 0 <= Int.max 0 (Int.int_sub (frameCount_ w) 1).
Proof. rewrite IntFacts.max_spec. lia. Qed.

Lemma seekTo_unopened t w : cap_isOpened (cap_ w) = false -> seekTo t w = w.
Proof. intros H. unfold seekTo. now rewrite H. Qed.

(** [seekTo] only looks at its target through the clamp. *)
Lemma seekTo_clamps t w :
  seekTo t w = seekTo (Int.clamp t 0 (Int.max 0 (Int.int_sub (frameCount_ w) 1))) w.
Proof.
  unfold seekTo. destruct (negb (cap_isOpened (cap_ w))); [reflexivity|].
  now rewrite (IntFacts.clamp_idem t 0 _ (seek_range_nonneg w)).
Qed.

Lemma stepRelative_is_seekTo delta w :
  stepRelative delta w = seekTo (Int.int_add (currentFrameIndex_ w) delta) w.
Proof. reflexivity. Qed.

(** [seekTo] leaves the play state, the timer, the stream data and the save
    sequencer alone. *)
Lemma seekTo_keeps t w :
  playing_ (seekTo t w) = playing_ w /\
  timer_ (seekTo t w) = timer_ w /\
  fps_ (seekTo t w) = fps_ w /\
  frameCount_ (seekTo t w) = frameCount_ w /\
  nextImageIndex_ (seekTo t w) = nextImageIndex_ w /\
  disk (seekTo t w) = disk w /\
  shown (seekTo t w) = shown w.
Proof.
  unfold seekTo. destruct (negb (cap_isOpened (cap_ w))); [now repeat split|].
  cbn [with_cap cap_]. 
  destruct (cap_read (cap_set_pos_frames _ (cap_ w))) as [[frame|] cap'];
    [|now repeat split].
  cbn. destruct (sliderHeld_ w); now repeat split.
Qed.

(** What a seek does once the decoder is positioned: the frame read, if
    any, becomes the current frame, its index the decoder's position less
    one. *)
Lemma seekTo_opened t w :
  cap_isOpened (cap_ w) = true ->
  let target := Int.clamp t 0 (Int.max 0 (Int.int_sub (frameCount_ w) 1)) in
  match cap_read (cap_set_pos_frames target (cap_ w)) with
  | (Some frame, cap') =>
      cap_ (seekTo t w) = cap' /\
      currentFrameBGR_ (seekTo t w) = Some frame /\
      videoLabel (seekTo t w) = Some frame /\
      currentFrameIndex_ (seekTo t w) = Int.int_sub (cap_pos_frames cap') 1
  | (None, cap') => seekTo t w = with_cap cap' w
  end.
Proof.
  intros Hopen. cbv zeta. unfold seekTo. rewrite Hopen. cbn [negb with_cap cap_].
  destruct (cap_read (cap_set_pos_frames _ (cap_ w))) as [[frame|] cap']; [|reflexivity].
  cbn. destruct (sliderHeld_ w); now repeat split.
Qed.

Lemma openVideo_opened path w :
  cap_isOpened (reopened path w) = true ->
  openVideo path w = seekTo 0 (openedAt path w).
Proof.
  intros Hopen. unfold openVideo, openedAt, storedFps.
  assert (Hcap : cap_ (with_cap (cap_open path
             (cap_ (if cap_isOpened (cap_ w) then with_cap (cap_release (cap_ w)) w else w)))
             (if cap_isOpened (cap_ w) then with_cap (cap_release (cap_ w)) w else w))
          = reopened path w).
  { unfold reopened. now destruct (cap_isOpened (cap_ w)). }
  rewrite Hcap, Hopen. cbn [negb].
  unfold reopened. destruct (cap_isOpened (cap_ w)); cbn [with_cap cap_ with_fps fps_];
    destruct (Double.leb _ Double.zero); reflexivity.
Qed.

Lemma openVideo_failed path w :
  cap_isOpened (reopened path w) = false ->
  openVideo path w =
  with_shown (shown w ++ [WarningBox "Error" "Failed to open video."])
             (with_cap (reopened path w) w).
Proof.
  intros Hfail. unfold openVideo.
  assert (Hcap : cap_ (with_cap (cap_open path
             (cap_ (if cap_isOpened (cap_ w) then with_cap (cap_release (cap_ w)) w else w)))
             (if cap_isOpened (cap_ w) then with_cap (cap_release (cap_ w)) w else w))
          = reopened path w).
  { unfold reopened. now destruct (cap_isOpened (cap_ w)). }
  rewrite Hcap, Hfail. cbn [negb].
  unfold reopened. now destruct (cap_isOpened (cap_ w)).
Qed.

Lemma openedAt_fields path w :
  cap_ (openedAt path w) = reopened path w /\
  fps_ (openedAt path w) = storedFps (cap_fps (reopened path w)) /\
  frameCount_ (openedAt path w) = cap_frame_count (reopened path w) /\
  currentFrameIndex_ (openedAt path w) = 0 /\
  currentFrameBGR_ (openedAt path w) = currentFrameBGR_ w /\
  playing_ (openedAt path w) = playing_ w /\
  timer_ (openedAt path w) =
    mkTimer (timer_active (timer_ w)) (intervalMs (storedFps (cap_fps (reopened path w)))).
Proof. now repeat split. Qed.

(** C3, amended: a successful [openVideo] stores the frame count, sets the
    index to 0 and seeks to 0, so that the frame read at position 0 becomes
    the current, displayed frame (its index is the position the decoder
    reports, less one; with no frame read the index stays 0). It does not
    touch the play state: [playing_] and the timer are as before the call.
    The cursor ends Paused exactly when it was not Playing before; opened
    while Playing, it keeps playing on the new session. *)
Theorem openVideo_keeps_play_state path w :
  cap_isOpened (reopened path w) = true ->
  let w' := openVideo path w in
  playing_ w' = playing_ w /\
  timer_active (timer_ w') = timer_active (timer_ w) /\
  frameCount_ w' = cap_frame_count (reopened path w) /\
  match cap_read (cap_set_pos_frames 0 (reopened path w)) with
  | (Some frame, cap') =>
      currentFrameBGR_ w' = Some frame /\
      videoLabel w' = Some frame /\
      currentFrameIndex_ w' = Int.int_sub (cap_pos_frames cap') 1
  | (None, _) =>
      currentFrameBGR_ w' = currentFrameBGR_ w /\
      currentFrameIndex_ w' = 0
  end.
Proof.
  intros Hopen. cbv zeta. rewrite (openVideo_opened path w Hopen).
  destruct (openedAt_fields path w) as (Hcap & _ & Hcount & Hidx & Hframe & Hplay & Htimer).
  destruct (seekTo_keeps 0 (openedAt path w)) as (Hp & Ht & _ & Hc & _).
  rewrite Hp, Ht, Hc, Hplay, Htimer, Hcount. cbn [timer_active].
  repeat split.
  assert (Hopen' : cap_isOpened (cap_ (openedAt path w)) = true) by now rewrite Hcap.
  pose proof (seekTo_opened 0 (openedAt path w) Hopen') as Hseek. cbv zeta in Hseek.
  rewrite (IntFacts.clamp_inside 0 0 _) in Hseek
    by (pose proof (seek_range_nonneg (openedAt path w)); lia).
  rewrite Hcap in Hseek.
  destruct (cap_read (cap_set_pos_frames 0 (reopened path w))) as [[frame|] cap'].
  - destruct Hseek as (_ & Hf & Hl & Hi). now repeat split.
  - rewrite Hseek. now split.
Qed.

(** C9, amended: a failed [openVideo] shows the error and leaves the decoder
    closed; nothing else changes, whether or not a session existed before:
    the frame of the previous session stays the current, displayed frame,
    and its index, the frame count, the frame rate, the play state and the
    timer stay as they were. *)
Theorem openVideo_failure_keeps_frame path w :
  cap_isOpened (reopened path w) = false ->
  let w' := openVideo path w in
  w' = with_shown (shown w ++ [WarningBox "Error" "Failed to open video."])
                  (with_cap (reopened path w) w) /\
  cap_isOpened (cap_ w') = false /\
  currentFrameBGR_ w' = currentFrameBGR_ w /\
  videoLabel w' = videoLabel w /\
  currentFrameIndex_ w' = currentFrameIndex_ w /\
  frameCount_ w' = frameCount_ w /\
  playing_ w' = playing_ w /\
  timer_ w' = timer_ w.
Proof.
  intros Hfail. cbv zeta. rewrite (openVideo_failed path w Hfail).
  cbn [with_shown with_cap cap_ currentFrameBGR_ videoLabel currentFrameIndex_
       frameCount_ playing_ timer_].
  now repeat split.
Qed.

(** C6, amended: after a successful [openVideo] the frame rate kept is the
    one the decoder reports, or 30 when that is zero or negative, and the
    timer interval is [1000.0 / max(1.0, fps)] with its fraction dropped, not
    rounded: for a whole rate [n] between 1 and 1000 it is the integer
    quotient of 1000 by [n], and a rate below 1 counts as 1. [setPlaying]
    with true starts the timer at that interval, with false it stops it. *)
Theorem setPlaying_timer_interval path w :
  cap_isOpened (reopened path w) = true ->
  let w' := openVideo path w in
  let fps := storedFps (cap_fps (reopened path w)) in
  fps_ w' = fps /\
  timer_ (setPlaying true w') = mkTimer true (intervalMs fps) /\
  timer_ (setPlaying false w') = mkTimer false (intervalMs fps) /\
  (forall n, 1 <= n <= 1000 -> intervalMs (Double.of_Z n) = 1000 / n) /\
  intervalMs (Double.div (Double.of_Z 1) (Double.of_Z 2)) = 1000.
Proof.
  intros Hopen. cbv zeta. rewrite (openVideo_opened path w Hopen).
  destruct (openedAt_fields path w) as (_ & Hfps & _ & _ & _ & _ & Htimer).
  destruct (seekTo_keeps 0 (openedAt path w)) as (_ & Ht & Hf & _).
  unfold setPlaying. cbn [with_playing playing_ with_timer timer_].
  rewrite Ht, Hf, Htimer, Hfps. cbn [timer_interval].
  repeat split.
  - exact TimerFacts.intervalMs_integer_rates.
Qed.

End PlaybackFacts.

(** ** The playback cursor on an exact decoder *)

Section ExactFacts.
Import ExactDecoder.
Context {Mat : Type}.
Implicit Types (w : MainWindow Mat (Capture Mat)) (v : Video Mat).

Lemma read_at c v p frame :
  source c = Some v -> 0 <= p ->
  video_frames v !! Z.to_nat p = Some frame ->
  cap_read (cap_set_pos_frames p c) = (Some frame, mkCapture (library c) (Some v) (p + 1)).
Proof.
  intros Hsrc Hp Hframe. cbn. unfold read, set_pos_frames. rewrite Hsrc. cbn.
  destruct (Z.ltb_spec p 0); [lia|]. now rewrite Hframe.
Qed.

Lemma read_past_end c v p :
  source c = Some v ->
  video_frames v !! Z.to_nat p = None ->
  cap_read (cap_set_pos_frames p c) = (@None Mat, mkCapture (library c) (Some v) p).
Proof.
  intros Hsrc Hnone. cbn. unfold read, set_pos_frames. rewrite Hsrc. cbn.
  rewrite Hnone. now destruct (p <? 0).
Qed.

Lemma opened_source w v : source (cap_ w) = Some v -> cap_isOpened (cap_ w) = true.
Proof. intros H. cbn. unfold isOpened. now rewrite H. Qed.

(** On a stream with frames a seek lands on the clamped target. *)
Lemma seekTo_exact w v t :
  source (cap_ w) = Some v ->
  frameCount_ w = Z.of_nat (length (video_frames v)) ->
  frameCount_ w <= Int.int_max ->
  1 <= frameCount_ w ->
  let k := Int.clamp t 0 (frameCount_ w - 1) in
  currentFrameIndex_ (seekTo t w) = k /\
  currentFrameBGR_ (seekTo t w) = video_frames v !! Z.to_nat k.
Proof.
  intros Hsrc Hcount Hmax Hpos. cbv zeta.
  pose proof (seekTo_opened t w (opened_source w v Hsrc)) as Hseek. cbv zeta in Hseek.
  assert (Hhi : Int.max 0 (Int.int_sub (frameCount_ w) 1) = frameCount_ w - 1).
  { rewrite IntFacts.max_spec, IntFacts.int_sub_exact; [lia|].
    unfold Int.in_range, Int.int_min, Int.int_max in *. lia. }
  rewrite Hhi in Hseek.
  pose proof (IntFacts.clamp_bounds t 0 (frameCount_ w - 1) ltac:(lia)) as Hk.
  set (k := Int.clamp t 0 (frameCount_ w - 1)) in *.
  destruct (lookup_lt_is_Some_2 (video_frames v) (Z.to_nat k) ltac:(lia)) as [frame Hframe].
  rewrite (read_at (cap_ w) v k frame Hsrc ltac:(lia) Hframe) in Hseek.
  destruct Hseek as (_ & Hf & _ & Hi). rewrite Hi, Hf, Hframe. cbn [cap_pos_frames capture_ops position].
  split; [|reflexivity].
  rewrite IntFacts.int_sub_exact; [lia|].
  unfold Int.in_range, Int.int_min, Int.int_max in *. lia.
Qed.

(** On a stream with no frame a seek reads nothing: only the position of
    the decoder is set, to 0. *)
Lemma seekTo_empty_stream w v t :
  source (cap_ w) = Some v ->
  video_frames v = [] ->
  frameCount_ w = 0 ->
  seekTo t w = with_cap (mkCapture (library (cap_ w)) (Some v) 0) w.
Proof.
  intros Hsrc Hempty Hcount.
  pose proof (seekTo_opened t w (opened_source w v Hsrc)) as Hseek. cbv zeta in Hseek.
  rewrite Hcount in Hseek.
  change (Int.clamp t 0 (Int.max 0 (Int.int_sub 0 1))) with (Int.clamp t 0 0) in Hseek.
  rewrite (Z.le_antisymm _ _ (proj2 (IntFacts.clamp_bounds t 0 0 ltac:(lia)))
                             (proj1 (IntFacts.clamp_bounds t 0 0 ltac:(lia)))) in Hseek.
  rewrite (read_past_end (cap_ w) v 0 Hsrc) in Hseek by now rewrite Hempty.
  exact Hseek.
Qed.

(** C8: [stepRelative(delta)] is [seekTo(currentFrameIndex_ + delta)], the
    sum being that of two [int]s, and [seekTo] clamps its target to
    [0, frameCount_ - 1] (to 0 when the count is 0). On an exact decoder a
    seek lands on the clamped target, so a step of +1 from [i] below the last
    index gives [i + 1], a step of +1 at the last index leaves the index
    where it is, and a step of -1 at index 0 leaves it at 0. *)
Theorem stepRelative_seeks_clamped w v :
  source (cap_ w) = Some v ->
  frameCount_ w = Z.of_nat (length (video_frames v)) ->
  frameCount_ w <= Int.int_max ->
  let fc := frameCount_ w in
  let i := currentFrameIndex_ w in
  (forall delta,
     stepRelative delta w = seekTo (Int.int_add i delta) w /\
     (Int.in_range (i + delta) -> stepRelative delta w = seekTo (i + delta) w)) /\
  (forall t,
     seekTo t w = seekTo (Int.clamp t 0 (Z.max 0 (fc - 1))) w /\
     (1 <= fc -> 0 <= Int.clamp t 0 (Z.max 0 (fc - 1)) <= fc - 1 /\
                 currentFrameIndex_ (seekTo t w) = Int.clamp t 0 (Z.max 0 (fc - 1))) /\
     (fc = 0 -> Int.clamp t 0 (Z.max 0 (fc - 1)) = 0 /\
                currentFrameIndex_ (seekTo t w) = i)) /\
  (0 <= i < fc - 1 -> currentFrameIndex_ (stepRelative 1 w) = i + 1) /\
  (1 <= fc -> i = fc - 1 -> currentFrameIndex_ (stepRelative 1 w) = i) /\
  (i = 0 -> currentFrameIndex_ (stepRelative (-1) w) = 0).
Proof.
  intros Hsrc Hcount Hmax. cbv zeta.
  assert (Hnonneg : 0 <= frameCount_ w) by lia.
  assert (Hhi : Int.max 0 (Int.int_sub (frameCount_ w) 1) = Z.max 0 (frameCount_ w - 1)).
  { rewrite IntFacts.max_spec, IntFacts.int_sub_exact; [reflexivity|].
    unfold Int.in_range, Int.int_min, Int.int_max in *. lia. }
  assert (Hlands : forall t, 1 <= frameCount_ w ->
            currentFrameIndex_ (seekTo t w) = Int.clamp t 0 (frameCount_ w - 1)).
  { intros t Hpos. apply (seekTo_exact w v t Hsrc Hcount Hmax Hpos). }
  split; [|split; [|split; [|split]]].
  - intros delta. split; [reflexivity|].
    intros Hrange. rewrite stepRelative_is_seekTo.
    now rewrite (IntFacts.int_add_exact _ _ Hrange).
  - intros t. split; [|split].
    + rewrite <- Hhi. apply seekTo_clamps.
    + intros Hpos. rewrite Z.max_r by lia. split.
      * apply IntFacts.clamp_bounds. lia.
      * now apply Hlands.
    + intros Hzero. rewrite Hzero. split.
      * change (Z.max 0 (0 - 1)) with 0.
        pose proof (IntFacts.clamp_bounds t 0 0 ltac:(lia)). lia.
      * assert (Hempty : video_frames v = []).
        { destruct (video_frames v); [reflexivity|]. cbn in Hcount. lia. }
        now rewrite (seekTo_empty_stream w v t Hsrc Hempty Hzero).
  - intros Hi. rewrite stepRelative_is_seekTo, Hlands by lia.
    rewrite IntFacts.int_add_exact
      by (unfold Int.in_range, Int.int_min, Int.int_max in *; lia).
    apply IntFacts.clamp_inside. lia.
  - intros Hpos Hi. rewrite stepRelative_is_seekTo, Hlands by lia.
    rewrite IntFacts.int_add_exact
      by (unfold Int.in_range, Int.int_min, Int.int_max in *; lia).
    unfold Int.clamp.
    destruct (Z.ltb_spec (currentFrameIndex_ w + 1) 0); [lia|].
    destruct (Z.ltb_spec (frameCount_ w - 1) (currentFrameIndex_ w + 1)); lia.
  - intros Hi. rewrite stepRelative_is_seekTo, Hi.
    change (Int.int_add 0 (-1)) with (-1).
    destruct (Z.eq_dec (frameCount_ w) 0) as [Hzero|Hne].
    + assert (Hempty : video_frames v = []).
      { destruct (video_frames v); [reflexivity|]. cbn in Hcount. lia. }
      now rewrite (seekTo_empty_stream w v _ Hsrc Hempty Hzero).
    + rewrite Hlands by lia. unfold Int.clamp. cbn.
      destruct (Z.ltb_spec (frameCount_ w - 1) (-1)); [lia|reflexivity].
Qed.

(** C7, amended: in a session on a stream with no frame ([frameCount_] is
    0, as [openVideo] sets it) every seek and every step clamps to 0, reads
    nothing and leaves the current frame and index as they are. The play
    state is not held back, though: the play/pause button and the toggle
    only test that the decoder is opened, so they set [playing_] and start
    the timer, and so does the reload button; the first tick then reads
    nothing and stops playback again. *)
Theorem empty_stream_session w v :
  source (cap_ w) = Some v ->
  video_frames v = [] ->
  frameCount_ w = 0 ->
  (forall t, seekTo t w = with_cap (mkCapture (library (cap_ w)) (Some v) 0) w /\
             currentFrameIndex_ (seekTo t w) = currentFrameIndex_ w /\
             currentFrameBGR_ (seekTo t w) = currentFrameBGR_ w) /\
  (forall delta, stepRelative delta w = seekTo 0 w) /\
  playing_ (on_playPauseBtn_clicked w) = negb (playing_ w) /\
  playing_ (togglePlayPause w) = negb (playing_ w) /\
  timer_active (timer_ (on_playPauseBtn_clicked w)) = negb (playing_ w) /\
  playing_ (on_reloadVideoBtn_clicked w) = true /\
  playing_ (tick (on_playPauseBtn_clicked w)) = false /\
  timer_active (timer_ (tick (on_playPauseBtn_clicked w))) = false.
Proof.
  intros Hsrc Hempty Hcount.
  pose proof (opened_source w v Hsrc) as Hopen.
  assert (Hseek : forall t,
            seekTo t w = with_cap (mkCapture (library (cap_ w)) (Some v) 0) w).
  { intros t. exact (seekTo_empty_stream w v t Hsrc Hempty Hcount). }
  split; [|split].
  - intros t. rewrite Hseek. now repeat split.
  - intros delta. rewrite stepRelative_is_seekTo. now rewrite !Hseek.
  - unfold on_playPauseBtn_clicked, togglePlayPause, on_reloadVideoBtn_clicked.
    rewrite Hopen. cbn [negb].
    unfold tick, setPlaying.
    cbn [with_playing with_timer playing_ timer_ timer_active cap_].
    rewrite Hopen. cbn [negb].
    assert (Hread : cap_read (cap_ w) = (@None Mat, cap_ w)).
    { cbn. unfold read. rewrite Hsrc, Hempty.
      destruct (position (cap_ w) <? 0); [reflexivity|].
      now rewrite lookup_nil. }
    rewrite Hread. now repeat split.
Qed.

(** [openVideo] on a stream with no frame sets up such a session. *)
Lemma openVideo_empty_stream w path v :
  library (cap_ w) !! path = Some v ->
  video_frames v = [] ->
  source (cap_ (openVideo path w)) = Some v /\
  frameCount_ (openVideo path w) = 0 /\
  currentFrameIndex_ (openVideo path w) = 0 /\
  currentFrameBGR_ (openVideo path w) = currentFrameBGR_ w.
Proof.
  intros Hlib Hempty.
  assert (Hre : reopened path w = mkCapture (library (cap_ w)) (Some v) 0).
  { unfold reopened. cbn. unfold open, release, isOpened.
    destruct (source (cap_ w)); cbn; now rewrite Hlib. }
  assert (Hopen : cap_isOpened (reopened path w) = true) by now rewrite Hre.
  rewrite (openVideo_opened path w Hopen).
  destruct (openedAt_fields path w) as (Hcap & _ & Hc & Hi & Hf & _).
  assert (Hsrc : source (cap_ (openedAt path w)) = Some v) by now rewrite Hcap, Hre.
  assert (Hcount : frameCount_ (openedAt path w) = 0).
  { rewrite Hc, Hre. cbn. unfold frame_count. cbn. now rewrite Hempty. }
  rewrite (seekTo_empty_stream _ v 0 Hsrc Hempty Hcount).
  cbn [with_cap cap_ frameCount_ currentFrameIndex_ currentFrameBGR_ source].
  now repeat split.
Qed.

End ExactFacts.

(** ** The session config store *)

Section ConfigFacts.
Context {Mat Cap : Type}.
Implicit Types (w : MainWindow Mat Cap).

Lemma toInt_failure_zero s : fst (QStr.toInt s) = false -> snd (QStr.toInt s) = 0.
Proof.
  unfold QStr.toInt.
  destruct (match QStr.trimmed s with
            | String "-"%char r => (true, r)
            | String "+"%char r => (false, r)
            | _ => (false, QStr.trimmed s)
            end) as [neg ds].
  destruct (QStr.isEmpty ds || negb (QStr.all_chars QStr.isDigit ds)); [reflexivity|].
  cbv zeta.
  destruct ((Int.int_min <=? (if neg then - QStr.digitsValue ds else QStr.digitsValue ds))
            && ((if neg then - QStr.digitsValue ds else QStr.digitsValue ds) <=? Int.int_max));
    [discriminate|reflexivity].
Qed.

Lemma loadLine_keyValue w raw :
  loadLine w raw =
  match keyValue raw with
  | None => w
  | Some (key, val) =>
      if String.eqb key "last_video" then with_lastVideoPath val w
      else if String.eqb key "save_dir" then with_saveDirPath val w
      else if String.eqb key "next_image"
           then with_nextImageIndex (snd (QStr.toInt val)) w
      else w
  end.
Proof.
  unfold loadLine, keyValue.
  destruct (QStr.isEmpty (QStr.trimmed raw) || QStr.startsWith "#" (QStr.trimmed raw));
    [reflexivity|].
  cbv zeta. now destruct (QStr.indexOf "=" (QStr.trimmed raw) <=? 0).
Qed.

Lemma loadLine_samePaths w1 w2 raw :
  samePaths w1 w2 -> samePaths (loadLine w1 raw) (loadLine w2 raw).
Proof.
  intros [Hv Hd]. rewrite !loadLine_keyValue.
  destruct (keyValue raw) as [[key val]|]; [|now split].
  destruct (String.eqb key "last_video"); [now split|].
  destruct (String.eqb key "save_dir"); [now split|].
  destruct (String.eqb key "next_image"); now split.
Qed.

Lemma fold_loadLine_samePaths ls : forall w1 w2,
  samePaths w1 w2 -> samePaths (fold_left loadLine ls w1) (fold_left loadLine ls w2).
Proof.
  induction ls as [|raw ls IH]; intros w1 w2 Hsame; [exact Hsame|].
  cbn [fold_left]. apply IH, loadLine_samePaths, Hsame.
Qed.

(** A line whose key is not [next_image] leaves the index alone. *)
Lemma loadLine_other_key w raw :
  (forall val, keyValue raw <> Some ("next_image"%string, val)) ->
  nextImageIndex_ (loadLine w raw) = nextImageIndex_ w.
Proof.
  intros Hkey. rewrite loadLine_keyValue.
  destruct (keyValue raw) as [[key val]|]; [|reflexivity].
  destruct (String.eqb key "last_video"); [reflexivity|].
  destruct (String.eqb key "save_dir"); [reflexivity|].
  destruct (String.eqb_spec key "next_image") as [->|_]; [|reflexivity].
  now destruct (Hkey val).
Qed.

Lemma fold_loadLine_other_keys ls : forall w,
  (forall raw val, In raw ls -> keyValue raw <> Some ("next_image"%string, val)) ->
  nextImageIndex_ (fold_left loadLine ls w) = nextImageIndex_ w.
Proof.
  induction ls as [|raw ls IH]; intros w Hkeys; [reflexivity|].
  cbn [fold_left]. rewrite IH.
  - apply loadLine_other_key. intros val. apply Hkeys. now left.
  - intros raw' val Hin. apply Hkeys. now right.
Qed.

(** A [next_image] line whose value [toInt] rejects sets the index to 0 and
    leaves the paths alone. *)
Lemma loadLine_malformed w raw val :
  keyValue raw = Some ("next_image"%string, val) ->
  fst (QStr.toInt val) = false ->
  nextImageIndex_ (loadLine w raw) = 0 /\ samePaths (loadLine w raw) w.
Proof.
  intros Hkey Hbad. rewrite loadLine_keyValue, Hkey. cbn.
  split; [now apply toInt_failure_zero|now split].
Qed.

(** C5, amended: when the value of a [next_image] line is not a well-formed
    integer (and no later [next_image] line follows), [loadConfig] sets
    [nextImageIndex_] to 0, the value [toInt] gives on failure; it does not
    keep the value the index had before. The two paths come out as from the
    same file without that line: [last_video] and [save_dir] still apply. *)
Theorem loadConfig_malformed_next_image w content before bad after val :
  files (disk w) !! configPath_ w = Some content ->
  readLines content = before ++ bad :: after ->
  keyValue bad = Some ("next_image"%string, val) ->
  fst (QStr.toInt val) = false ->
  (forall raw v, In raw after -> keyValue raw <> Some ("next_image"%string, v)) ->
  let w' := loadConfig w in
  nextImageIndex_ w' = 0 /\
  lastVideoPath_ w' = lastVideoPath_ (fold_left loadLine (before ++ after) w) /\
  saveDirPath_ w' = saveDirPath_ (fold_left loadLine (before ++ after) w).
Proof.
  intros Hfile Hlines Hkey Hbad Hafter. cbv zeta.
  unfold loadConfig. rewrite Hfile, Hlines, !fold_left_app. cbn [fold_left].
  set (w1 := fold_left loadLine before w).
  destruct (loadLine_malformed w1 bad val Hkey Hbad) as [Hzero Hsame].
  split.
  - rewrite (fold_loadLine_other_keys after _ Hafter). exact Hzero.
  - exact (fold_loadLine_samePaths after _ _ Hsame).
Qed.

End ConfigFacts.

(** ** The theorems at work on the sample windows *)

Module Checks.
Import ExactDecoder Examples.

(** Three saves from [readyToSave], whose directory /out is empty. *)
Lemma three_saves_from_empty_directory :
  dirs (disk (saveCurrentFrame allOk (saveCurrentFrame allOk
          (saveCurrentFrame allOk readyToSave)))) !! "/out"%string =
    Some (dirOf ["image_0001.png"; "image_0002.png"; "image_0003.png"]%string) /\
  nextImageIndex_ (saveCurrentFrame allOk (saveCurrentFrame allOk
          (saveCurrentFrame allOk readyToSave))) = 4.
Proof.
  assert (Hframe : currentFrameBGR_ readyToSave = Some 2%nat)
    by (vm_compute; reflexivity).
  assert (Hdir : saveDirPath_ readyToSave <> EmptyString)
    by (vm_compute; discriminate).
  assert (Hempty : dirs (disk readyToSave) !! saveDirPath_ readyToSave = Some [])
    by (vm_compute; reflexivity).
  destruct (saveCurrentFrame_sequencing readyToSave 2%nat Hframe Hdir) as [_ Hthree].
  destruct (Hthree Hempty allOk allOk allOk eq_refl eq_refl eq_refl)
    as (_ & _ & Hfiles & Hindex & _).
  split; [exact Hfiles|exact Hindex].
Defined.

(** Before any frame is decoded a save does nothing. *)
Lemma save_at_startup_is_silent : saveCurrentFrame allOk startup = startup.
Proof.
  assert (Hnone : currentFrameBGR_ startup = None) by reflexivity.
  destruct (saveCurrentFrame_without_frame allOk startup Hnone) as [Hsame _].
  exact Hsame.
Defined.

(** C4, as stated, fails: at startup no directory is selected, and a save
    shows no notice at all (no frame is decoded yet, and that test comes
    first). *)
Lemma save_without_directory_unreported :
  saveDirPath_ startup = EmptyString /\
  shown (saveCurrentFrame allOk startup) = [].
Proof. split; [reflexivity|]. vm_compute. reflexivity. Qed.

(** With a frame decoded and no directory the notice is shown. *)
Lemma save_on_frame2_asks_for_directory :
  shown (saveCurrentFrame allOk onFrame2) =
    [InformationBox "Save directory required" "Please select a save directory first."] /\
  disk (saveCurrentFrame allOk onFrame2) = emptyDisk /\
  nextImageIndex_ (saveCurrentFrame allOk onFrame2) = 1.
Proof.
  assert (Hframe : currentFrameBGR_ onFrame2 = Some 2%nat)
    by (vm_compute; reflexivity).
  assert (Hdir : saveDirPath_ onFrame2 = EmptyString) by (vm_compute; reflexivity).
  rewrite (saveCurrentFrame_without_directory allOk onFrame2 2%nat Hframe Hdir).
  repeat split; vm_compute; reflexivity.
Defined.

(** C3, as stated, fails: the clip opened again while it plays is opened
    successfully, and playback is still on, the timer still running. *)
Lemma openVideo_while_playing_keeps_playing :
  playing_ playingClip = true /\
  cap_isOpened (cap_ (openVideo "clip.mp4" playingClip)) = true /\
  playing_ (openVideo "clip.mp4" playingClip) = true /\
  timer_active (timer_ (openVideo "clip.mp4" playingClip)) = true.
Proof. repeat split; vm_compute; reflexivity. Qed.

(** Opening the clip at startup: paused, frame 0 current and displayed. *)
Lemma openVideo_at_startup :
  playing_ (openVideo "clip.mp4" startup) = false /\
  timer_active (timer_ (openVideo "clip.mp4" startup)) = false /\
  frameCount_ (openVideo "clip.mp4" startup) = 5 /\
  currentFrameBGR_ (openVideo "clip.mp4" startup) = Some 0%nat /\
  videoLabel (openVideo "clip.mp4" startup) = Some 0%nat /\
  currentFrameIndex_ (openVideo "clip.mp4" startup) = 0.
Proof.
  assert (Hopen : cap_isOpened (reopened "clip.mp4" startup) = true)
    by (vm_compute; reflexivity).
  pose proof (openVideo_keeps_play_state "clip.mp4" startup Hopen) as H.
  cbv zeta in H. destruct H as (Hplay & Htimer & Hcount & Hframe).
  change (cap_read (cap_set_pos_frames 0 (reopened "clip.mp4" startup)))
    with (Some 0%nat, mkCapture videos (Some clip) 1) in Hframe.
  destruct Hframe as (Hf & Hl & Hi).
  repeat split; assumption.
Defined.

(** C9, as stated, fails: with the clip open on frame 2, opening a file that
    is not there closes the decoder, and frame 2 is still the current frame,
    at index 2. *)
Lemma failed_open_retains_frame :
  cap_isOpened (cap_ onFrame2) = true /\
  cap_isOpened (cap_ (openVideo "missing.mp4" onFrame2)) = false /\
  currentFrameBGR_ (openVideo "missing.mp4" onFrame2) = Some 2%nat /\
  currentFrameIndex_ (openVideo "missing.mp4" onFrame2) = 2.
Proof. repeat split; vm_compute; reflexivity. Qed.

Lemma failed_open_on_frame2 :
  openVideo "missing.mp4" onFrame2 =
    with_shown [WarningBox "Error" "Failed to open video."]
               (with_cap (mkCapture videos None 0) onFrame2) /\
  playing_ (openVideo "missing.mp4" onFrame2) = false.
Proof.
  assert (Hfail : cap_isOpened (reopened "missing.mp4" onFrame2) = false)
    by (vm_compute; reflexivity).
  destruct (openVideo_failure_keeps_frame "missing.mp4" onFrame2 Hfail)
    as (Hstate & _ & _ & _ & _ & _ & Hplay & _).
  split; [exact Hstate|].
  rewrite Hplay. vm_compute. reflexivity.
Defined.

(** C6, as stated, fails: at 60 frames per second the timer runs every 16
    milliseconds; 1000 / 60 rounded is 17. *)
Lemma interval_at_60_fps_is_16 :
  fps_ (openVideo "clip.mp4" startup) = Double.of_Z 60 /\
  timer_ (setPlaying true (openVideo "clip.mp4" startup)) = mkTimer true 16 /\
  spec_roundedPeriod 60 = 17.
Proof. repeat split; vm_compute; reflexivity. Qed.

Lemma timer_of_the_clip :
  timer_ (setPlaying true (openVideo "clip.mp4" startup)) = mkTimer true (1000 / 60) /\
  timer_ (setPlaying false (openVideo "clip.mp4" startup)) = mkTimer false (1000 / 60).
Proof.
  assert (Hopen : cap_isOpened (reopened "clip.mp4" startup) = true)
    by (vm_compute; reflexivity).
  destruct (setPlaying_timer_interval "clip.mp4" startup Hopen)
    as (_ & Hon & Hoff & Hrates & _).
  rewrite Hon, Hoff.
  change (storedFps (cap_fps (reopened "clip.mp4" startup))) with (Double.of_Z 60).
  rewrite (Hrates 60 ltac:(lia)). split; reflexivity.
Defined.

(** C7, as stated, fails: on the stream with no frame the play/pause button
    does set [playing_]. *)
Lemma empty_stream_can_play :
  cap_isOpened (cap_ (openVideo "empty.mp4" startup)) = true /\
  frameCount_ (openVideo "empty.mp4" startup) = 0 /\
  playing_ (openVideo "empty.mp4" startup) = false /\
  playing_ (on_playPauseBtn_clicked (openVideo "empty.mp4" startup)) = true.
Proof. repeat split; vm_compute; reflexivity. Qed.

Lemma empty_stream_opened :
  (forall t, currentFrameIndex_ (seekTo t (openVideo "empty.mp4" startup)) = 0) /\
  playing_ (tick (on_playPauseBtn_clicked (openVideo "empty.mp4" startup))) = false.
Proof.
  assert (Hsrc : source (cap_ (openVideo "empty.mp4" startup)) = Some emptyStream)
    by (vm_compute; reflexivity).
  assert (Hcount : frameCount_ (openVideo "empty.mp4" startup) = 0)
    by (vm_compute; reflexivity).
  destruct (empty_stream_session (openVideo "empty.mp4" startup) emptyStream
              Hsrc eq_refl Hcount) as (Hseek & _ & _ & _ & _ & _ & Htick & _).
  split; [|exact Htick].
  intros t. destruct (Hseek t) as (_ & Hindex & _). rewrite Hindex.
  vm_compute. reflexivity.
Defined.

(** Steps on the five-frame clip. *)
Lemma steps_on_the_clip :
  currentFrameIndex_ (stepRelative 1 onFrame2) = 3 /\
  currentFrameIndex_ (stepRelative 1 (seekTo 4 onFrame2)) = 4 /\
  currentFrameIndex_ (stepRelative (-1) (seekTo 0 onFrame2)) = 0.
Proof.
  assert (Hsession : forall w : MainWindow nat (Capture nat),
            source (cap_ w) = Some clip -> frameCount_ w = 5 ->
            source (cap_ w) = Some clip /\
            frameCount_ w = Z.of_nat (length (video_frames clip)) /\
            frameCount_ w <= Int.int_max).
  { intros w Hsrc Hcount. rewrite Hcount. repeat split; [exact Hsrc|discriminate]. }
  assert (Hmid : source (cap_ onFrame2) = Some clip /\ frameCount_ onFrame2 = 5 /\
                 currentFrameIndex_ onFrame2 = 2)
    by (vm_compute; repeat split).
  assert (Hlast : source (cap_ (seekTo 4 onFrame2)) = Some clip /\
                  frameCount_ (seekTo 4 onFrame2) = 5 /\
                  currentFrameIndex_ (seekTo 4 onFrame2) = 4)
    by (vm_compute; repeat split).
  assert (Hfirst : source (cap_ (seekTo 0 onFrame2)) = Some clip /\
                   frameCount_ (seekTo 0 onFrame2) = 5 /\
                   currentFrameIndex_ (seekTo 0 onFrame2) = 0)
    by (vm_compute; repeat split).
  destruct Hmid as (Hs1 & Hc1 & Hi1).
  destruct Hlast as (Hs2 & Hc2 & Hi2).
  destruct Hfirst as (Hs3 & Hc3 & Hi3).
  destruct (Hsession _ Hs1 Hc1) as (_ & Hlen1 & Hmax1).
  destruct (Hsession _ Hs2 Hc2) as (_ & Hlen2 & Hmax2).
  destruct (Hsession _ Hs3 Hc3) as (_ & Hlen3 & Hmax3).
  destruct (stepRelative_seeks_clamped onFrame2 clip Hs1 Hlen1 Hmax1)
    as (_ & _ & Hstep1 & _).
  destruct (stepRelative_seeks_clamped (seekTo 4 onFrame2) clip Hs2 Hlen2 Hmax2)
    as (_ & _ & _ & Hstep2 & _).
  destruct (stepRelative_seeks_clamped (seekTo 0 onFrame2) clip Hs3 Hlen3 Hmax3)
    as (_ & _ & _ & _ & Hstep3).
  split; [|split].
  - rewrite Hstep1, Hi1; [reflexivity|]. rewrite Hi1, Hc1. lia.
  - rewrite Hstep2, Hi2; [reflexivity| |]; rewrite ?Hi2, Hc2; lia.
  - exact (Hstep3 Hi3).
Defined.

(** C5, as stated, fails: the index is 1 before the config file is read, the
    file has [next_image=abc], and after [loadConfig] the index is 0, while
    both paths were taken from the file; with 7 before the load it is 0
    afterwards just the same. *)
Lemma malformed_next_image_resets_index :
  nextImageIndex_ withBrokenConfig = 1 /\
  nextImageIndex_ (loadConfig withBrokenConfig) = 0 /\
  lastVideoPath_ (loadConfig withBrokenConfig) = "v.mp4"%string /\
  saveDirPath_ (loadConfig withBrokenConfig) = "/out"%string /\
  nextImageIndex_ (loadConfig (with_nextImageIndex 7 withBrokenConfig)) = 0.
Proof. repeat split; vm_compute; reflexivity. Qed.

Lemma broken_config_loaded :
  nextImageIndex_ (loadConfig withBrokenConfig) = 0 /\
  lastVideoPath_ (loadConfig withBrokenConfig) = "v.mp4"%string /\
  saveDirPath_ (loadConfig withBrokenConfig) = "/out"%string.
Proof.
  assert (Hfile : files (disk withBrokenConfig) !! configPath_ withBrokenConfig
                  = Some brokenConfig) by (vm_compute; reflexivity).
  assert (Hlines : readLines brokenConfig =
            ["# Simple config for Video Dataset Preparation Tool";
             "last_video=v.mp4"; "save_dir=/out"]%string ++ "next_image=abc"%string :: [])
    by (vm_compute; reflexivity).
  assert (Hkey : keyValue "next_image=abc" = Some ("next_image", "abc")%string)
    by (vm_compute; reflexivity).
  assert (Hbad : fst (QStr.toInt "abc") = false) by (vm_compute; reflexivity).
  destruct (loadConfig_malformed_next_image withBrokenConfig brokenConfig
              _ _ [] _ Hfile Hlines Hkey Hbad
              (fun raw v (Hin : In raw []) => match Hin with end))
    as (Hindex & Hvideo & Hdir).
  rewrite Hindex, Hvideo, Hdir. repeat split; vm_compute; reflexivity.
Defined.

End Checks.

(** * Further properties of the code *)

(** ** Strings and decimal numbers *)

Module StringFacts.

Lemma append_length s t : String.length (s +:+ t) = (String.length s + String.length t)%nat.
Proof.
  induction s as [|c s IH]; [reflexivity|].
  change (S (String.length (s +:+ t)) = S (String.length s + String.length t)).
  now rewrite IH.
Qed.

Lemma substring_all s : substring 0 (String.length s) s = s.
Proof.
  induction s as [|c s IH]; [reflexivity|].
  change (String c (substring 0 (String.length s) s) = String c s). now rewrite IH.
Qed.

Lemma substring_prefix s t : substring 0 (String.length s) (s +:+ t) = s.
Proof.
  induction s as [|c s IH].
  - now destruct t.
  - change (String c (substring 0 (String.length s) (s +:+ t)) = String c s).
    now rewrite IH.
Qed.

Lemma substring_skip s t m : substring (String.length s) m (s +:+ t) = substring 0 m t.
Proof. induction s as [|c s IH]; [reflexivity|]. exact IH. Qed.

Lemma valueFrom_cons acc c s :
  valueFrom acc (String c s) = valueFrom (10 * acc + QStr.digitVal c) s.
Proof. reflexivity. Qed.

Lemma valueFrom_zeros k s : valueFrom 0 (QStr.zeros k +:+ s) = valueFrom 0 s.
Proof. induction k as [|k IH]; [reflexivity|]. exact IH. Qed.

Lemma valueFrom_of_uint_acc d : forall acc,
  valueFrom (Zpos acc) (NilEmpty.string_of_uint d) = Zpos (Pos.of_uint_acc d acc).
Proof.
  induction d as [|d IH|d IH|d IH|d IH|d IH|d IH|d IH|d IH|d IH|d IH]; intros acc;
    [reflexivity|..];
    cbn [NilEmpty.string_of_uint Pos.of_uint_acc]; rewrite valueFrom_cons, <- IH;
    f_equal;
    match goal with
    | |- context [QStr.digitVal ?c] =>
        let v := eval vm_compute in (QStr.digitVal c) in
        change (QStr.digitVal c) with v
    end; lia.
Qed.

Lemma valueFrom_of_uint d :
  valueFrom 0 (NilEmpty.string_of_uint d) = Z.of_N (Pos.of_uint d).
Proof.
  induction d as [|d IH|d IH|d IH|d IH|d IH|d IH|d IH|d IH|d IH|d IH];
    [reflexivity|exact IH|..];
    cbn [NilEmpty.string_of_uint Pos.of_uint]; rewrite valueFrom_cons;
    cbn [Z.of_N]; rewrite <- valueFrom_of_uint_acc; reflexivity.
Qed.

Lemma decimal_value m : QStr.digitsValue (decimal m) = Z.of_N m.
Proof.
  unfold decimal, NilZero.string_of_uint.
  rewrite <- (DecimalN.Unsigned.of_to m) at 2.
  change (N.of_uint (N.to_uint m)) with (Pos.of_uint (N.to_uint m)).
  destruct (N.to_uint m) eqn:Hd; try apply valueFrom_of_uint. reflexivity.
Qed.

Lemma string_of_uint_digits d :
  QStr.all_chars QStr.isDigit (NilEmpty.string_of_uint d) = true.
Proof.
  induction d as [|d IH|d IH|d IH|d IH|d IH|d IH|d IH|d IH|d IH|d IH];
    [reflexivity|..]; exact IH.
Qed.

Lemma decimal_digits m : Scanner.isDigitRun (decimal m).
Proof.
  unfold decimal, NilZero.string_of_uint. split.
  - destruct (N.to_uint m); discriminate.
  - destruct (N.to_uint m) eqn:Hd; try (rewrite <- Hd; apply string_of_uint_digits).
    reflexivity.
Qed.

Lemma zeros_digits k : QStr.all_chars QStr.isDigit (QStr.zeros k) = true.
Proof. induction k as [|k IH]; [reflexivity|exact IH]. Qed.

(** A non-negative number written with padding: digits only, and their
    value is the number, however wide. *)
Lemma argInt_nonneg n width :
  0 <= n ->
  QStr.argInt n width =
    (QStr.zeros (width - String.length (decimal (Z.to_N n))) +:+ decimal (Z.to_N n))%string /\
  Scanner.isDigitRun (QStr.argInt n width) /\
  QStr.digitsValue (QStr.argInt n width) = n.
Proof.
  intros Hn.
  assert (Hform : QStr.argInt n width =
    (QStr.zeros (width - String.length (decimal (Z.to_N n))) +:+ decimal (Z.to_N n))%string).
  { unfold QStr.argInt. destruct (Z.ltb_spec n 0); [lia|].
    rewrite Z.abs_eq by lia. reflexivity. }
  split; [exact Hform|]. rewrite Hform.
  destruct (decimal_digits (Z.to_N n)) as [Hne Hall]. split; [split|].
  - destruct (QStr.zeros _); [exact Hne|discriminate].
  - now rewrite ScannerFacts.all_chars_app, zeros_digits, Hall.
  - unfold QStr.digitsValue. fold (valueFrom 0 (QStr.zeros (width - String.length (decimal (Z.to_N n)))
                                       +:+ decimal (Z.to_N n))).
    rewrite valueFrom_zeros. fold (QStr.digitsValue (decimal (Z.to_N n))).
    rewrite decimal_value. lia.
Qed.

End StringFacts.

(** ** More on the directory scanner and the file names *)

Module NameFacts.
Import Scanner.

Lemma lastIndexOf_app c s t :
  0 <= QStr.lastIndexOf c t ->
  QStr.lastIndexOf c (s +:+ t) = Z.of_nat (String.length s) + QStr.lastIndexOf c t.
Proof.
  intros Ht. induction s as [|d s IH];
    [change (QStr.lastIndexOf c t = 0 + QStr.lastIndexOf c t); lia|].
  change (QStr.lastIndexOf c (String d s +:+ t))
    with (let i := QStr.lastIndexOf c (s +:+ t) in
          if 0 <=? i then i + 1 else if Ascii.eqb c d then 0 else -1).
  cbv zeta. rewrite IH.
  destruct (Z.leb_spec 0 (Z.of_nat (String.length s) + QStr.lastIndexOf c t)); [|lia].
  cbn [String.length]. lia.
Qed.

(** A run of digits alone is its own single match. *)
Lemma globalMatchFrom_digit_string s : forall cur,
  QStr.all_chars QStr.isDigit s = true ->
  globalMatchFrom (Some cur) s = [(cur +:+ s)%string].
Proof.
  induction s as [|c s IH]; intros cur Hall.
  - cbn [globalMatchFrom]. now rewrite ScannerFacts.append_nil_r.
  - cbn [QStr.all_chars] in Hall. apply andb_true_iff in Hall as [Hc Hs].
    cbn [globalMatchFrom]. rewrite Hc, (IH _ Hs).
    now rewrite ScannerFacts.append_assoc.
Qed.

Lemma globalMatch_digit_run run : isDigitRun run -> globalMatch run = [run].
Proof.
  intros [Hne Hall]. destruct run as [|c r]; [congruence|].
  cbn [QStr.all_chars] in Hall. apply andb_true_iff in Hall as [Hc Hr].
  unfold globalMatch. cbn [globalMatchFrom]. rewrite Hc.
  now rewrite (globalMatchFrom_digit_string r _ Hr).
Qed.

(** The name of a saved image: base name and matches. *)
Lemma imageName_parts n :
  imageName n = (("image_" +:+ QStr.argInt n 4) +:+ ".png")%string.
Proof. unfold imageName. now rewrite ScannerFacts.append_assoc. Qed.

Lemma completeBaseName_image fi n :
  fileName fi = imageName n ->
  completeBaseName fi = ("image_" +:+ QStr.argInt n 4)%string.
Proof.
  intros Hname. unfold completeBaseName. rewrite Hname, imageName_parts.
  rewrite lastIndexOf_app by (vm_compute; discriminate).
  change (QStr.lastIndexOf "." ".png") with 0. rewrite Z.add_0_r.
  destruct (Z.ltb_spec (Z.of_nat (String.length ("image_" +:+ QStr.argInt n 4))) 0); [lia|].
  unfold QStr.left. rewrite Nat2Z.id. apply StringFacts.substring_prefix.
Qed.

Lemma matchesFilters_image n : matchesFilters (imageName n) = true.
Proof.
  unfold matchesFilters. apply existsb_exists. exists ".png"%string.
  split; [cbn; tauto|].
  rewrite imageName_parts. unfold QStr.endsWithCI.
  rewrite StringFacts.append_length. cbn [String.length].
  rewrite Nat.add_sub.
  apply andb_true_iff. split; [apply Nat.leb_le; lia|].
  rewrite StringFacts.substring_skip. reflexivity.
Qed.

Lemma listed_image n : listed (plainFile (imageName n)) = true.
Proof. unfold listed. cbn [plainFile isFile isSymLink isReadable isHidden fileName negb andb].
  apply matchesFilters_image. Qed.

Lemma globalMatch_image fi n :
  0 <= n -> fileName fi = imageName n ->
  globalMatch (completeBaseName fi) = [QStr.argInt n 4].
Proof.
  intros Hn Hname. rewrite (completeBaseName_image fi n Hname).
  destruct (StringFacts.argInt_nonneg n 4 Hn) as (_ & Hrun & _).
  unfold globalMatch.
  change (globalMatchFrom None ("image_" +:+ QStr.argInt n 4))
    with (globalMatchFrom None (QStr.argInt n 4)).
  now apply globalMatch_digit_run.
Qed.

Lemma candidate_image n :
  0 <= n <= Int.int_max -> candidate (QStr.argInt n 4) = Some n.
Proof.
  intros Hn. destruct (StringFacts.argInt_nonneg n 4 ltac:(lia)) as (_ & Hrun & Hval).
  rewrite (ScannerFacts.candidate_digits _ Hrun), Hval.
  destruct (Z.leb_spec n Int.int_max); [reflexivity|lia].
Qed.

(** What a file named as a saved image adds to the maximum: its number. *)
Lemma scanFile_image m fi n :
  0 <= n <= Int.int_max -> fileName fi = imageName n ->
  scanFile m fi = Z.max m n.
Proof.
  intros Hn Hname. unfold scanFile.
  rewrite (globalMatch_image fi n ltac:(lia) Hname). cbn [fold_left].
  now rewrite ScannerFacts.scanMatch_candidate, (candidate_image n Hn).
Qed.

(** The scan of a listing and of what is added to it. *)
Lemma scan_app entries more :
  fold_left scanFile (entryInfoList (entries ++ more)) 0 =
  fold_left scanFile (entryInfoList more) (fold_left scanFile (entryInfoList entries) 0).
Proof. unfold entryInfoList. now rewrite List.filter_app, fold_left_app. Qed.

Lemma scan_runsOf entries :
  fold_left scanFile (entryInfoList entries) 0 = fold_left scanMatch (runsOf entries) 0.
Proof. apply ScannerFacts.fold_scanFile. Qed.

(** A listing whose runs all occur in another one scans to no more. *)
Lemma scan_le runs runs' :
  (forall run, In run runs -> In run runs') ->
  fold_left scanMatch runs 0 <= fold_left scanMatch runs' 0.
Proof.
  intros Hincl.
  destruct (ScannerFacts.fold_scanMatch_spec runs 0) as (_ & _ & Hatt).
  destruct (ScannerFacts.fold_scanMatch_spec runs' 0) as (Hle' & Hub' & _).
  cbv zeta in *. destruct Hatt as [->|(run & Hin & Hc)]; [exact Hle'|].
  exact (Hub' run _ (Hincl run Hin) Hc).
Qed.

Lemma runsOf_incl entries entries' :
  (forall fi, In fi entries -> In fi entries') ->
  forall run, In run (runsOf entries) -> In run (runsOf entries').
Proof.
  intros Hincl run Hrun. apply ScannerFacts.in_runsOf in Hrun as (fi & Hin & Hl & Hr).
  apply ScannerFacts.in_runsOf. exists fi. auto.
Qed.

(** No listed file bears the name of the next image. *)
Lemma next_name_unlisted entries fi :
  fold_left scanFile (entryInfoList entries) 0 < Int.int_max ->
  In fi entries -> listed fi = true ->
  fileName fi <> imageName (fold_left scanFile (entryInfoList entries) 0 + 1).
Proof.
  intros Hsmall Hin Hlisted Hname.
  set (largest := fold_left scanFile (entryInfoList entries) 0) in *.
  assert (Hnonneg : 0 <= largest).
  { unfold largest. rewrite scan_runsOf.
    apply (ScannerFacts.fold_scanMatch_spec (runsOf entries) 0). }
  assert (Hrun : In (QStr.argInt (largest + 1) 4) (runsOf entries)).
  { apply ScannerFacts.in_runsOf. exists fi. repeat split; try assumption.
    rewrite (globalMatch_image fi (largest + 1) ltac:(lia) Hname). now left. }
  destruct (ScannerFacts.fold_scanMatch_spec (runsOf entries) 0) as (_ & Hub & _).
  assert (Hrange : 0 <= largest + 1 <= Int.int_max) by lia.
  cbv zeta in Hub. specialize (Hub _ (largest + 1) Hrun (candidate_image _ Hrange)).
  rewrite <- scan_runsOf in Hub. fold largest in Hub. lia.
Qed.

Lemma hasEntry_false name entries :
  (forall fi, In fi entries -> fileName fi <> name) -> hasEntry name entries = false.
Proof.
  intros Hno. unfold hasEntry. apply not_true_is_false. intros Hex.
  apply existsb_exists in Hex as (fi & Hin & Heq).
  apply String.eqb_eq in Heq. exact (Hno fi Hin Heq).
Qed.

End NameFacts.

(** ** The save sequencer and the scanner together *)

Section SaveScanFacts.
Import Scanner NameFacts.
Context {Mat Cap : Type}.
Implicit Types (w : MainWindow Mat Cap) (io : IO).

Lemma extract_listing d dirPath entries :
  dirs d !! dirPath = Some entries ->
  extractLargestNumberInDir d dirPath = fold_left scanFile (entryInfoList entries) 0.
Proof. intros H. unfold extractLargestNumberInDir. now rewrite H. Qed.

Lemma scan_single m fi :
  listed fi = true -> fold_left scanFile (entryInfoList [fi]) m = scanFile m fi.
Proof. intros Hl. unfold entryInfoList. cbn [List.filter]. now rewrite Hl. Qed.

Lemma firstNames_succ k :
  firstNames (S k) = firstNames k ++ [imageName (Z.of_nat (S k))].
Proof. unfold firstNames. now rewrite seq_S, map_app. Qed.

Lemma firstNames_listed k fi : In fi (dirOf (firstNames k)) -> listed fi = true.
Proof.
  unfold dirOf, firstNames. rewrite map_map. intros Hin.
  apply in_map_iff in Hin as (i & <- & _). apply listed_image.
Qed.

(** The first [k] saved images scan to [k]. *)
Lemma scan_firstNames k :
  Z.of_nat k <= Int.int_max ->
  fold_left scanFile (entryInfoList (dirOf (firstNames k))) 0 = Z.of_nat k.
Proof.
  induction k as [|k IH]; intros Hk; [reflexivity|].
  rewrite firstNames_succ. unfold dirOf. rewrite map_app. fold (dirOf (firstNames k)).
  rewrite scan_app, IH by lia.
  cbn [map]. unfold entryInfoList. cbn [List.filter]. rewrite listed_image.
  cbn [fold_left].
  rewrite (scanFile_image _ _ (Z.of_nat (S k))) by (try reflexivity; lia). lia.
Qed.

Lemma write_next_name k :
  Z.of_nat k < Int.int_max ->
  writeEntry (imageName (Z.of_nat (S k))) (dirOf (firstNames k)) = dirOf (firstNames (S k)).
Proof.
  intros Hk. unfold writeEntry. rewrite hasEntry_false.
  - rewrite firstNames_succ. unfold dirOf. now rewrite map_app.
  - intros fi Hin. pose proof (firstNames_listed k fi Hin) as Hl.
    pose proof (next_name_unlisted (dirOf (firstNames k)) fi) as Hfresh.
    rewrite scan_firstNames in Hfresh by lia.
    replace (Z.of_nat (S k)) with (Z.of_nat k + 1) by lia. now apply Hfresh.
Qed.

Lemma saveAll_from io ios w : saveAll (io :: ios) w = saveAll ios (saveCurrentFrame io w).
Proof. reflexivity. Qed.

Lemma saveAll_consecutive ios : forall w frame k,
  currentFrameBGR_ w = Some frame ->
  saveDirPath_ w <> EmptyString ->
  dirs (disk w) !! saveDirPath_ w = Some (dirOf (firstNames k)) ->
  Forall (fun io => imwriteOk io = true) ios ->
  Z.of_nat (k + length ios) < Int.int_max ->
  let w' := saveAll ios w in
  dirs (disk w') !! saveDirPath_ w = Some (dirOf (firstNames (k + length ios))) /\
  (ios <> [] -> nextImageIndex_ w' = Z.of_nat (k + length ios) + 1) /\
  shown w' = shown w ++ map (fun name => StatusMessage ("Saved: " +:+ name)%string)
                            (skipn k (firstNames (k + length ios))).
Proof.
  induction ios as [|io ios IH]; intros w frame k Hframe Hdir Hentries Hok Hsmall; cbv zeta.
  - cbn [saveAll fold_left length]. rewrite Nat.add_0_r.
    split; [exact Hentries|]. split; [congruence|].
    rewrite skipn_all2; [now rewrite app_nil_r|].
    unfold firstNames. now rewrite length_map, length_seq.
  - rewrite saveAll_from. cbn [length] in *.
    apply Forall_cons_iff in Hok as [Hio Hok].
    assert (Hn : Int.int_add (fold_left scanFile (entryInfoList (dirOf (firstNames k))) 0) 1
                 = Z.of_nat (S k)).
    { rewrite scan_firstNames by lia.
      rewrite IntFacts.int_add_exact;
        unfold Int.in_range, Int.int_min, Int.int_max in *; lia. }
    destruct (save_next io w frame _ _ Hframe Hdir Hentries Hio Hn)
      as (Hf1 & Hd1 & He1 & Hi1 & Hs1).
    rewrite write_next_name in He1 by lia.
    set (w1 := saveCurrentFrame io w) in *.
    assert (Hdir1 : saveDirPath_ w1 <> EmptyString) by now rewrite Hd1.
    rewrite <- Hd1 in He1.
    specialize (IH w1 frame (S k) Hf1 Hdir1 He1 Hok ltac:(lia)). cbv zeta in IH.
    destruct IH as (He & Hi & Hs).
    replace (S k + length ios)%nat with (k + S (length ios))%nat in * by lia.
    rewrite Hd1 in He. split; [exact He|]. split.
    + intros _. destruct ios as [|io' ios'].
      * cbn [saveAll fold_left length]. rewrite Hi1.
        rewrite IntFacts.int_add_exact;
          unfold Int.in_range, Int.int_min, Int.int_max in *; lia.
      * apply Hi. discriminate.
    + rewrite Hs, Hs1, <- app_assoc. f_equal.
      assert (Hsplit : skipn k (firstNames (k + S (length ios))) =
                imageName (Z.of_nat (S k)) :: skipn (S k) (firstNames (k + S (length ios)))).
      { unfold firstNames. rewrite !skipn_map, !skipn_seq.
        replace (k + S (length ios) - k)%nat with (S (length ios)) by lia.
        replace (k + S (length ios) - S k)%nat with (length ios) by lia.
        cbn [seq map]. do 3 f_equal; lia. }
      now rewrite Hsplit.
Qed.

(** X1: The scanner does not depend on the order of the listing, and more
    entries never lower its result. *)
Theorem scan_ignores_order (d : Disk) (dirPath : string) (entries entries' : list QFileInfo) :
  (forall fi, In fi entries -> In fi entries') ->
  extractLargestNumberInDir (diskWith dirPath entries d) dirPath <=
    extractLargestNumberInDir (diskWith dirPath entries' d) dirPath /\
  ((forall fi, In fi entries' -> In fi entries) ->
   extractLargestNumberInDir (diskWith dirPath entries d) dirPath =
     extractLargestNumberInDir (diskWith dirPath entries' d) dirPath).
Proof.
  intros Hincl. rewrite !ScannerFacts.extract_diskWith, !scan_runsOf.
  pose proof (scan_le _ _ (runsOf_incl entries entries' Hincl)) as Hle.
  split; [exact Hle|]. intros Hincl'.
  pose proof (scan_le _ _ (runsOf_incl entries' entries Hincl')). lia.
Qed.

(** X2: The name of a saved image gives its index back: alone in a directory it
    scans to that index, also above 9999, and two indices never share a
    name. *)
Theorem saved_name_scans_back (d : Disk) (dirPath : string) (n : Z) :
  0 <= n <= Int.int_max ->
  extractLargestNumberInDir (diskWith dirPath (dirOf [imageName n]) d) dirPath = n /\
  (forall m, 0 <= m -> imageName m = imageName n -> m = n).
Proof.
  intros Hn. split.
  - rewrite ScannerFacts.extract_diskWith. unfold dirOf. cbn [map].
    unfold entryInfoList. cbn [List.filter]. rewrite listed_image. cbn [fold_left].
    rewrite (scanFile_image 0 (plainFile (imageName n)) n Hn eq_refl). lia.
  - intros m Hm Hname.
    pose proof (globalMatch_image (plainFile (imageName m)) m Hm eq_refl) as Hgm.
    pose proof (globalMatch_image (plainFile (imageName m)) n ltac:(lia) Hname) as Hgn.
    rewrite Hgm in Hgn. injection Hgn as Hdigits.
    destruct (StringFacts.argInt_nonneg m 4 Hm) as (_ & _ & Hvm).
    destruct (StringFacts.argInt_nonneg n 4 ltac:(lia)) as (_ & _ & Hvn).
    rewrite Hdigits in Hvm. lia.
Qed.

(** X3: A save never writes over a listed image of the directory: below the
    end of the [int] range, the name it writes is the name of none of
    them, and all of them are still there afterwards. *)
Theorem save_spares_listed_files io w frame entries :
  currentFrameBGR_ w = Some frame ->
  saveDirPath_ w <> EmptyString ->
  dirs (disk (ensureSaveDir io w)) !! saveDirPath_ w = Some entries ->
  imwriteOk io = true ->
  fold_left scanFile (entryInfoList entries) 0 < Int.int_max ->
  let name := imageName (fold_left scanFile (entryInfoList entries) 0 + 1) in
  dirs (disk (saveCurrentFrame io w)) !! saveDirPath_ w = Some (writeEntry name entries) /\
  forall fi, In fi entries -> listed fi = true ->
             fileName fi <> name /\ In fi (writeEntry name entries).
Proof.
  intros Hframe Hdir Hentries Hok Hsmall. cbv zeta.
  destruct (save_written io w frame entries Hframe Hdir Hentries Hok)
    as (_ & _ & Hfile & _).
  rewrite (extract_listing _ _ _ Hentries) in Hfile.
  assert (Hnonneg : 0 <= fold_left scanFile (entryInfoList entries) 0).
  { rewrite scan_runsOf. apply (ScannerFacts.fold_scanMatch_spec (runsOf entries) 0). }
  rewrite IntFacts.int_add_exact in Hfile
    by (unfold Int.in_range, Int.int_min, Int.int_max in *; lia).
  split; [exact Hfile|].
  intros fi Hin Hl. split; [now apply next_name_unlisted|].
  unfold writeEntry. destruct (hasEntry _ entries); [exact Hin|].
  apply in_or_app. now left.
Qed.

(** X4: After a save the index is again what a rescan of the directory gives,
    whether the write went through or not; for a write that went through
    this needs the index below the end of the [int] range and no unlisted
    entry (hidden, unreadable, a link, a directory) under the new name. *)
Theorem save_keeps_index_from_dir io w frame :
  currentFrameBGR_ w = Some frame ->
  saveDirPath_ w <> EmptyString ->
  Scanner.extractLargestNumberInDir (disk (ensureSaveDir io w)) (saveDirPath_ w)
    < Int.int_max ->
  (forall entries fi,
     dirs (disk (ensureSaveDir io w)) !! saveDirPath_ w = Some entries ->
     In fi entries -> listed fi = false ->
     fileName fi <> imageName (fold_left scanFile (entryInfoList entries) 0 + 1)) ->
  indexFromDir (saveCurrentFrame io w).
Proof.
  intros Hframe Hdir Hsmall Hunlisted. unfold indexFromDir.
  destruct (dirs (disk (ensureSaveDir io w)) !! saveDirPath_ w) as [entries|] eqn:Hentries.
  - destruct (imwriteOk io) eqn:Hok.
    + destruct (save_written io w frame entries Hframe Hdir Hentries Hok)
        as (_ & Hd & Hfile & Hidx & _).
      rewrite Hd, (isEmpty_false _ Hdir), Hidx, (extract_listing _ _ _ Hfile).
      rewrite (extract_listing _ _ _ Hentries) in *.
      assert (Hnonneg : 0 <= fold_left scanFile (entryInfoList entries) 0).
      { rewrite scan_runsOf. apply (ScannerFacts.fold_scanMatch_spec (runsOf entries) 0). }
      rewrite (IntFacts.int_add_exact (fold_left scanFile (entryInfoList entries) 0) 1)
        by (unfold Int.in_range, Int.int_min, Int.int_max in *; lia).
      f_equal. unfold writeEntry. rewrite hasEntry_false.
      * rewrite scan_app, (scan_single _ _ (listed_image _)).
        rewrite (scanFile_image _ _ (fold_left scanFile (entryInfoList entries) 0 + 1))
          by (try reflexivity; lia). lia.
      * intros fi Hin. destruct (listed fi) eqn:Hl.
        -- now apply next_name_unlisted.
        -- now apply (Hunlisted entries).
    + destruct (save_failed io w frame Hframe Hdir (or_introl Hok)) as (Hdisk & Hidx & _).
      assert (Hd : saveDirPath_ (saveCurrentFrame io w) = saveDirPath_ w).
      { unfold saveCurrentFrame. rewrite Hframe, (isEmpty_false _ Hdir).
        destruct (ensureSaveDir_fields io w) as (_ & Hd0 & _).
        unfold recalcNextImageFromDir. rewrite Hd0, (isEmpty_false _ Hdir).
        cbn [with_nextImageIndex saveDirPath_ disk nextImageIndex_].
        destruct (imwrite _ _ _ _) as [[|] d']; [|now rewrite <- Hd0].
        destruct (configOpenOk io); now rewrite <- Hd0. }
      now rewrite Hd, (isEmpty_false _ Hdir), Hidx, Hdisk.
  - destruct (save_failed io w frame Hframe Hdir (or_intror Hentries)) as (Hdisk & Hidx & _).
    assert (Hd : saveDirPath_ (saveCurrentFrame io w) = saveDirPath_ w).
    { unfold saveCurrentFrame. rewrite Hframe, (isEmpty_false _ Hdir).
      destruct (ensureSaveDir_fields io w) as (_ & Hd0 & _).
      unfold recalcNextImageFromDir. rewrite Hd0, (isEmpty_false _ Hdir).
      cbn [with_nextImageIndex saveDirPath_ disk nextImageIndex_].
      destruct (imwrite _ _ _ _) as [[|] d']; [|now rewrite <- Hd0].
      destruct (configOpenOk io); now rewrite <- Hd0. }
    now rewrite Hd, (isEmpty_false _ Hdir), Hidx, Hdisk.
Qed.

(** X5: Any number of saves that go through, starting on an empty directory,
    produce image_0001.png, image_0002.png, ... in this order, one status
    message each, and leave the index one above their number. *)
Theorem saves_number_consecutively ios w frame :
  currentFrameBGR_ w = Some frame ->
  saveDirPath_ w <> EmptyString ->
  dirs (disk w) !! saveDirPath_ w = Some [] ->
  Forall (fun io => imwriteOk io = true) ios ->
  Z.of_nat (length ios) < Int.int_max ->
  let w' := saveAll ios w in
  dirs (disk w') !! saveDirPath_ w = Some (dirOf (firstNames (length ios))) /\
  (ios <> [] -> nextImageIndex_ w' = Z.of_nat (length ios) + 1) /\
  shown w' = shown w ++ map (fun name => StatusMessage ("Saved: " +:+ name)%string)
                            (firstNames (length ios)).
Proof.
  intros Hframe Hdir Hempty Hok Hsmall.
  exact (saveAll_consecutive ios w frame 0%nat Hframe Hdir Hempty Hok Hsmall).
Qed.

End SaveScanFacts.

(** ** More on the session config store *)

Module LineFacts.

Lemma all_chars_impl (p q : ascii -> bool) s :
  (forall c, p c = true -> q c = true) ->
  QStr.all_chars p s = true -> QStr.all_chars q s = true.
Proof.
  intros Himpl. induction s as [|c s IH]; [reflexivity|].
  cbn [QStr.all_chars]. intros H. apply andb_true_iff in H as [Hc Hs].
  now rewrite (Himpl c Hc), (IH Hs).
Qed.

Lemma dropTrailingSpaces_prefix s t :
  QStr.all_chars (fun c => negb (QStr.isSpace c)) s = true ->
  QStr.dropTrailingSpaces (s +:+ t) = (s +:+ QStr.dropTrailingSpaces t)%string.
Proof.
  induction s as [|c s IH]; [reflexivity|].
  cbn [QStr.all_chars]. intros H. apply andb_true_iff in H as [Hc Hs].
  apply negb_true_iff in Hc.
  change (QStr.dropTrailingSpaces (String c s +:+ t))
    with (match QStr.dropTrailingSpaces (s +:+ t) with
          | EmptyString => if QStr.isSpace c then EmptyString else String c EmptyString
          | r' => String c r'
          end).
  rewrite (IH Hs), Hc.
  change (String c s +:+ QStr.dropTrailingSpaces t)%string
    with (String c (s +:+ QStr.dropTrailingSpaces t)).
  now destruct (s +:+ QStr.dropTrailingSpaces t)%string.
Qed.

Lemma dropSpaces_nospace s :
  QStr.all_chars (fun c => negb (QStr.isSpace c)) s = true -> QStr.dropSpaces s = s.
Proof.
  destruct s as [|c s]; [reflexivity|]. cbn [QStr.all_chars QStr.dropSpaces].
  intros H. apply andb_true_iff in H as [Hc _]. apply negb_true_iff in Hc. now rewrite Hc.
Qed.

Lemma trimmed_nospace s :
  QStr.all_chars (fun c => negb (QStr.isSpace c)) s = true -> QStr.trimmed s = s.
Proof.
  intros H. unfold QStr.trimmed. rewrite (dropSpaces_nospace s H).
  rewrite <- (ScannerFacts.append_nil_r s) at 1.
  rewrite (dropTrailingSpaces_prefix s EmptyString H). apply ScannerFacts.append_nil_r.
Qed.

Lemma indexOf_app c key v :
  QStr.all_chars (fun d => negb (Ascii.eqb c d)) key = true ->
  QStr.indexOf c (key +:+ String c v) = Z.of_nat (String.length key).
Proof.
  induction key as [|d key IH].
  - intros _.
    change (QStr.indexOf c (EmptyString +:+ String c v))
      with (if Ascii.eqb c c then 0
            else let i := QStr.indexOf c v in if i <? 0 then -1 else i + 1).
    now rewrite Ascii.eqb_refl.
  - cbn [QStr.all_chars]. intros H. apply andb_true_iff in H as [Hd Hk].
    apply negb_true_iff in Hd.
    change (QStr.indexOf c (String d key +:+ String c v))
      with (if Ascii.eqb c d then 0
            else let i := QStr.indexOf c (key +:+ String c v) in
                 if i <? 0 then -1 else i + 1).
    rewrite Hd, (IH Hk). cbv zeta.
    destruct (Z.ltb_spec (Z.of_nat (String.length key)) 0); [lia|].
    cbn [String.length]. lia.
Qed.

(** The line [key=value] is read back as that key and that value. *)
Lemma keyValue_compose key v :
  goodKey key = true ->
  QStr.dropSpaces v = v -> QStr.dropTrailingSpaces v = v ->
  keyValue (key +:+ "=" +:+ v) = Some (key, v).
Proof.
  unfold goodKey. intros Hkey Hlead Htrail.
  apply andb_true_iff in Hkey as [Hkey Hhash].
  apply andb_true_iff in Hkey as [Hne Hchars].
  assert (Hnospace : QStr.all_chars (fun c => negb (QStr.isSpace c)) key = true).
  { revert Hchars. apply all_chars_impl. intros c Hc. now apply andb_true_iff in Hc as [? _]. }
  assert (Hnoeq : QStr.all_chars (fun c => negb (Ascii.eqb "=" c)) key = true).
  { revert Hchars. apply all_chars_impl. intros c Hc. now apply andb_true_iff in Hc as [_ ?]. }
  change (key +:+ "=" +:+ v)%string with (key +:+ String "=" v)%string.
  assert (Htrim : QStr.trimmed (key +:+ String "=" v) = (key +:+ String "=" v)%string).
  { unfold QStr.trimmed.
    assert (QStr.dropSpaces (key +:+ String "=" v) = (key +:+ String "=" v)%string) as ->.
    { destruct key as [|c key]; [discriminate|].
      cbn [QStr.all_chars] in Hnospace. apply andb_true_iff in Hnospace as [Hc _].
      apply negb_true_iff in Hc.
      change (String c key +:+ String "=" v)%string with (String c (key +:+ String "=" v)).
      cbn [QStr.dropSpaces]. now rewrite Hc. }
    rewrite (dropTrailingSpaces_prefix key _ Hnospace).
    change (String "=" v) with ("=" +:+ v)%string.
    rewrite (dropTrailingSpaces_prefix "=" v eq_refl). now rewrite Htrail. }
  unfold keyValue. rewrite Htrim.
  assert (QStr.isEmpty (key +:+ String "=" v) = false) as ->
    by (destruct key; [discriminate|reflexivity]).
  assert (QStr.startsWith "#" (key +:+ String "=" v) = false) as ->.
  { destruct key as [|c key]; [discriminate|]. apply negb_true_iff in Hhash. exact Hhash. }
  cbn [orb]. cbv zeta. rewrite (indexOf_app "=" key v Hnoeq).
  assert (Hlen : (0 < String.length key)%nat) by (destruct key; [discriminate|cbn; lia]).
  destruct (Z.leb_spec (Z.of_nat (String.length key)) 0); [lia|].
  unfold QStr.left, QStr.mid. rewrite Nat2Z.id.
  rewrite StringFacts.substring_prefix, (trimmed_nospace key Hnospace).
  replace (Z.to_nat (Z.of_nat (String.length key) + 1)) with (String.length (key +:+ "="))
    by (rewrite StringFacts.append_length; cbn [String.length]; lia).
  replace (key +:+ String "=" v)%string with ((key +:+ "=") +:+ v)%string
    by now rewrite ScannerFacts.append_assoc.
  rewrite StringFacts.substring_skip, StringFacts.append_length, Nat.add_comm, Nat.add_sub.
  rewrite StringFacts.substring_all. unfold QStr.trimmed. now rewrite Hlead, Htrail.
Qed.

(** Reading lines: text with no line feed and no carriage return, up to a
    line feed, is one line. *)
Lemma readLinesFrom_prefix pre : forall cur t,
  QStr.all_chars inLine pre = true ->
  readLinesFrom cur (pre +:+ t) = readLinesFrom (cur +:+ pre) t.
Proof.
  induction pre as [|c pre IH]; intros cur t Hpre.
  - now rewrite ScannerFacts.append_nil_r.
  - cbn [QStr.all_chars] in Hpre. apply andb_true_iff in Hpre as [Hc Hp].
    unfold inLine in Hc. apply andb_true_iff in Hc as [Hlf Hcr].
    apply negb_true_iff in Hlf. apply negb_true_iff in Hcr.
    change (readLinesFrom cur (String c pre +:+ t))
      with (if Ascii.eqb c "010"%char then cur :: readLinesFrom EmptyString (pre +:+ t)
            else if Ascii.eqb c "013"%char then readLinesFrom cur (pre +:+ t)
            else readLinesFrom (cur +:+ String c EmptyString) (pre +:+ t)).
    rewrite Hlf, Hcr, (IH _ _ Hp). now rewrite ScannerFacts.append_assoc.
Qed.

Lemma printable_inLine c : printable c = true -> inLine c = true.
Proof.
  unfold inLine. intros H.
  destruct (Ascii.eqb_spec c "010"%char) as [->|_]; [vm_compute in H; discriminate H|].
  destruct (Ascii.eqb_spec c "013"%char) as [->|_]; [vm_compute in H; discriminate H|].
  reflexivity.
Qed.

Lemma printable_space c : printable c = true -> QStr.isSpace c = Ascii.eqb c " "%char.
Proof.
  unfold printable, QStr.isSpace. cbv zeta. intros H.
  apply andb_true_iff in H as [H1 H2]. apply Nat.leb_le in H1. apply Nat.leb_le in H2.
  destruct (Nat.leb_spec (nat_of_ascii c) 13); [lia|]. rewrite andb_false_r.
  destruct (Nat.eqb_spec (nat_of_ascii c) 133); [lia|].
  destruct (Nat.eqb_spec (nat_of_ascii c) 160); [lia|].
  rewrite !orb_false_r, orb_false_l.
  destruct (Ascii.eqb_spec c " "%char) as [->|Hne]; [reflexivity|].
  apply Nat.eqb_neq. intros Heq. apply Hne.
  rewrite <- (ascii_nat_embedding c), Heq. reflexivity.
Qed.

Lemma readLinesFrom_line cur pre p rest :
  QStr.all_chars inLine pre = true ->
  QStr.all_chars inLine p = true ->
  readLinesFrom cur (pre +:+ p +:+ String "010"%char EmptyString +:+ rest) =
  ((cur +:+ pre) +:+ p)%string :: readLinesFrom EmptyString rest.
Proof.
  intros Hpre Hp. rewrite (readLinesFrom_prefix pre _ _ Hpre).
  rewrite (readLinesFrom_prefix p _ _ Hp). reflexivity.
Qed.

(** The number the text stream writes is the number [toInt] reads. *)
Lemma argInt_plain n :
  QStr.all_chars (fun c => QStr.isDigit c || Ascii.eqb c "-"%char) (QStr.argInt n 0) = true.
Proof.
  unfold QStr.argInt. fold (decimal (Z.to_N (Z.abs n))).
  destruct (StringFacts.decimal_digits (Z.to_N (Z.abs n))) as [_ Hall].
  assert (Hd : QStr.all_chars (fun c => QStr.isDigit c || Ascii.eqb c "-"%char)
                 (decimal (Z.to_N (Z.abs n))) = true).
  { revert Hall. apply all_chars_impl. intros c Hc. now rewrite Hc. }
  rewrite Nat.sub_0_l. cbn [QStr.zeros].
  destruct (n <? 0); exact Hd.
Qed.

Lemma toInt_argInt n : Int.in_range n -> QStr.toInt (QStr.argInt n 0) = (true, n).
Proof.
  intros Hn. destruct (Z.ltb_spec n 0) as [Hneg|Hpos].
  - assert (Hform : QStr.argInt n 0 = String "-" (decimal (Z.to_N (Z.abs n)))).
    { unfold QStr.argInt. destruct (Z.ltb_spec n 0); [|lia]. now rewrite Nat.sub_0_l. }
    destruct (StringFacts.decimal_digits (Z.to_N (Z.abs n))) as [Hne Hall].
    pose proof (StringFacts.decimal_value (Z.to_N (Z.abs n))) as Hval.
    unfold QStr.toInt. rewrite trimmed_nospace.
    + rewrite Hform. cbv zeta beta iota.
      assert (QStr.isEmpty (decimal (Z.to_N (Z.abs n))) = false) as ->
        by (destruct (decimal _); [congruence|reflexivity]).
      rewrite Hall, Hval. cbn [orb negb].
      rewrite Z2N.id by lia.
      replace (- Z.abs n) with n by lia.
      destruct Hn as [Hlo Hhi].
      destruct (Z.leb_spec Int.int_min n); [|lia].
      destruct (Z.leb_spec n Int.int_max); [reflexivity|lia].
    + generalize (argInt_plain n). apply all_chars_impl.
      intros c Hc. apply orb_true_iff in Hc as [Hc|Hc].
      * now rewrite (ScannerFacts.digit_not_space c Hc).
      * apply Ascii.eqb_eq in Hc. now subst c.
  - destruct (StringFacts.argInt_nonneg n 0 Hpos) as (_ & Hrun & Hval).
    rewrite (ScannerFacts.toInt_digits _ Hrun), Hval.
    destruct Hn as [_ Hhi]. destruct (Z.leb_spec n Int.int_max); [reflexivity|lia].
Qed.

Lemma toInt_in_range s : Int.in_range (snd (QStr.toInt s)).
Proof.
  unfold QStr.toInt.
  destruct (match QStr.trimmed s with
            | String "-"%char r => (true, r)
            | String "+"%char r => (false, r)
            | _ => (false, QStr.trimmed s)
            end) as [neg ds].
  destruct (QStr.isEmpty ds || negb (QStr.all_chars QStr.isDigit ds));
    [cbn; unfold Int.in_range, Int.int_min, Int.int_max; lia|].
  cbv zeta.
  destruct ((Int.int_min <=? (if neg then - QStr.digitsValue ds else QStr.digitsValue ds))
            && ((if neg then - QStr.digitsValue ds else QStr.digitsValue ds) <=? Int.int_max))
    eqn:Hr; [|cbn; unfold Int.in_range, Int.int_min, Int.int_max; lia].
  apply andb_true_iff in Hr as [Hlo Hhi].
  apply Z.leb_le in Hlo. apply Z.leb_le in Hhi. cbn [snd]. now split.
Qed.

End LineFacts.

Section ConfigRoundTrip.
Import LineFacts.
Context {Mat Cap : Type}.
Implicit Types (w : MainWindow Mat Cap).

Lemma readLines_configText w :
  QStr.all_chars inLine (lastVideoPath_ w) = true ->
  QStr.all_chars inLine (saveDirPath_ w) = true ->
  readLines (configText w) =
  ["# Simple config for Video Dataset Preparation Tool"%string;
   ("last_video" +:+ "=" +:+ lastVideoPath_ w)%string;
   ("save_dir" +:+ "=" +:+ saveDirPath_ w)%string;
   ("next_image" +:+ "=" +:+ QStr.argInt (nextImageIndex_ w) 0)%string].
Proof.
  intros Hvideo Hdir.
  assert (Hnum : QStr.all_chars inLine (QStr.argInt (nextImageIndex_ w) 0) = true).
  { generalize (argInt_plain (nextImageIndex_ w)). apply all_chars_impl.
    intros c Hc. unfold inLine. apply orb_true_iff in Hc as [Hc|Hc].
    - destruct (Ascii.eqb_spec c "010"%char) as [->|]; [discriminate Hc|].
      destruct (Ascii.eqb_spec c "013"%char) as [->|]; [discriminate Hc|reflexivity].
    - apply Ascii.eqb_eq in Hc. now subst c. }
  unfold readLines, configText.
  etransitivity;
    [exact (readLinesFrom_line EmptyString
              "# Simple config for Video Dataset Preparation Tool" EmptyString _
              eq_refl eq_refl)|].
  f_equal.
  etransitivity;
    [exact (readLinesFrom_line EmptyString "last_video=" (lastVideoPath_ w) _
              eq_refl Hvideo)|].
  f_equal.
  etransitivity;
    [exact (readLinesFrom_line EmptyString "save_dir=" (saveDirPath_ w) _
              eq_refl Hdir)|].
  f_equal.
  exact (readLinesFrom_line EmptyString "next_image="
           (QStr.argInt (nextImageIndex_ w) 0) EmptyString eq_refl Hnum).
Qed.

Lemma loadLine_key w key val :
  goodKey key = true ->
  QStr.dropSpaces val = val -> QStr.dropTrailingSpaces val = val ->
  loadLine w (key +:+ "=" +:+ val) =
  if String.eqb key "last_video" then with_lastVideoPath val w
  else if String.eqb key "save_dir" then with_saveDirPath val w
  else if String.eqb key "next_image"
       then with_nextImageIndex (snd (QStr.toInt val)) w
  else w.
Proof.
  intros Hkey Hlead Htrail.
  now rewrite loadLine_keyValue, (keyValue_compose key val Hkey Hlead Htrail).
Qed.

(** A window that finds the text of [w] in its config file loads the two
    paths of [w], and as index what [toInt] makes of the number written. *)
Lemma loadConfig_configText w w0 :
  plainPath (lastVideoPath_ w) ->
  plainPath (saveDirPath_ w) ->
  files (disk w0) !! configPath_ w0 = Some (configText w) ->
  lastVideoPath_ (loadConfig w0) = lastVideoPath_ w /\
  saveDirPath_ (loadConfig w0) = saveDirPath_ w /\
  nextImageIndex_ (loadConfig w0) = snd (QStr.toInt (QStr.argInt (nextImageIndex_ w) 0)) /\
  onlyConfigChanged w0 (loadConfig w0).
Proof.
  intros (Hv1 & Hv2 & Hv3) (Hd1 & Hd2 & Hd3) Hfile.
  unfold loadConfig. rewrite Hfile.
  rewrite (readLines_configText w
             (all_chars_impl _ _ _ printable_inLine Hv1)
             (all_chars_impl _ _ _ printable_inLine Hd1)).
  cbn [fold_left].
  assert (Hnum : QStr.all_chars (fun c => negb (QStr.isSpace c))
                   (QStr.argInt (nextImageIndex_ w) 0) = true).
  { generalize (argInt_plain (nextImageIndex_ w)). apply all_chars_impl.
    intros c Hc. apply orb_true_iff in Hc as [Hc|Hc].
    - now rewrite (ScannerFacts.digit_not_space c Hc).
    - apply Ascii.eqb_eq in Hc. now subst c. }
  assert (Hheader : loadLine w0 "# Simple config for Video Dataset Preparation Tool" = w0)
    by reflexivity.
  rewrite Hheader.
  rewrite (loadLine_key _ "last_video" _ eq_refl Hv2 Hv3).
  rewrite (loadLine_key _ "save_dir" _ eq_refl Hd2 Hd3).
  rewrite (loadLine_key _ "next_image" _ eq_refl (dropSpaces_nospace _ Hnum)).
  - cbn [String.eqb Ascii.eqb Bool.eqb]. unfold onlyConfigChanged. now repeat split.
  - rewrite <- (ScannerFacts.append_nil_r (QStr.argInt (nextImageIndex_ w) 0)) at 1.
    rewrite (dropTrailingSpaces_prefix _ EmptyString Hnum).
    apply ScannerFacts.append_nil_r.
Qed.

(** X6: What [saveConfig] writes, [loadConfig] reads back: both paths and the
    index, for paths of printable ASCII characters (U+0020 to U+007E) with
    no space at their ends and an index that is an [int]. The window that
    loads may be another one (the next run), as long as it looks at the
    same file. *)
Theorem config_round_trip w w0 :
  plainPath (lastVideoPath_ w) ->
  plainPath (saveDirPath_ w) ->
  Int.in_range (nextImageIndex_ w) ->
  configPath_ w0 = configPath_ w ->
  disk w0 = disk (saveConfig true w) ->
  sameConfig (loadConfig w0) w.
Proof.
  intros Hv Hd Hidx Hpath Hdisk.
  assert (Hfile : files (disk w0) !! configPath_ w0 = Some (configText w)).
  { rewrite Hdisk, Hpath. unfold saveConfig.
    cbn [negb with_disk disk files configPath_]. apply lookup_insert_eq. }
  destruct (loadConfig_configText w w0 Hv Hd Hfile) as (H1 & H2 & H3 & _).
  unfold sameConfig. rewrite H1, H2, H3, (toInt_argInt _ Hidx). now repeat split.
Qed.

Lemma onlyConfigChanged_refl w : onlyConfigChanged w w.
Proof. unfold onlyConfigChanged. now destruct w. Qed.

Lemma loadLine_onlyConfigChanged w w' raw :
  onlyConfigChanged w w' -> onlyConfigChanged w (loadLine w' raw).
Proof.
  unfold onlyConfigChanged. intros Hw. rewrite loadLine_keyValue.
  destruct (keyValue raw) as [[key val]|]; [|exact Hw].
  destruct (String.eqb key "last_video"); [rewrite Hw at 1; reflexivity|].
  destruct (String.eqb key "save_dir"); [rewrite Hw at 1; reflexivity|].
  destruct (String.eqb key "next_image"); [rewrite Hw at 1; reflexivity|exact Hw].
Qed.

Lemma loadLine_index_in_range w raw :
  Int.in_range (nextImageIndex_ w) -> Int.in_range (nextImageIndex_ (loadLine w raw)).
Proof.
  intros Hw. rewrite loadLine_keyValue.
  destruct (keyValue raw) as [[key val]|]; [|exact Hw].
  destruct (String.eqb key "last_video"); [exact Hw|].
  destruct (String.eqb key "save_dir"); [exact Hw|].
  destruct (String.eqb key "next_image"); [apply toInt_in_range|exact Hw].
Qed.

Lemma loadConfig_onlyConfigChanged w : onlyConfigChanged w (loadConfig w).
Proof.
  unfold loadConfig. destruct (files (disk w) !! configPath_ w) as [content|];
    [|apply onlyConfigChanged_refl].
  assert (Hgen : forall lines w',
            onlyConfigChanged w w' -> onlyConfigChanged w (fold_left loadLine lines w')).
  { induction lines as [|raw lines IH]; intros w' Hw'; [exact Hw'|].
    cbn [fold_left]. apply IH, loadLine_onlyConfigChanged, Hw'. }
  apply Hgen, onlyConfigChanged_refl.
Qed.

(** X7: Whatever the config file holds, [loadConfig] changes nothing but the two
    paths and the index, and the index stays an [int]: no content of the
    file makes the load fail or reach another field or the disk. *)
Theorem loadConfig_only_config w :
  onlyConfigChanged w (loadConfig w) /\
  (Int.in_range (nextImageIndex_ w) -> Int.in_range (nextImageIndex_ (loadConfig w))).
Proof.
  split; [apply loadConfig_onlyConfigChanged|].
  unfold loadConfig. destruct (files (disk w) !! configPath_ w) as [content|]; [|auto].
  assert (Hrange : forall lines w',
            Int.in_range (nextImageIndex_ w') ->
            Int.in_range (nextImageIndex_ (fold_left loadLine lines w'))).
  { induction lines as [|raw lines IH]; intros w' Hw'; [exact Hw'|].
    cbn [fold_left]. apply IH, loadLine_index_in_range, Hw'. }
  apply Hrange.
Qed.

(** What a line does to one field, by its key. *)
Lemma loadLine_fields w raw :
  (lastVideoPath_ (loadLine w raw) =
     match keyValue raw with
     | Some (key, val) => if String.eqb key "last_video" then val else lastVideoPath_ w
     | None => lastVideoPath_ w
     end) /\
  (saveDirPath_ (loadLine w raw) =
     match keyValue raw with
     | Some (key, val) => if String.eqb key "save_dir" then val else saveDirPath_ w
     | None => saveDirPath_ w
     end) /\
  (nextImageIndex_ (loadLine w raw) =
     match keyValue raw with
     | Some (key, val) =>
         if String.eqb key "next_image" then snd (QStr.toInt val) else nextImageIndex_ w
     | None => nextImageIndex_ w
     end).
Proof.
  rewrite loadLine_keyValue. destruct (keyValue raw) as [[key val]|]; [|now repeat split].
  destruct (String.eqb_spec key "last_video") as [->|_]; [now repeat split|].
  destruct (String.eqb_spec key "save_dir") as [->|_]; [now repeat split|].
  destruct (String.eqb_spec key "next_image") as [->|_]; now repeat split.
Qed.

(** X8: For each key the last line that has it decides, wherever it stands in
    the file and whatever else the file holds; a key with no line leaves
    its field as it was. *)
Theorem loadConfig_last_line_wins w content key :
  files (disk w) !! configPath_ w = Some content ->
  (forall before raw val after,
     readLines content = before ++ raw :: after ->
     keyValue raw = Some (key, val) ->
     (forall raw' val', In raw' after -> keyValue raw' <> Some (key, val')) ->
     (key = "last_video"%string -> lastVideoPath_ (loadConfig w) = val) /\
     (key = "save_dir"%string -> saveDirPath_ (loadConfig w) = val) /\
     (key = "next_image"%string -> nextImageIndex_ (loadConfig w) = snd (QStr.toInt val))) /\
  ((forall raw val, In raw (readLines content) -> keyValue raw <> Some (key, val)) ->
     (key = "last_video"%string -> lastVideoPath_ (loadConfig w) = lastVideoPath_ w) /\
     (key = "save_dir"%string -> saveDirPath_ (loadConfig w) = saveDirPath_ w) /\
     (key = "next_image"%string -> nextImageIndex_ (loadConfig w) = nextImageIndex_ w)).
Proof.
  intros Hfile. unfold loadConfig. rewrite Hfile.
  assert (Hkeep : forall lines w',
            (forall raw val, In raw lines -> keyValue raw <> Some (key, val)) ->
            (key = "last_video"%string ->
               lastVideoPath_ (fold_left loadLine lines w') = lastVideoPath_ w') /\
            (key = "save_dir"%string ->
               saveDirPath_ (fold_left loadLine lines w') = saveDirPath_ w') /\
            (key = "next_image"%string ->
               nextImageIndex_ (fold_left loadLine lines w') = nextImageIndex_ w')).
  { induction lines as [|raw lines IH]; intros w' Hno; [now repeat split|].
    cbn [fold_left].
    destruct (IH (loadLine w' raw) (fun r v Hin => Hno r v (or_intror Hin)))
      as (Hv & Hd & Hi).
    destruct (loadLine_fields w' raw) as (Hv1 & Hd1 & Hi1).
    pose proof (Hno raw) as Hraw. specialize (Hraw) .
    destruct (keyValue raw) as [[key' val']|] eqn:Hkv.
    - assert (Hne : key' <> key).
      { intros ->. exact (Hraw val' (or_introl eq_refl) eq_refl). }
      repeat split; intros ->.
      + rewrite (Hv eq_refl), Hv1.
        destruct (String.eqb_spec key' "last_video"); [contradiction|reflexivity].
      + rewrite (Hd eq_refl), Hd1.
        destruct (String.eqb_spec key' "save_dir"); [contradiction|reflexivity].
      + rewrite (Hi eq_refl), Hi1.
        destruct (String.eqb_spec key' "next_image"); [contradiction|reflexivity].
    - repeat split; intros ->.
      + now rewrite (Hv eq_refl), Hv1.
      + now rewrite (Hd eq_refl), Hd1.
      + now rewrite (Hi eq_refl), Hi1. }
  split.
  - intros before raw val after Hlines Hkv Hafter. rewrite Hlines, fold_left_app.
    cbn [fold_left].
    destruct (Hkeep after (loadLine (fold_left loadLine before w) raw) Hafter)
      as (Hv & Hd & Hi).
    destruct (loadLine_fields (fold_left loadLine before w) raw) as (Hv1 & Hd1 & Hi1).
    rewrite Hkv in Hv1, Hd1, Hi1.
    repeat split; intros ->.
    + now rewrite (Hv eq_refl), Hv1.
    + now rewrite (Hd eq_refl), Hd1.
    + now rewrite (Hi eq_refl), Hi1.
  - intros Hno. exact (Hkeep _ w Hno).
Qed.

End ConfigRoundTrip.

(** ** What the slots leave alone *)

Section SlotFacts.
Context {Mat Cap : Type} {VC : VideoCapture Mat Cap}.
Implicit Types (w : MainWindow Mat Cap).

Lemma sameSaveSide_refl w : sameSaveSide w w.
Proof. now repeat split. Qed.

Lemma sameSaveSide_trans w1 w2 w3 :
  sameSaveSide w1 w2 -> sameSaveSide w2 w3 -> sameSaveSide w1 w3.
Proof.
  unfold sameSaveSide. intros (A1 & A2 & A3 & A4 & A5 & A6) (B1 & B2 & B3 & B4 & B5 & B6).
  repeat split; congruence.
Qed.

Lemma setPlaying_saveSide on w : sameSaveSide w (setPlaying on w).
Proof. now repeat split. Qed.

Lemma seekTo_saveSide t w : sameSaveSide w (seekTo t w).
Proof.
  unfold seekTo. destruct (negb (cap_isOpened (cap_ w))); [apply sameSaveSide_refl|].
  cbn [with_cap cap_].
  destruct (cap_read (cap_set_pos_frames _ (cap_ w))) as [[frame|] cap'];
    [|now repeat split].
  cbn. destruct (sliderHeld_ w); now repeat split.
Qed.

Lemma tick_saveSide w : sameSaveSide w (tick w).
Proof.
  unfold tick. destruct (negb (cap_isOpened (cap_ w))); [apply sameSaveSide_refl|].
  destruct (cap_read (cap_ w)) as [[frame|] cap']; [|now repeat split].
  cbn. destruct (sliderHeld_ w); now repeat split.
Qed.

Lemma saveCurrentFrame_cursor io w : sameCursor w (saveCurrentFrame io w).
Proof.
  unfold saveCurrentFrame. destruct (currentFrameBGR_ w) as [frame|]; [|now repeat split].
  destruct (QStr.isEmpty (saveDirPath_ w)); [now repeat split|].
  assert (H0 : sameCursor w (recalcNextImageFromDir (ensureSaveDir io w))).
  { unfold recalcNextImageFromDir, ensureSaveDir.
    destruct (dirs (disk w) !! saveDirPath_ w);
      cbn [with_disk saveDirPath_];
      destruct (QStr.isEmpty (saveDirPath_ w)); now repeat split. }
  set (w0 := recalcNextImageFromDir (ensureSaveDir io w)) in *.
  destruct (imwrite (imwriteOk io) (saveDirPath_ w0) (imageName (nextImageIndex_ w0)) (disk w0))
    as [[|] disk'].
  - cbn [negb]. unfold saveConfig. destruct (negb (configOpenOk io)); exact H0.
  - exact H0.
Qed.

Lemma selectDir_cursor dir ok w : sameCursor w (on_selectDirBtn_clicked dir ok w).
Proof.
  unfold on_selectDirBtn_clicked. destruct (QStr.isEmpty dir); [now repeat split|].
  unfold saveConfig, recalcNextImageFromDir. cbn [with_saveDirPath saveDirPath_].
  destruct (QStr.isEmpty dir), ok; now repeat split.
Qed.

Lemma selectVideo_cancelled path ok w :
  opens (SelectVideoBtn path ok) = false -> on_selectVideoBtn_clicked path ok w = w.
Proof.
  cbn [opens]. unfold on_selectVideoBtn_clicked.
  now destruct (QStr.isEmpty path).
Qed.

(** X9: A slot that neither saves nor selects leaves the disk, the dialogs
    shown, the index and the paths as they are; a slot that saves leaves
    the decoder, the frame, the play state, the timer and the slider as
    they are, and so does the selection of a save directory. *)
Theorem slots_keep_to_their_side (s : Slot) w :
  (saves s = false -> selects s = false -> sameSaveSide w (call s w)) /\
  (saves s = true -> sameCursor w (call s w)) /\
  (forall dir configOpenOk, sameCursor w (call (SelectDirBtn dir configOpenOk) w)).
Proof.
  split; [|split; [|intros dir ok; apply selectDir_cursor]].
  - intros Hs Hsel.
    destruct s as [t|d| | on| | | | | |v| | |io|io ev| |path ok|dir ok];
      try discriminate Hs; try discriminate Hsel; cbn [call].
    + apply seekTo_saveSide.
    + apply seekTo_saveSide.
    + apply tick_saveSide.
    + apply setPlaying_saveSide.
    + unfold togglePlayPause. destruct (negb (cap_isOpened (cap_ w)));
        [apply sameSaveSide_refl|apply setPlaying_saveSide].
    + unfold on_playPauseBtn_clicked. destruct (negb (cap_isOpened (cap_ w)));
        [apply sameSaveSide_refl|apply setPlaying_saveSide].
    + unfold on_reloadVideoBtn_clicked. destruct (negb (cap_isOpened (cap_ w)));
        [apply sameSaveSide_refl|].
      eapply sameSaveSide_trans; [apply setPlaying_saveSide|].
      eapply sameSaveSide_trans; [apply seekTo_saveSide|apply setPlaying_saveSide].
    + unfold on_preVideoBtn_clicked. destruct (negb (cap_isOpened (cap_ w)));
        [apply sameSaveSide_refl|].
      eapply sameSaveSide_trans; [apply setPlaying_saveSide|apply seekTo_saveSide].
    + unfold on_nextVideoBtn_clicked. destruct (negb (cap_isOpened (cap_ w)));
        [apply sameSaveSide_refl|].
      eapply sameSaveSide_trans; [apply setPlaying_saveSide|apply seekTo_saveSide].
    + unfold on_timeSlider_sliderMoved. destruct (negb (cap_isOpened (cap_ w)));
        [apply sameSaveSide_refl|apply seekTo_saveSide].
    + unfold on_timeSlider_sliderPressed. cbn [with_sliderHeld playing_].
      destruct (playing_ w); now repeat split.
    + unfold on_timeSlider_sliderReleased. destruct (negb (cap_isOpened (cap_ w)));
        [now repeat split|].
      eapply sameSaveSide_trans; [apply seekTo_saveSide|now repeat split].
    + destruct ev as [[|] [| |]|[| | | |]|]; try discriminate Hs; cbn [eventFilter snd];
        try apply sameSaveSide_refl.
      * unfold togglePlayPause. destruct (negb (cap_isOpened (cap_ w)));
          [apply sameSaveSide_refl|apply setPlaying_saveSide].
      * unfold togglePlayPause. destruct (negb (cap_isOpened (cap_ w)));
          [apply sameSaveSide_refl|apply setPlaying_saveSide].
      * destruct (cap_isOpened (cap_ w)); [|apply sameSaveSide_refl].
        eapply sameSaveSide_trans; [apply setPlaying_saveSide|apply seekTo_saveSide].
      * destruct (cap_isOpened (cap_ w)); [|apply sameSaveSide_refl].
        eapply sameSaveSide_trans; [apply setPlaying_saveSide|apply seekTo_saveSide].
    + unfold resizeEvent. destruct (currentFrameBGR_ w); now repeat split.
  - intros Hs.
    destruct s as [t|d| | on| | | | | |v| | |io|io ev| |path ok|dir ok];
      try discriminate Hs; cbn [call].
    + apply saveCurrentFrame_cursor.
    + destruct ev as [[|] [| |]|[| | | |]|]; try discriminate Hs; cbn [eventFilter snd];
        apply saveCurrentFrame_cursor.
Qed.

Lemma seekTo_sliderHeld t w : sliderHeld_ (seekTo t w) = sliderHeld_ w.
Proof.
  unfold seekTo. destruct (negb (cap_isOpened (cap_ w))); [reflexivity|].
  cbn [with_cap cap_].
  destruct (cap_read (cap_set_pos_frames _ (cap_ w))) as [[frame|] cap']; [|reflexivity].
  cbn. now destruct (negb (sliderHeld_ w)).
Qed.

Lemma openVideo_keeps path w :
  disk (openVideo path w) = disk w /\
  nextImageIndex_ (openVideo path w) = nextImageIndex_ w /\
  saveDirPath_ (openVideo path w) = saveDirPath_ w /\
  lastVideoPath_ (openVideo path w) = lastVideoPath_ w /\
  configPath_ (openVideo path w) = configPath_ w /\
  playing_ (openVideo path w) = playing_ w /\
  sliderHeld_ (openVideo path w) = sliderHeld_ w /\
  timer_active (timer_ (openVideo path w)) = timer_active (timer_ w).
Proof.
  destruct (cap_isOpened (reopened path w)) eqn:Hopen.
  - rewrite (openVideo_opened path w Hopen).
    destruct (seekTo_saveSide 0 (openedAt path w)) as (H1 & _ & H3 & H4 & H5 & H6).
    destruct (seekTo_keeps 0 (openedAt path w)) as (Hp & Ht & _).
    rewrite H1, H3, H4, H5, H6, Hp, Ht, seekTo_sliderHeld. now repeat split.
  - rewrite (openVideo_failed path w Hopen). now repeat split.
Qed.

Lemma selectVideo_cursor path ok w :
  path <> EmptyString ->
  sameCursor (openVideo path w) (on_selectVideoBtn_clicked path ok w).
Proof.
  intros Hpath. unfold on_selectVideoBtn_clicked. rewrite (isEmpty_false path Hpath).
  unfold saveConfig. destruct ok; now repeat split.
Qed.

End SlotFacts.

(** ** The slider's range *)

Section SliderFacts.
Context {Mat Cap : Type} {VC : VideoCapture Mat Cap}.
Implicit Types (w : MainWindow Mat Cap).

Lemma setValue_ranged w value :
  sliderRanged w ->
  sliderRanged (with_timeSlider (Slider.setValue value (timeSlider w)) w).
Proof.
  unfold sliderRanged, Slider.setValue, Slider.qBound. cbn. lia.
Qed.

Lemma sliderRanged_fields w w' :
  timeSlider w' = timeSlider w -> frameCount_ w' = frameCount_ w ->
  sliderRanged w -> sliderRanged w'.
Proof. unfold sliderRanged. now intros -> ->. Qed.

Lemma seekTo_sliderRanged t w : sliderRanged w -> sliderRanged (seekTo t w).
Proof.
  intros H. unfold seekTo. destruct (negb (cap_isOpened (cap_ w))); [exact H|].
  cbn [with_cap cap_].
  destruct (cap_read (cap_set_pos_frames _ (cap_ w))) as [[frame|] cap']; [|exact H].
  cbn. destruct (sliderHeld_ w); cbn [negb]; [exact H|].
  revert H. unfold sliderRanged, Slider.setValue, Slider.qBound. cbn. lia.
Qed.

Lemma tick_sliderRanged w : sliderRanged w -> sliderRanged (tick w).
Proof.
  intros H. unfold tick. destruct (negb (cap_isOpened (cap_ w))); [exact H|].
  destruct (cap_read (cap_ w)) as [[frame|] cap']; [|exact H].
  cbn. destruct (sliderHeld_ w); cbn [negb]; [exact H|].
  revert H. unfold sliderRanged, Slider.setValue, Slider.qBound. cbn. lia.
Qed.

Lemma sliderRanged_sameCursor w w' : sameCursor w w' -> sliderRanged w -> sliderRanged w'.
Proof.
  intros (_ & _ & Hc & _ & _ & _ & _ & _ & Hs & _). now apply sliderRanged_fields.
Qed.

Lemma call_sliderRanged s w :
  opens s = false -> sliderRanged w -> sliderRanged (call s w).
Proof.
  intros Hno H.
  destruct s as [t|d| | on| | | | | |v| | |io|io ev| |path ok|dir ok]; cbn [call].
  - now apply seekTo_sliderRanged.
  - now apply seekTo_sliderRanged.
  - now apply tick_sliderRanged.
  - exact H.
  - unfold togglePlayPause. now destruct (negb (cap_isOpened (cap_ w))).
  - unfold on_playPauseBtn_clicked. now destruct (negb (cap_isOpened (cap_ w))).
  - unfold on_reloadVideoBtn_clicked. destruct (negb (cap_isOpened (cap_ w))); [exact H|].
    apply (seekTo_sliderRanged 0 (setPlaying false w)), H.
  - unfold on_preVideoBtn_clicked. destruct (negb (cap_isOpened (cap_ w))); [exact H|].
    apply (seekTo_sliderRanged _ (setPlaying false w)), H.
  - unfold on_nextVideoBtn_clicked. destruct (negb (cap_isOpened (cap_ w))); [exact H|].
    apply (seekTo_sliderRanged _ (setPlaying false w)), H.
  - unfold on_timeSlider_sliderMoved. destruct (negb (cap_isOpened (cap_ w))); [exact H|].
    now apply seekTo_sliderRanged.
  - unfold on_timeSlider_sliderPressed. cbn [with_sliderHeld playing_].
    now destruct (playing_ w).
  - unfold on_timeSlider_sliderReleased. destruct (negb (cap_isOpened (cap_ w))); [exact H|].
    apply (seekTo_sliderRanged (slider_value (timeSlider w)) w), H.
  - apply (sliderRanged_sameCursor w); [apply saveCurrentFrame_cursor|exact H].
  - destruct ev as [[|] [| |]|[| | | |]|]; cbn [eventFilter snd]; try exact H.
    + unfold togglePlayPause. now destruct (negb (cap_isOpened (cap_ w))).
    + apply (sliderRanged_sameCursor w); [apply saveCurrentFrame_cursor|exact H].
    + unfold togglePlayPause. now destruct (negb (cap_isOpened (cap_ w))).
    + apply (sliderRanged_sameCursor w); [apply saveCurrentFrame_cursor|exact H].
    + destruct (cap_isOpened (cap_ w)); [|exact H].
      apply (seekTo_sliderRanged _ (setPlaying false w)), H.
    + destruct (cap_isOpened (cap_ w)); [|exact H].
      apply (seekTo_sliderRanged _ (setPlaying false w)), H.
  - unfold resizeEvent. now destruct (currentFrameBGR_ w).
  - now rewrite (selectVideo_cancelled path ok w Hno).
  - apply (sliderRanged_sameCursor w); [apply selectDir_cursor|exact H].
Qed.

Lemma seekTo_held t w :
  sliderHeld_ w = true ->
  timeSlider (seekTo t w) = timeSlider w /\ sliderHeld_ (seekTo t w) = true.
Proof.
  intros H. unfold seekTo. destruct (negb (cap_isOpened (cap_ w))); [now split|].
  cbn [with_cap cap_].
  destruct (cap_read (cap_set_pos_frames _ (cap_ w))) as [[frame|] cap']; [|now split].
  cbn. rewrite H. now split.
Qed.

Lemma tick_held w :
  sliderHeld_ w = true ->
  timeSlider (tick w) = timeSlider w /\ sliderHeld_ (tick w) = true.
Proof.
  intros H. unfold tick. destruct (negb (cap_isOpened (cap_ w))); [now split|].
  destruct (cap_read (cap_ w)) as [[frame|] cap']; [|now split].
  cbn. rewrite H. now split.
Qed.

Lemma call_held s w :
  opens s = false ->
  sliderHeld_ w = true ->
  timeSlider (call s w) = timeSlider w /\
  (s <> SliderReleased -> sliderHeld_ (call s w) = true).
Proof.
  intros Hno H.
  assert (Hsave : forall io, timeSlider (saveCurrentFrame io w) = timeSlider w /\
                             sliderHeld_ (saveCurrentFrame io w) = true).
  { intros io. destruct (saveCurrentFrame_cursor io w)
      as (_ & _ & _ & _ & _ & _ & Hh & _ & Hs & _). rewrite Hh, Hs. now split. }
  destruct s as [t|d| | on| | | | | |v| | |io|io ev| |path ok|dir ok]; cbn [call].
  - destruct (seekTo_held t w H). now split.
  - destruct (seekTo_held (Int.int_add (currentFrameIndex_ w) d) w H). now split.
  - destruct (tick_held w H). now split.
  - now split.
  - unfold togglePlayPause. now destruct (negb (cap_isOpened (cap_ w))).
  - unfold on_playPauseBtn_clicked. now destruct (negb (cap_isOpened (cap_ w))).
  - unfold on_reloadVideoBtn_clicked. destruct (negb (cap_isOpened (cap_ w))); [now split|].
    destruct (seekTo_held 0 (setPlaying false w) H). now split.
  - unfold on_preVideoBtn_clicked. destruct (negb (cap_isOpened (cap_ w))); [now split|].
    destruct (seekTo_held (Int.int_add (currentFrameIndex_ w) (-1)) (setPlaying false w) H).
    now split.
  - unfold on_nextVideoBtn_clicked. destruct (negb (cap_isOpened (cap_ w))); [now split|].
    destruct (seekTo_held (Int.int_add (currentFrameIndex_ w) 1) (setPlaying false w) H).
    now split.
  - unfold on_timeSlider_sliderMoved. destruct (negb (cap_isOpened (cap_ w))); [now split|].
    destruct (seekTo_held v w H). now split.
  - unfold on_timeSlider_sliderPressed. cbn [with_sliderHeld playing_].
    now destruct (playing_ w).
  - split; [|congruence].
    unfold on_timeSlider_sliderReleased. destruct (negb (cap_isOpened (cap_ w)));
      [reflexivity|].
    apply (seekTo_held _ w H).
  - destruct (Hsave io). now split.
  - destruct ev as [[|] [| |]|[| | | |]|]; cbn [eventFilter snd]; try (now split).
    + unfold togglePlayPause. now destruct (negb (cap_isOpened (cap_ w))).
    + destruct (Hsave io). now split.
    + unfold togglePlayPause. now destruct (negb (cap_isOpened (cap_ w))).
    + destruct (Hsave io). now split.
    + destruct (cap_isOpened (cap_ w)); [|now split].
      destruct (seekTo_held (Int.int_add (currentFrameIndex_ w) (-1)) (setPlaying false w) H).
      now split.
    + destruct (cap_isOpened (cap_ w)); [|now split].
      destruct (seekTo_held (Int.int_add (currentFrameIndex_ w) 1) (setPlaying false w) H).
      now split.
  - unfold resizeEvent. now destruct (currentFrameBGR_ w).
  - rewrite (selectVideo_cancelled path ok w Hno). now split.
  - destruct (selectDir_cursor dir ok w) as (_ & _ & _ & _ & _ & _ & Hh & _ & Hs & _).
    rewrite Hh, Hs. now split.
Qed.

(** X10: While the user holds the slider, nothing but the opening of a video
    moves it: until the release, no run of slots without a video selection
    changes the slider or drops the hold, and the release itself leaves the
    slider where the user put it. A video selected in between keeps the
    hold, and its [openVideo] sets the range of the slider for the new
    stream all the same, which can move the value; when the video does not
    open the slider is left. *)
Theorem held_slider_is_not_moved (slots : list Slot) w :
  sliderHeld_ w = true ->
  ~ In SliderReleased slots ->
  forallb (fun s => negb (opens s)) slots = true ->
  (timeSlider (run slots w) = timeSlider w /\
   sliderHeld_ (run slots w) = true /\
   timeSlider (call SliderReleased (run slots w)) = timeSlider w) /\
  (forall path configOpenOk,
     path <> EmptyString ->
     sliderHeld_ (call (SelectVideoBtn path configOpenOk) w) = true /\
     (cap_isOpened (reopened path w) = true ->
      timeSlider (call (SelectVideoBtn path configOpenOk) w) =
        timeSlider (ensureSliderRange
                      (with_frameCount (cap_frame_count (reopened path w)) w))) /\
     (cap_isOpened (reopened path w) = false ->
      timeSlider (call (SelectVideoBtn path configOpenOk) w) = timeSlider w)).
Proof.
  intros Hheld Hno Hopens. split.
  - revert w Hheld Hno Hopens.
    induction slots as [|s slots IH]; intros w Hheld Hno Hopens.
    + cbn [run fold_left]. repeat split; [exact Hheld|].
      apply (call_held SliderReleased w eq_refl Hheld).
    + change (run (s :: slots) w) with (run slots (call s w)).
      cbn [forallb] in Hopens. apply andb_true_iff in Hopens as [Hs Hrest].
      apply negb_true_iff in Hs.
      destruct (call_held s w Hs Hheld) as (Hsl & Hh).
      destruct (IH (call s w)) as (H1 & H2 & H3).
      * apply Hh. intros ->. apply Hno. now left.
      * intros Hin. apply Hno. now right.
      * exact Hrest.
      * rewrite H1, H3. now repeat split.
  - intros path ok Hpath. cbn [call].
    destruct (selectVideo_cursor path ok w Hpath)
      as (_ & _ & _ & _ & _ & _ & Hh & _ & Hs & _).
    rewrite Hh, Hs.
    destruct (openVideo_keeps path w) as (_ & _ & _ & _ & _ & _ & Hk & _).
    split; [now rewrite Hk|]. split.
    + intros Hopen. rewrite (openVideo_opened path w Hopen).
      apply (seekTo_held 0 (openedAt path w)). exact Hheld.
    + intros Hfail. now rewrite (openVideo_failed path w Hfail).
Qed.

(** X11: The keys and mouse buttons the event filter handles do what the buttons
    and slots do: space and a left click on the video are the play/pause
    button, the arrow keys the previous and next buttons, [S] and a right
    click on the video a save; each of them is consumed, and any other event
    is passed on with the window unchanged. *)
Theorem shortcuts_match_buttons io w :
  eventFilter io (KeyPress Key_Space) w = (true, on_playPauseBtn_clicked w) /\
  eventFilter io (MouseButtonPress true LeftButton) w = (true, on_playPauseBtn_clicked w) /\
  eventFilter io (KeyPress Key_Left) w = (true, on_preVideoBtn_clicked w) /\
  eventFilter io (KeyPress Key_Right) w = (true, on_nextVideoBtn_clicked w) /\
  eventFilter io (KeyPress Key_S) w = (true, saveCurrentFrame io w) /\
  eventFilter io (MouseButtonPress true RightButton) w = (true, saveCurrentFrame io w) /\
  (forall event, fst (eventFilter io event w) = false -> snd (eventFilter io event w) = w).
Proof.
  repeat split.
  - cbn [eventFilter]. unfold on_preVideoBtn_clicked. now destruct (cap_isOpened (cap_ w)).
  - cbn [eventFilter]. unfold on_nextVideoBtn_clicked. now destruct (cap_isOpened (cap_ w)).
  - intros [[|] [| |]|[| | | |]|]; cbn [eventFilter fst snd]; congruence.
Qed.

End SliderFacts.

(** ** The cursor on an exact decoder *)

Section CursorFacts.
Import ExactDecoder.
Context {Mat : Type}.
Implicit Types (w : MainWindow Mat (Capture Mat)) (v : Video Mat).

Lemma last_index w :
  0 <= frameCount_ w <= Int.int_max ->
  Int.max 0 (Int.int_sub (frameCount_ w) 1) = Z.max 0 (frameCount_ w - 1).
Proof.
  intros H. rewrite IntFacts.max_spec, IntFacts.int_sub_exact; [reflexivity|].
  unfold Int.in_range, Int.int_min, Int.int_max in *. lia.
Qed.

Lemma seekTo_onFrame w v t :
  source (cap_ w) = Some v ->
  frameCount_ w = Z.of_nat (length (video_frames v)) ->
  frameCount_ w <= Int.int_max ->
  1 <= frameCount_ w ->
  let k := Int.clamp t 0 (frameCount_ w - 1) in
  onFrame v (seekTo t w) /\
  currentFrameIndex_ (seekTo t w) = k /\
  timeSlider (seekTo t w) =
    (if sliderHeld_ w then timeSlider w else Slider.setValue k (timeSlider w)).
Proof.
  intros Hsrc Hcount Hmax Hpos. cbv zeta.
  pose proof (IntFacts.clamp_bounds t 0 (frameCount_ w - 1) ltac:(lia)) as Hk.
  unfold seekTo. rewrite (opened_source w v Hsrc). cbn [negb with_cap cap_].
  rewrite (last_index w) by lia. rewrite Z.max_r by lia.
  set (k := Int.clamp t 0 (frameCount_ w - 1)) in *.
  destruct (lookup_lt_is_Some_2 (video_frames v) (Z.to_nat k) ltac:(lia)) as [frame Hframe].
  rewrite (read_at (cap_ w) v k frame Hsrc ltac:(lia) Hframe).
  assert (Hidx : Int.int_sub (k + 1) 1 = k).
  { rewrite IntFacts.int_sub_exact; [lia|].
    unfold Int.in_range, Int.int_min, Int.int_max in *. lia. }
  clearbody k. unfold onFrame. cbn -[Int.int_sub Z.to_nat Z.add lookup].
  destruct (sliderHeld_ w); cbn -[Int.int_sub Z.to_nat Z.add lookup];
    rewrite Hidx, Hframe; repeat split; try lia; assumption.
Qed.

Lemma read_here (c : Capture Mat) v :
  source c = Some v -> 0 <= position c ->
  cap_read c =
  match video_frames v !! Z.to_nat (position c) with
  | Some frame => (Some frame, mkCapture (library c) (Some v) (position c + 1))
  | None => (None, c)
  end.
Proof.
  intros Hsrc Hp. cbn. unfold read. rewrite Hsrc.
  destruct (Z.ltb_spec (position c) 0); [lia|].
  destruct (video_frames v !! Z.to_nat (position c)); reflexivity.
Qed.

Lemma tick_onFrame w v :
  onFrame v w ->
  onFrame v (tick w) /\
  (currentFrameIndex_ w < frameCount_ w - 1 ->
     currentFrameIndex_ (tick w) = currentFrameIndex_ w + 1 /\
     playing_ (tick w) = playing_ w /\ timer_ (tick w) = timer_ w /\
     timeSlider (tick w) =
       (if sliderHeld_ w then timeSlider w
        else Slider.setValue (currentFrameIndex_ w + 1) (timeSlider w))) /\
  (currentFrameIndex_ w = frameCount_ w - 1 ->
     currentFrameIndex_ (tick w) = currentFrameIndex_ w /\
     playing_ (tick w) = false /\ timer_active (timer_ (tick w)) = false /\
     timeSlider (tick w) = timeSlider w).
Proof.
  intros (Hsrc & Hcount & Hmax & Hidx & Hpos & Hframe & Hlabel).
  unfold tick. rewrite (opened_source w v Hsrc). cbn [negb].
  rewrite (read_here (cap_ w) v Hsrc) by lia. rewrite Hpos.
  destruct (video_frames v !! Z.to_nat (currentFrameIndex_ w + 1)) as [frame|] eqn:Hnext.
  - assert (Hlt : currentFrameIndex_ w + 1 < frameCount_ w).
    { apply lookup_lt_Some in Hnext. lia. }
    assert (Hsub : Int.int_sub (currentFrameIndex_ w + 1 + 1) 1 = currentFrameIndex_ w + 1).
    { rewrite IntFacts.int_sub_exact; [lia|].
      unfold Int.in_range, Int.int_min, Int.int_max in *. lia. }
    unfold onFrame. cbn -[Int.int_sub Z.to_nat Z.add lookup].
    destruct (sliderHeld_ w); cbn -[Int.int_sub Z.to_nat Z.add lookup]; rewrite Hsub, Hnext;
      (split; [repeat split; try lia; assumption|]);
      (split; [intros _; now repeat split|lia]).
  - assert (Hge : frameCount_ w <= currentFrameIndex_ w + 1).
    { apply lookup_ge_None in Hnext. lia. }
    split; [|split].
    + unfold onFrame. cbn. now repeat split.
    + lia.
    + intros _. now repeat split.
Qed.

Lemma onFrame_sameCursor w w' v : sameCursor w w' -> onFrame v w -> onFrame v w'.
Proof.
  intros (Hc & _ & Hn & Hi & Hf & _ & _ & _ & _ & Hl). unfold onFrame.
  now rewrite Hc, Hn, Hi, Hf, Hl.
Qed.

Lemma stepRelative_onFrame w v d : onFrame v w -> onFrame v (stepRelative d w).
Proof.
  intros (Hsrc & Hcount & Hmax & Hidx & _).
  apply (seekTo_onFrame w v _ Hsrc Hcount Hmax). lia.
Qed.

Lemma call_onFrame s w v : opens s = false -> onFrame v w -> onFrame v (call s w).
Proof.
  intros Hno H. pose proof H as (Hsrc & Hcount & Hmax & Hidx & Hpos & Hframe & Hlabel).
  assert (Hseek : forall t b, onFrame v (seekTo t (setPlaying b w))).
  { intros t b. apply (seekTo_onFrame (setPlaying b w) v t Hsrc Hcount Hmax). cbn. lia. }
  destruct s as [t|d| | on| | | | | |val| | |io|io ev| |path ok|dir ok]; cbn [call].
  - apply (seekTo_onFrame w v t Hsrc Hcount Hmax). lia.
  - now apply stepRelative_onFrame.
  - now apply tick_onFrame.
  - exact H.
  - unfold togglePlayPause. now destruct (negb (cap_isOpened (cap_ w))).
  - unfold on_playPauseBtn_clicked. now destruct (negb (cap_isOpened (cap_ w))).
  - unfold on_reloadVideoBtn_clicked. destruct (negb (cap_isOpened (cap_ w))); [exact H|].
    exact (Hseek 0 false).
  - unfold on_preVideoBtn_clicked. destruct (negb (cap_isOpened (cap_ w))); [exact H|].
    apply Hseek.
  - unfold on_nextVideoBtn_clicked. destruct (negb (cap_isOpened (cap_ w))); [exact H|].
    apply Hseek.
  - unfold on_timeSlider_sliderMoved. destruct (negb (cap_isOpened (cap_ w))); [exact H|].
    apply (seekTo_onFrame w v val Hsrc Hcount Hmax). lia.
  - unfold on_timeSlider_sliderPressed. cbn [with_sliderHeld playing_].
    now destruct (playing_ w).
  - unfold on_timeSlider_sliderReleased. destruct (negb (cap_isOpened (cap_ w))); [exact H|].
    apply (seekTo_onFrame w v (slider_value (timeSlider w)) Hsrc Hcount Hmax). lia.
  - apply (onFrame_sameCursor w); [apply saveCurrentFrame_cursor|exact H].
  - destruct ev as [[|] [| |]|[| | | |]|]; cbn [eventFilter snd]; try exact H.
    + unfold togglePlayPause. now destruct (negb (cap_isOpened (cap_ w))).
    + apply (onFrame_sameCursor w); [apply saveCurrentFrame_cursor|exact H].
    + unfold togglePlayPause. now destruct (negb (cap_isOpened (cap_ w))).
    + apply (onFrame_sameCursor w); [apply saveCurrentFrame_cursor|exact H].
    + destruct (cap_isOpened (cap_ w)); [|exact H]. apply Hseek.
    + destruct (cap_isOpened (cap_ w)); [|exact H]. apply Hseek.
  - unfold resizeEvent. rewrite <- Hlabel.
    destruct (videoLabel w) eqn:Hv; [|exact H].
    unfold onFrame. cbn. rewrite <- Hlabel. rewrite <- Hlabel in Hframe.
    repeat split; try assumption; lia.
  - now rewrite (selectVideo_cancelled path ok w Hno).
  - apply (onFrame_sameCursor w); [apply selectDir_cursor|exact H].
Qed.

Lemma openVideo_lands w path v :
  library (cap_ w) !! path = Some v ->
  video_frames v <> [] ->
  Z.of_nat (length (video_frames v)) <= Int.int_max ->
  onFrame v (openVideo path w).
Proof.
  intros Hlib Hne Hmax.
  assert (Hlen : 1 <= Z.of_nat (length (video_frames v))).
  { destruct (video_frames v); [contradiction|cbn [length]; lia]. }
  assert (Hre : reopened path w = mkCapture (library (cap_ w)) (Some v) 0).
  { unfold reopened. cbn. unfold open, release, isOpened.
    destruct (source (cap_ w)); cbn; now rewrite Hlib. }
  assert (Hopen : cap_isOpened (reopened path w) = true) by now rewrite Hre.
  rewrite (openVideo_opened path w Hopen).
  destruct (openedAt_fields path w) as (Hcap & _ & Hc & _).
  assert (Hsrc : source (cap_ (openedAt path w)) = Some v) by now rewrite Hcap, Hre.
  assert (Hcount : frameCount_ (openedAt path w) = Z.of_nat (length (video_frames v))).
  { rewrite Hc, Hre. reflexivity. }
  apply (seekTo_onFrame (openedAt path w) v 0 Hsrc Hcount); rewrite Hcount; assumption.
Qed.

Lemma openVideo_missing w path :
  library (cap_ w) !! path = None ->
  source (cap_ (openVideo path w)) = None /\
  currentFrameBGR_ (openVideo path w) = currentFrameBGR_ w.
Proof.
  intros Hlib.
  assert (Hre : reopened path w = mkCapture (library (cap_ w)) None 0).
  { unfold reopened. cbn. unfold open, release, isOpened.
    destruct (source (cap_ w)); cbn; now rewrite Hlib. }
  assert (Hfail : cap_isOpened (reopened path w) = false) by now rewrite Hre.
  rewrite (openVideo_failed path w Hfail).
  cbn [with_shown with_cap cap_ currentFrameBGR_]. now rewrite Hre.
Qed.

(** X12: Opening a stream that has a frame puts the cursor on its first frame:
    the index is 0, the current and displayed frame is frame 0 of the
    stream, the decoder stands behind it, and the slider has the range of
    the stream. *)
Theorem openVideo_shows_first_frame w path v :
  library (cap_ w) !! path = Some v ->
  video_frames v <> [] ->
  Z.of_nat (length (video_frames v)) <= Int.int_max ->
  onFrame v (openVideo path w) /\
  currentFrameIndex_ (openVideo path w) = 0 /\
  currentFrameBGR_ (openVideo path w) = head (video_frames v) /\
  sliderRanged (openVideo path w) /\
  (sliderHeld_ w = false -> slider_value (timeSlider (openVideo path w)) = 0).
Proof.
  intros Hlib Hne Hmax.
  assert (Hlen : 1 <= Z.of_nat (length (video_frames v))).
  { destruct (video_frames v); [contradiction|cbn [length]; lia]. }
  assert (Hre : reopened path w = mkCapture (library (cap_ w)) (Some v) 0).
  { unfold reopened. cbn. unfold open, release, isOpened.
    destruct (source (cap_ w)); cbn; now rewrite Hlib. }
  assert (Hopen : cap_isOpened (reopened path w) = true) by now rewrite Hre.
  rewrite (openVideo_opened path w Hopen).
  destruct (openedAt_fields path w) as (Hcap & _ & Hc & _).
  assert (Hsrc : source (cap_ (openedAt path w)) = Some v) by now rewrite Hcap, Hre.
  assert (Hcount : frameCount_ (openedAt path w) = Z.of_nat (length (video_frames v))).
  { rewrite Hc, Hre. reflexivity. }
  assert (Hranged : sliderRanged (openedAt path w)).
  { unfold sliderRanged. rewrite Hcount.
    unfold openedAt, updateTimerFromFPS, ensureSliderRange.
    cbn [with_timer with_timeSlider timeSlider frameCount_ with_currentFrameIndex
         with_frameCount].
    change (cap_frame_count (reopened path w)) with (frameCount_ (openedAt path w)).
    rewrite last_index, Hcount by (rewrite Hcount; lia).
    unfold Slider.setMaximum, Slider.setMinimum, Slider.setRange, Slider.qBound.
    cbn [slider_minimum slider_maximum slider_value]. lia. }
  destruct (seekTo_onFrame (openedAt path w) v 0 Hsrc Hcount
              ltac:(rewrite Hcount; exact Hmax) ltac:(rewrite Hcount; exact Hlen))
    as (Hon & Hidx & Hslider).
  assert (Hzero : Int.clamp 0 0 (frameCount_ (openedAt path w) - 1) = 0).
  { apply IntFacts.clamp_inside. rewrite Hcount. lia. }
  rewrite Hzero in Hidx, Hslider.
  split; [exact Hon|]. split; [exact Hidx|]. split; [|split].
  - destruct Hon as (_ & _ & _ & _ & _ & Hf & _). rewrite Hf, Hidx.
    now destruct (video_frames v).
  - now apply seekTo_sliderRanged.
  - intros Hheld. rewrite Hslider.
    change (sliderHeld_ (openedAt path w)) with (sliderHeld_ w). rewrite Hheld.
    destruct Hranged as (Hmin & Hmx & Hval).
    unfold Slider.setValue, Slider.qBound. cbn [slider_value]. lia.
Qed.

(** X13: Once the cursor is on a frame of the stream it stays on one, whatever
    slots, events and timer ticks follow in whatever order, as long as no
    other video is selected: the index stays inside the stream, the current
    and displayed frame is the frame of the stream at the index, and the
    decoder stands right behind it; the range of the slider stays that of
    the stream. The selection of a save directory and a cancelled video
    dialog are among the slots that keep it. A video that is selected and
    opens, with a frame in it, puts the cursor on a frame of the new stream;
    one that does not open ends it: the decoder is closed and the frame that
    was current stays, on no stream. *)
Theorem cursor_stays_on_frame (slots : list Slot) w v :
  onFrame v w ->
  forallb (fun s => negb (opens s)) slots = true ->
  (onFrame v (run slots w) /\
   (sliderRanged w -> sliderRanged (run slots w))) /\
  (forall path configOpenOk v',
     path <> EmptyString ->
     library (cap_ w) !! path = Some v' ->
     video_frames v' <> [] ->
     Z.of_nat (length (video_frames v')) <= Int.int_max ->
     onFrame v' (call (SelectVideoBtn path configOpenOk) w)) /\
  (forall path configOpenOk,
     path <> EmptyString ->
     library (cap_ w) !! path = None ->
     cap_isOpened (cap_ (call (SelectVideoBtn path configOpenOk) w)) = false /\
     currentFrameBGR_ (call (SelectVideoBtn path configOpenOk) w) = currentFrameBGR_ w /\
     forall v', ~ onFrame v' (call (SelectVideoBtn path configOpenOk) w)).
Proof.
  intros H Hopens. split; [|split].
  - revert w H Hopens. induction slots as [|s slots IH]; intros w H Hopens; [now split|].
    change (run (s :: slots) w) with (run slots (call s w)).
    cbn [forallb] in Hopens. apply andb_true_iff in Hopens as [Hs Hrest].
    apply negb_true_iff in Hs.
    destruct (IH (call s w) (call_onFrame s w v Hs H) Hrest) as (H1 & H2).
    split; [exact H1|]. intros Hr. apply H2, call_sliderRanged; assumption.
  - intros path ok v' Hpath Hlib Hne Hmax. cbn [call].
    apply (onFrame_sameCursor (openVideo path w));
      [now apply selectVideo_cursor|now apply openVideo_lands].
  - intros path ok Hpath Hlib. cbn [call].
    destruct (selectVideo_cursor path ok w Hpath) as (Hc & _ & _ & _ & Hf & _).
    destruct (openVideo_missing w path Hlib) as (Hsrc & Hframe).
    rewrite Hc, Hf. split; [|split; [exact Hframe|]].
    + cbn. unfold isOpened. now rewrite Hsrc.
    + intros v' (Hs' & _). cbn [call] in Hs'. rewrite Hc, Hsrc in Hs'. discriminate Hs'.
Qed.

(** X14: Playback from frame [i] of a stream of [fc] frames: [n] ticks that stay
    inside the stream show frame [i + n] and leave the play state and the
    timer alone; from the tick that runs past the last frame on, playback is
    stopped with the timer, and the cursor stays on the last frame. *)
Theorem playback_runs_to_the_end w v (n : nat) :
  onFrame v w ->
  let i := currentFrameIndex_ w in
  let fc := frameCount_ w in
  (i + Z.of_nat n <= fc - 1 ->
     currentFrameIndex_ (ticks n w) = i + Z.of_nat n /\
     currentFrameBGR_ (ticks n w) = video_frames v !! Z.to_nat (i + Z.of_nat n) /\
     playing_ (ticks n w) = playing_ w /\
     timer_ (ticks n w) = timer_ w) /\
  (fc - 1 < i + Z.of_nat n ->
     currentFrameIndex_ (ticks n w) = fc - 1 /\
     currentFrameBGR_ (ticks n w) = video_frames v !! Z.to_nat (fc - 1) /\
     playing_ (ticks n w) = false /\
     timer_active (timer_ (ticks n w)) = false).
Proof.
  intros H. cbv zeta.
  assert (Hgen : onFrame v (ticks n w) /\
            frameCount_ (ticks n w) = frameCount_ w /\
            (currentFrameIndex_ w + Z.of_nat n <= frameCount_ w - 1 ->
               currentFrameIndex_ (ticks n w) = currentFrameIndex_ w + Z.of_nat n /\
               playing_ (ticks n w) = playing_ w /\
               timer_ (ticks n w) = timer_ w) /\
            (frameCount_ w - 1 < currentFrameIndex_ w + Z.of_nat n ->
               currentFrameIndex_ (ticks n w) = frameCount_ w - 1 /\
               playing_ (ticks n w) = false /\
               timer_active (timer_ (ticks n w)) = false)).
  { induction n as [|n IH].
    - change (ticks 0 w) with w. destruct H as (? & ? & ? & ? & ? & ? & ?).
      repeat split; try assumption; lia.
    - destruct IH as (Hon & Hfc & Hin & Hout).
      change (ticks (S n) w) with (tick (ticks n w)).
      destruct (tick_onFrame (ticks n w) v Hon) as (Hon' & Hstep & Hstop).
      assert (Hfc' : frameCount_ (tick (ticks n w)) = frameCount_ w).
      { destruct Hon' as (_ & Hc' & _). destruct Hon as (_ & Hc & _). congruence. }
      rewrite Hfc in Hstep, Hstop.
      split; [exact Hon'|]. split; [exact Hfc'|]. split.
      + intros Hle. destruct Hin as (Hi & Hp & Ht); [lia|].
        destruct Hstep as (Hi' & Hp' & Ht' & _); [lia|].
        rewrite Hi', Hp', Ht', Hi, Hp, Ht. repeat split. lia.
      + intros Hgt.
        destruct (Z_le_gt_dec (currentFrameIndex_ w + Z.of_nat n) (frameCount_ w - 1))
          as [Hle|Hgt'].
        * destruct Hin as (Hi & _); [lia|].
          destruct Hstop as (Hi' & Hp' & Ht' & _); [lia|].
          rewrite Hi', Hp', Ht', Hi. repeat split. lia.
        * destruct Hout as (Hi & _); [lia|].
          destruct Hstop as (Hi' & Hp' & Ht' & _); [lia|].
          rewrite Hi', Hp', Ht', Hi. now repeat split. }
  destruct Hgen as ((_ & _ & _ & _ & _ & Hf & _) & _ & Hin & Hout).
  split.
  - intros Hle. destruct (Hin Hle) as (Hi & Hp & Ht). rewrite Hf, Hi. now repeat split.
  - intros Hgt. destruct (Hout Hgt) as (Hi & Hp & Ht). rewrite Hf, Hi. now repeat split.
Qed.

(** X15: With the cursor on a frame and the slider in range, the slider and the
    cursor agree: while the slider is not held, a seek and a tick that shows
    a frame put the slider on the new index; releasing the slider seeks to
    the slider's value, which becomes the index with its frame shown, ends
    the hold and leaves the slider where it is. *)
Theorem slider_follows_cursor w v :
  onFrame v w ->
  sliderRanged w ->
  (sliderHeld_ w = false ->
     (forall t, slider_value (timeSlider (seekTo t w)) = currentFrameIndex_ (seekTo t w)) /\
     (currentFrameIndex_ w < frameCount_ w - 1 ->
        slider_value (timeSlider (tick w)) = currentFrameIndex_ (tick w))) /\
  (let w' := on_timeSlider_sliderReleased w in
   currentFrameIndex_ w' = slider_value (timeSlider w) /\
   currentFrameBGR_ w' = video_frames v !! Z.to_nat (slider_value (timeSlider w)) /\
   slider_value (timeSlider w') = slider_value (timeSlider w) /\
   sliderHeld_ w' = false).
Proof.
  intros H (Hmin & Hmx & Hval).
  pose proof H as (Hsrc & Hcount & Hmax & Hidx & Hpos & Hframe & Hlabel).
  rewrite Z.max_r in Hmx by lia.
  assert (Hset : forall k, 0 <= k <= frameCount_ w - 1 ->
            slider_value (Slider.setValue k (timeSlider w)) = k).
  { intros k Hk. unfold Slider.setValue, Slider.qBound. cbn [slider_value]. lia. }
  split.
  - intros Hheld. split.
    + intros t.
      destruct (seekTo_onFrame w v t Hsrc Hcount Hmax ltac:(lia)) as (_ & Hi & Hs).
      rewrite Hs, Hi, Hheld. apply Hset, IntFacts.clamp_bounds. lia.
    + intros Hlt. destruct (tick_onFrame w v H) as (_ & Hstep & _).
      destruct (Hstep Hlt) as (Hi & _ & _ & Hs). rewrite Hs, Hi, Hheld. apply Hset. lia.
  - cbv zeta. unfold on_timeSlider_sliderReleased.
    rewrite (opened_source w v Hsrc). cbn [negb].
    destruct (seekTo_onFrame w v (slider_value (timeSlider w)) Hsrc Hcount Hmax ltac:(lia))
      as (Hon & Hi & Hs).
    rewrite (IntFacts.clamp_inside (slider_value (timeSlider w)) 0 (frameCount_ w - 1))
      in Hi, Hs by lia.
    destruct Hon as (_ & _ & _ & _ & _ & Hf & _).
    cbn [with_sliderHeld currentFrameIndex_ currentFrameBGR_ timeSlider sliderHeld_].
    rewrite Hf, Hi, Hs. repeat split.
    destruct (sliderHeld_ w); [reflexivity|]. apply Hset. lia.
Qed.

End CursorFacts.

(** ** The transport controls *)

Section ControlFacts.
Context {Mat Cap : Type} {VC : VideoCapture Mat Cap}.
Implicit Types (w : MainWindow Mat Cap).

Lemma call_needsVideo s w :
  cap_isOpened (cap_ w) = false -> needsVideo s = true -> call s w = w.
Proof.
  intros Hclosed Hs.
  destruct s as [t|d| | on| | | | | |v| | |io|io ev| |path ok|dir ok];
    try discriminate Hs; cbn [call].
  - unfold seekTo. now rewrite Hclosed.
  - unfold stepRelative, seekTo. now rewrite Hclosed.
  - unfold tick. now rewrite Hclosed.
  - unfold togglePlayPause. now rewrite Hclosed.
  - unfold on_playPauseBtn_clicked. now rewrite Hclosed.
  - unfold on_reloadVideoBtn_clicked. now rewrite Hclosed.
  - unfold on_preVideoBtn_clicked. now rewrite Hclosed.
  - unfold on_nextVideoBtn_clicked. now rewrite Hclosed.
  - unfold on_timeSlider_sliderMoved. now rewrite Hclosed.
  - destruct ev as [[|] [| |]|[| | | |]|]; try discriminate Hs; cbn [eventFilter snd].
    + unfold togglePlayPause. now rewrite Hclosed.
    + unfold togglePlayPause. now rewrite Hclosed.
    + now rewrite Hclosed.
    + now rewrite Hclosed.
Qed.

(** X16: With no video open the transport controls do nothing: seeking,
    stepping, the timer's tick, play/pause, reload, previous and next, moving
    the slider, the space and arrow keys and a left click on the video leave
    the window exactly as it is, in any number and order; playback cannot be
    started from them. *)
Theorem controls_need_a_video (slots : list Slot) w :
  cap_isOpened (cap_ w) = false ->
  forallb needsVideo slots = true ->
  run slots w = w.
Proof.
  intros Hclosed. induction slots as [|s slots IH]; intros Hall; [reflexivity|].
  cbn [forallb] in Hall. apply andb_true_iff in Hall as [Hs Hrest].
  change (run (s :: slots) w) with (run slots (call s w)).
  rewrite (call_needsVideo s w Hclosed Hs). now apply IH.
Qed.

End ControlFacts.

Section ButtonFacts.
Import ExactDecoder.
Context {Mat : Type}.
Implicit Types (w : MainWindow Mat (Capture Mat)) (v : Video Mat).

(** X17: With the cursor on frame [i] of a stream of [fc] frames: reload shows
    frame 0 and starts playback with the timer; previous and next pause and
    show frame [i - 1] and [i + 1], stopping at the first and at the last
    frame; play/pause flips the play state and the timer and leaves the
    frame; pressing the slider pauses and takes the hold. *)
Theorem transport_buttons w v :
  onFrame v w ->
  let i := currentFrameIndex_ w in
  let fc := frameCount_ w in
  (currentFrameIndex_ (on_reloadVideoBtn_clicked w) = 0 /\
   currentFrameBGR_ (on_reloadVideoBtn_clicked w) = head (video_frames v) /\
   playing_ (on_reloadVideoBtn_clicked w) = true /\
   timer_active (timer_ (on_reloadVideoBtn_clicked w)) = true) /\
  (currentFrameIndex_ (on_preVideoBtn_clicked w) = Z.max 0 (i - 1) /\
   currentFrameBGR_ (on_preVideoBtn_clicked w) = video_frames v !! Z.to_nat (Z.max 0 (i - 1)) /\
   playing_ (on_preVideoBtn_clicked w) = false /\
   timer_active (timer_ (on_preVideoBtn_clicked w)) = false) /\
  (currentFrameIndex_ (on_nextVideoBtn_clicked w) = Z.min (fc - 1) (i + 1) /\
   currentFrameBGR_ (on_nextVideoBtn_clicked w) =
     video_frames v !! Z.to_nat (Z.min (fc - 1) (i + 1)) /\
   playing_ (on_nextVideoBtn_clicked w) = false /\
   timer_active (timer_ (on_nextVideoBtn_clicked w)) = false) /\
  (currentFrameIndex_ (on_playPauseBtn_clicked w) = i /\
   currentFrameBGR_ (on_playPauseBtn_clicked w) = currentFrameBGR_ w /\
   playing_ (on_playPauseBtn_clicked w) = negb (playing_ w) /\
   timer_active (timer_ (on_playPauseBtn_clicked w)) = negb (playing_ w)) /\
  (currentFrameIndex_ (on_timeSlider_sliderPressed w) = i /\
   sliderHeld_ (on_timeSlider_sliderPressed w) = true /\
   playing_ (on_timeSlider_sliderPressed w) = false).
Proof.
  intros H. pose proof H as (Hsrc & Hcount & Hmax & Hidx & Hpos & Hframe & Hlabel).
  cbv zeta.
  assert (Hopen : cap_isOpened (cap_ w) = true) by exact (opened_source w v Hsrc).
  assert (Hseek : forall t,
            currentFrameIndex_ (seekTo t (setPlaying false w)) =
              Int.clamp t 0 (frameCount_ w - 1) /\
            currentFrameBGR_ (seekTo t (setPlaying false w)) =
              video_frames v !! Z.to_nat (Int.clamp t 0 (frameCount_ w - 1)) /\
            playing_ (seekTo t (setPlaying false w)) = false /\
            timer_active (timer_ (seekTo t (setPlaying false w))) = false).
  { intros t.
    destruct (seekTo_onFrame (setPlaying false w) v t Hsrc Hcount Hmax ltac:(cbn; lia))
      as (Hon & Hi & _).
    destruct (seekTo_keeps t (setPlaying false w)) as (Hp & Ht & _).
    destruct Hon as (_ & _ & _ & _ & _ & Hf & _).
    rewrite Hf, Hi, Hp, Ht. now repeat split. }
  assert (Hrange : forall d, -1 <= d <= 1 ->
            Int.int_add (currentFrameIndex_ w) d = currentFrameIndex_ w + d).
  { intros d Hd. apply IntFacts.int_add_exact.
    unfold Int.in_range, Int.int_min, Int.int_max in *. lia. }
  split; [|split; [|split; [|split]]].
  - unfold on_reloadVideoBtn_clicked. rewrite Hopen. cbn [negb].
    destruct (Hseek 0) as (Hi & Hf & _).
    rewrite (IntFacts.clamp_inside 0 0 (frameCount_ w - 1)) in Hi, Hf by lia.
    cbn [setPlaying with_playing with_timer currentFrameIndex_ currentFrameBGR_ playing_
         timer_ timer_active].
    rewrite Hi, Hf. repeat split. now destruct (video_frames v).
  - unfold on_preVideoBtn_clicked, stepRelative. rewrite Hopen. cbn [negb].
    change (currentFrameIndex_ (setPlaying false w)) with (currentFrameIndex_ w).
    rewrite (Hrange (-1)) by lia.
    destruct (Hseek (currentFrameIndex_ w + -1)) as (Hi & Hf & Hp & Ht).
    assert (Hc : Int.clamp (currentFrameIndex_ w + -1) 0 (frameCount_ w - 1)
                 = Z.max 0 (currentFrameIndex_ w - 1)).
    { destruct (Z.eq_dec (currentFrameIndex_ w) 0) as [H0|H0].
      - rewrite H0. pose proof (IntFacts.clamp_bounds (0 + -1) 0 (frameCount_ w - 1)
                                  ltac:(lia)) as Hb.
        unfold Int.clamp in *.
        destruct (Z.ltb_spec (0 + -1) 0); [reflexivity|lia].
      - rewrite IntFacts.clamp_inside by lia. lia. }
    rewrite Hc in Hi, Hf. now rewrite Hi, Hf, Hp, Ht.
  - unfold on_nextVideoBtn_clicked, stepRelative. rewrite Hopen. cbn [negb].
    change (currentFrameIndex_ (setPlaying false w)) with (currentFrameIndex_ w).
    rewrite (Hrange 1) by lia.
    destruct (Hseek (currentFrameIndex_ w + 1)) as (Hi & Hf & Hp & Ht).
    assert (Hc : Int.clamp (currentFrameIndex_ w + 1) 0 (frameCount_ w - 1)
                 = Z.min (frameCount_ w - 1) (currentFrameIndex_ w + 1)).
    { destruct (Z.eq_dec (currentFrameIndex_ w) (frameCount_ w - 1)) as [H0|H0].
      - unfold Int.clamp.
        destruct (Z.ltb_spec (currentFrameIndex_ w + 1) 0); [lia|].
        destruct (Z.ltb_spec (frameCount_ w - 1) (currentFrameIndex_ w + 1)); lia.
      - rewrite IntFacts.clamp_inside by lia. lia. }
    rewrite Hc in Hi, Hf. now rewrite Hi, Hf, Hp, Ht.
  - unfold on_playPauseBtn_clicked. rewrite Hopen. cbn [negb]. now repeat split.
  - unfold on_timeSlider_sliderPressed. cbn [with_sliderHeld playing_].
    destruct (playing_ w) eqn:Hp; cbn; now repeat split.
Qed.

End ButtonFacts.

(** ** Start of the window and the two selections *)

Section StartFacts.
Context {Mat Cap : Type} {VC : VideoCapture Mat Cap}.
Implicit Types (w : MainWindow Mat Cap).

Lemma extract_same_dirs (d d' : Disk) dirPath :
  dirs d' = dirs d ->
  Scanner.extractLargestNumberInDir d' dirPath = Scanner.extractLargestNumberInDir d dirPath.
Proof. unfold Scanner.extractLargestNumberInDir. now intros ->. Qed.

Lemma extract_mkpath ok appData (d : Disk) dirPath :
  dirs d !! appData = None ->
  Scanner.extractLargestNumberInDir (mkpath ok appData d) dirPath =
  Scanner.extractLargestNumberInDir d dirPath.
Proof.
  intros Hnone. unfold Scanner.extractLargestNumberInDir, mkpath.
  destruct ok; [|reflexivity]. cbn [dirs].
  destruct (decide (appData = dirPath)) as [<-|Hne].
  - now rewrite lookup_insert_eq, Hnone.
  - now rewrite lookup_insert_ne.
Qed.

Lemma recalc_indexFromDir w : indexFromDir (recalcNextImageFromDir w).
Proof.
  unfold indexFromDir, recalcNextImageFromDir.
  destruct (QStr.isEmpty (saveDirPath_ w)) eqn:He; cbn; now rewrite He.
Qed.

Lemma indexFromDir_fields w w' :
  nextImageIndex_ w' = nextImageIndex_ w ->
  saveDirPath_ w' = saveDirPath_ w ->
  dirs (disk w') = dirs (disk w) ->
  indexFromDir w -> indexFromDir w'.
Proof.
  unfold indexFromDir. intros -> -> Hd ->.
  now rewrite (extract_same_dirs (disk w) (disk w') _ Hd).
Qed.

Lemma onlyConfigChanged_others w w' :
  onlyConfigChanged w w' ->
  disk w' = disk w /\ configPath_ w' = configPath_ w /\ cap_ w' = cap_ w /\
  playing_ w' = playing_ w /\ timer_ w' = timer_ w /\ shown w' = shown w /\
  currentFrameBGR_ w' = currentFrameBGR_ w.
Proof. unfold onlyConfigChanged. intros ->. now repeat split. Qed.

Lemma saveConfig_fields ok w :
  dirs (disk (saveConfig ok w)) = dirs (disk w) /\
  (ok = true -> files (disk (saveConfig ok w)) !! configPath_ w = Some (configText w)) /\
  (ok = false -> saveConfig ok w = w) /\
  saveConfig ok (saveConfig ok w) = saveConfig ok w /\
  sameCursor w (saveConfig ok w) /\
  shown (saveConfig ok w) = shown w /\
  lastVideoPath_ (saveConfig ok w) = lastVideoPath_ w /\
  saveDirPath_ (saveConfig ok w) = saveDirPath_ w /\
  nextImageIndex_ (saveConfig ok w) = nextImageIndex_ w /\
  configPath_ (saveConfig ok w) = configPath_ w /\
  configText (saveConfig ok w) = configText w.
Proof.
  unfold saveConfig. destruct ok; cbn [negb].
  - split; [reflexivity|]. split.
    { intros _. cbn [with_disk disk files]. apply lookup_insert_eq. }
    split; [discriminate|]. split; [|now repeat split].
    unfold with_disk. cbn. f_equal. f_equal. apply insert_insert_eq.
  - repeat split; congruence.
Qed.

(** X18: The start of the window, whatever the config file holds and whatever
    the index was: the index is what a scan of the save directory gives (1
    with no directory), the stored [next_image] having no say; playback is
    not started; no file is written, and when the application's directory
    is there already the disk is left as it is. *)
Theorem startup_rescans_directory appData separator mkpathOk fileExists w :
  let w1 := construct appData separator mkpathOk fileExists w in
  indexFromDir w1 /\
  playing_ w1 = playing_ w /\
  timer_active (timer_ w1) = timer_active (timer_ w) /\
  configPath_ w1 = (appData +:+ String separator "config.txt")%string /\
  files (disk w1) = files (disk w) /\
  (forall entries, dirs (disk w) !! appData = Some entries -> disk w1 = disk w).
Proof.
  cbv zeta. unfold construct.
  set (wa := match dirs (disk w) !! appData with
             | Some _ => w
             | None => with_disk (mkpath mkpathOk appData (disk w)) w
             end).
  set (wb := with_configPath (appData +:+ String separator "config.txt") wa).
  assert (Ha : playing_ wa = playing_ w /\ timer_ wa = timer_ w /\
               files (disk wa) = files (disk w) /\
               (forall entries, dirs (disk w) !! appData = Some entries ->
                  disk wa = disk w)).
  { subst wa. destruct (dirs (disk w) !! appData) as [entries|] eqn:Happ.
    - now repeat split.
    - repeat split; try discriminate.
      unfold mkpath. now destruct mkpathOk. }
  destruct Ha as (Hp & Ht & Hfiles & Hthere).
  destruct (onlyConfigChanged_others wb (loadConfig wb) (loadConfig_onlyConfigChanged wb))
    as (Hdisk & Hcp & _ & Hplay & Htimer & _).
  set (wc := loadConfig wb) in *.
  assert (Hgoal : forall w1,
            disk w1 = disk (recalcNextImageFromDir wc) ->
            nextImageIndex_ w1 = nextImageIndex_ (recalcNextImageFromDir wc) ->
            saveDirPath_ w1 = saveDirPath_ (recalcNextImageFromDir wc) ->
            configPath_ w1 = configPath_ (recalcNextImageFromDir wc) ->
            playing_ w1 = playing_ (recalcNextImageFromDir wc) ->
            timer_active (timer_ w1) = timer_active (timer_ (recalcNextImageFromDir wc)) ->
            indexFromDir w1 /\
            playing_ w1 = playing_ w /\
            timer_active (timer_ w1) = timer_active (timer_ w) /\
            configPath_ w1 = (appData +:+ String separator "config.txt")%string /\
            files (disk w1) = files (disk w) /\
            (forall entries, dirs (disk w) !! appData = Some entries -> disk w1 = disk w)).
  { intros w1 H1 H2 H3 H4 H5 H6.
    assert (Hrd : disk (recalcNextImageFromDir wc) = disk wa).
    { transitivity (disk wc); [|exact Hdisk].
      unfold recalcNextImageFromDir. now destruct (QStr.isEmpty (saveDirPath_ wc)). }
    assert (Hrp : playing_ (recalcNextImageFromDir wc) = playing_ wc /\
                  timer_ (recalcNextImageFromDir wc) = timer_ wc /\
                  configPath_ (recalcNextImageFromDir wc) = configPath_ wc).
    { unfold recalcNextImageFromDir. now destruct (QStr.isEmpty (saveDirPath_ wc)). }
    destruct Hrp as (Hrp & Hrt & Hrc).
    split; [|split; [|split; [|split; [|split]]]].
    - apply (indexFromDir_fields (recalcNextImageFromDir wc)); try assumption.
      + now rewrite H1.
      + apply recalc_indexFromDir.
    - rewrite H5, Hrp, Hplay. exact Hp.
    - rewrite H6, Hrt, Htimer. change (timer_ wb) with (timer_ wa). now rewrite Ht.
    - now rewrite H4, Hrc, Hcp.
    - now rewrite H1, Hrd.
    - intros entries Hin. rewrite H1, Hrd. now apply (Hthere entries). }
  destruct (negb (QStr.isEmpty (lastVideoPath_ (recalcNextImageFromDir wc))) &&
            fileExists (lastVideoPath_ (recalcNextImageFromDir wc))).
  - destruct (openVideo_keeps (lastVideoPath_ (recalcNextImageFromDir wc))
                (recalcNextImageFromDir wc)) as (K1 & K2 & K3 & _ & K5 & K6 & _ & K8).
    now apply Hgoal.
  - now apply Hgoal.
Qed.

(** X19: A session survives a restart: a window started on the disk another one
    left when it was closed has the two paths of that window, for paths of
    printable ASCII characters with no space at their ends, and as index what a
    rescan of that window's save directory gives, not the index that window
    had. When there is no last video, or its file is gone, nothing is opened
    and no dialog shown. *)
Theorem restart_restores_session appData separator mkpathOk fileExists w w0 :
  plainPath (lastVideoPath_ w) ->
  plainPath (saveDirPath_ w) ->
  configPath_ w = (appData +:+ String separator "config.txt")%string ->
  disk w0 = disk (destruct_window true w) ->
  let w1 := construct appData separator mkpathOk fileExists w0 in
  lastVideoPath_ w1 = lastVideoPath_ w /\
  saveDirPath_ w1 = saveDirPath_ w /\
  nextImageIndex_ w1 = nextImageIndex_ (recalcNextImageFromDir w) /\
  (QStr.isEmpty (lastVideoPath_ w) = true \/ fileExists (lastVideoPath_ w) = false ->
     cap_ w1 = cap_ w0 /\ shown w1 = shown w0 /\
     currentFrameBGR_ w1 = currentFrameBGR_ w0).
Proof.
  intros Hv Hd Hpath Hdisk. cbv zeta. unfold construct.
  set (wa := match dirs (disk w0) !! appData with
             | Some _ => w0
             | None => with_disk (mkpath mkpathOk appData (disk w0)) w0
             end).
  set (wb := with_configPath (appData +:+ String separator "config.txt") wa).
  destruct (saveConfig_fields true w) as (Hsd & Hsf & _).
  assert (Ha : files (disk wa) = files (disk w0) /\
               (forall dirPath,
                  Scanner.extractLargestNumberInDir (disk wa) dirPath =
                  Scanner.extractLargestNumberInDir (disk w) dirPath) /\
               cap_ wa = cap_ w0 /\ shown wa = shown w0 /\
               currentFrameBGR_ wa = currentFrameBGR_ w0).
  { subst wa. destruct (dirs (disk w0) !! appData) as [entries|] eqn:Happ.
    - repeat split. intros dirPath. apply extract_same_dirs.
      now rewrite Hdisk.
    - repeat split.
      + unfold mkpath. now destruct mkpathOk.
      + intros dirPath. cbn [with_disk disk]. rewrite (extract_mkpath _ _ _ _ Happ).
        apply extract_same_dirs. now rewrite Hdisk. }
  destruct Ha as (Hfiles & Hscan & Hcap & Hshown & Hframe).
  assert (Hfile : files (disk wb) !! configPath_ wb = Some (configText w)).
  { change (files (disk wa) !! (appData +:+ String separator "config.txt")%string
            = Some (configText w)).
    rewrite Hfiles, Hdisk, <- Hpath. now apply Hsf. }
  destruct (loadConfig_configText w wb Hv Hd Hfile) as (Lv & Ld & _ & Lonly).
  destruct (onlyConfigChanged_others wb (loadConfig wb) Lonly)
    as (Odisk & _ & Ocap & _ & _ & Oshown & Oframe).
  set (wc := loadConfig wb) in *.
  assert (Hr : lastVideoPath_ (recalcNextImageFromDir wc) = lastVideoPath_ w /\
               saveDirPath_ (recalcNextImageFromDir wc) = saveDirPath_ w /\
               nextImageIndex_ (recalcNextImageFromDir wc) =
                 nextImageIndex_ (recalcNextImageFromDir w) /\
               cap_ (recalcNextImageFromDir wc) = cap_ w0 /\
               shown (recalcNextImageFromDir wc) = shown w0 /\
               currentFrameBGR_ (recalcNextImageFromDir wc) = currentFrameBGR_ w0).
  { unfold recalcNextImageFromDir. rewrite Ld, Odisk.
    change (disk wb) with (disk wa). rewrite Hscan.
    destruct (QStr.isEmpty (saveDirPath_ w));
      cbn [with_nextImageIndex lastVideoPath_ saveDirPath_ nextImageIndex_ cap_ shown
           currentFrameBGR_];
      rewrite Lv, Ld, Ocap, Oshown, Oframe; now repeat split. }
  destruct Hr as (Rv & Rd & Ri & Rcap & Rshown & Rframe).
  rewrite Rv.
  destruct (negb (QStr.isEmpty (lastVideoPath_ w)) && fileExists (lastVideoPath_ w))
    eqn:Hopen.
  - destruct (openVideo_keeps (lastVideoPath_ w) (recalcNextImageFromDir wc))
      as (_ & K2 & K3 & K4 & _).
    rewrite K2, K3, K4. split; [exact Rv|]. split; [exact Rd|]. split; [exact Ri|].
    intros [He|Hf].
    + rewrite He in Hopen. discriminate Hopen.
    + rewrite Hf, andb_false_r in Hopen. discriminate Hopen.
  - now repeat split.
Qed.

(** X20: Choosing a save directory: the directory is taken, the index becomes
    what a scan of it gives, and the config file holds the new state when it
    could be written (closing the window right after writes nothing new);
    the video side of the window is not touched and no dialog is shown.
    Cancelling the dialog changes nothing. *)
Theorem select_directory_rescans dir ok w :
  dir <> EmptyString ->
  let w' := on_selectDirBtn_clicked dir ok w in
  saveDirPath_ w' = dir /\
  indexFromDir w' /\
  lastVideoPath_ w' = lastVideoPath_ w /\
  sameCursor w w' /\
  shown w' = shown w /\
  (ok = true -> files (disk w') !! configPath_ w' = Some (configText w')) /\
  (ok = false -> disk w' = disk w) /\
  destruct_window ok w' = w' /\
  on_selectDirBtn_clicked EmptyString ok w = w.
Proof.
  intros Hdir. cbv zeta. unfold on_selectDirBtn_clicked, destruct_window.
  rewrite (isEmpty_false dir Hdir). cbn [QStr.isEmpty].
  set (wr := recalcNextImageFromDir (with_saveDirPath dir w)).
  assert (Hr : saveDirPath_ wr = dir /\ lastVideoPath_ wr = lastVideoPath_ w /\
               sameCursor w wr /\ shown wr = shown w /\ disk wr = disk w /\
               configPath_ wr = configPath_ w).
  { subst wr. unfold recalcNextImageFromDir. cbn [with_saveDirPath saveDirPath_].
    destruct (QStr.isEmpty dir); now repeat split. }
  destruct Hr as (R1 & R2 & R3 & R4 & R5 & R6).
  destruct (saveConfig_fields ok wr)
    as (S1 & S2 & S3 & S4 & S5 & S6 & S7 & S8 & S9 & S10 & S11).
  split; [now rewrite S8|]. split; [|split; [|split; [|split; [|split; [|split]]]]].
  - apply (indexFromDir_fields wr); try assumption. apply recalc_indexFromDir.
  - now rewrite S7.
  - destruct R3 as (A1 & A2 & A3 & A4 & A5 & A6 & A7 & A8 & A9 & A10).
    destruct S5 as (B1 & B2 & B3 & B4 & B5 & B6 & B7 & B8 & B9 & B10).
    unfold sameCursor. repeat split; congruence.
  - now rewrite S6.
  - intros Hok. rewrite S10, S11. now apply S2.
  - intros Hok. now rewrite (S3 Hok).
  - split; [exact S4|reflexivity].
Qed.

(** X21: Choosing a video: the path is recorded as the last video and written to
    the config file whether or not the video could be opened, so that a
    path that failed is tried again at the next start; the save directory
    and the index are not touched, playback is not started or stopped, and
    the config file holds the new state when it could be written.
    Cancelling the dialog changes nothing. *)
Theorem select_video_records_path path ok w :
  path <> EmptyString ->
  let w' := on_selectVideoBtn_clicked path ok w in
  lastVideoPath_ w' = path /\
  cap_ w' = cap_ (openVideo path w) /\
  shown w' = shown (openVideo path w) /\
  saveDirPath_ w' = saveDirPath_ w /\
  nextImageIndex_ w' = nextImageIndex_ w /\
  playing_ w' = playing_ w /\
  (ok = true -> files (disk w') !! configPath_ w' = Some (configText w')) /\
  (ok = false -> disk w' = disk w) /\
  destruct_window ok w' = w' /\
  on_selectVideoBtn_clicked EmptyString ok w = w.
Proof.
  intros Hpath. cbv zeta. unfold on_selectVideoBtn_clicked, destruct_window.
  rewrite (isEmpty_false path Hpath). cbn [QStr.isEmpty].
  destruct (openVideo_keeps path w) as (K1 & K2 & K3 & K4 & K5 & K6 & K7 & K8).
  set (wo := with_lastVideoPath path (openVideo path w)).
  destruct (saveConfig_fields ok wo)
    as (S1 & S2 & S3 & S4 & S5 & S6 & S7 & S8 & S9 & S10 & S11).
  destruct S5 as (B1 & B2 & B3 & B4 & B5 & B6 & B7 & B8 & B9 & B10).
  split; [now rewrite S7|].
  split; [now rewrite B1|].
  split; [now rewrite S6|].
  split; [rewrite S8; exact K3|].
  split; [rewrite S9; exact K2|].
  split; [rewrite B6; exact K6|].
  split; [intros Hok; rewrite S10, S11; now apply S2|].
  split; [intros Hok; rewrite (S3 Hok);
          change (disk wo) with (disk (openVideo path w)); exact K1|].
  split; [exact S4|reflexivity].
Qed.

End StartFacts.

(** ** The further properties on the sample windows *)

Module Runs.
Import ExactDecoder Examples Samples.

(** A listing and a larger one in another order. *)
Lemma larger_listing_scans_higher :
  Scanner.extractLargestNumberInDir
    (diskWith "/out" (dirOf ["image_0002.png"]%string) emptyDisk) "/out" <=
  Scanner.extractLargestNumberInDir
    (diskWith "/out" (dirOf ["image_0007.png"; "image_0002.png"]%string) emptyDisk) "/out".
Proof.
  assert (Hincl : forall fi, In fi (dirOf ["image_0002.png"]%string) ->
                             In fi (dirOf ["image_0007.png"; "image_0002.png"]%string)).
  { intros fi [<-|[]]. right. left. reflexivity. }
  exact (proj1 (scan_ignores_order emptyDisk "/out" _ _ Hincl)).
Defined.

(** The name of image 12345 scans back to 12345. *)
Lemma image_12345_scans_back :
  Scanner.extractLargestNumberInDir
    (diskWith "/out" (dirOf [imageName 12345]) emptyDisk) "/out" = 12345.
Proof.
  assert (Hn : 0 <= 12345 <= Int.int_max) by (unfold Int.int_max; lia).
  exact (proj1 (saved_name_scans_back emptyDisk "/out" 12345 Hn)).
Defined.

(** A save next to image 3 writes image 4 and leaves the directory's files. *)
Lemma save_next_to_image_3 :
  dirs (disk (saveCurrentFrame allOk withImages)) !! "/out"%string =
    Some (dirOf ["image_0003.png"; "notes.txt"; "image_0004.png"]%string).
Proof.
  assert (Hframe : currentFrameBGR_ withImages = Some 2%nat) by (vm_compute; reflexivity).
  assert (Hdir : saveDirPath_ withImages <> EmptyString) by (vm_compute; discriminate).
  assert (Hentries : dirs (disk (ensureSaveDir allOk withImages)) !! saveDirPath_ withImages
                     = Some (dirOf ["image_0003.png"; "notes.txt"]%string))
    by (vm_compute; reflexivity).
  assert (Hok : imwriteOk allOk = true) by reflexivity.
  assert (Hsmall : fold_left Scanner.scanFile
                     (Scanner.entryInfoList (dirOf ["image_0003.png"; "notes.txt"]%string)) 0
                   < Int.int_max) by (vm_compute; reflexivity).
  destruct (save_spares_listed_files allOk withImages 2%nat _ Hframe Hdir Hentries Hok Hsmall)
    as [Hfile _].
  exact Hfile.
Defined.

(** After that save the index is what a rescan gives. *)
Lemma index_after_save_next_to_image_3 :
  indexFromDir (saveCurrentFrame allOk withImages).
Proof.
  assert (Hframe : currentFrameBGR_ withImages = Some 2%nat) by (vm_compute; reflexivity).
  assert (Hdir : saveDirPath_ withImages <> EmptyString) by (vm_compute; discriminate).
  assert (Hsmall : Scanner.extractLargestNumberInDir (disk (ensureSaveDir allOk withImages))
                     (saveDirPath_ withImages) < Int.int_max) by (vm_compute; reflexivity).
  assert (Hunlisted : forall entries fi,
            dirs (disk (ensureSaveDir allOk withImages)) !! saveDirPath_ withImages
              = Some entries ->
            In fi entries -> Scanner.listed fi = false ->
            fileName fi <>
              imageName (fold_left Scanner.scanFile (Scanner.entryInfoList entries) 0 + 1)).
  { intros entries fi Hentries.
    assert (He : dirs (disk (ensureSaveDir allOk withImages)) !! saveDirPath_ withImages
                 = Some (dirOf ["image_0003.png"; "notes.txt"]%string))
      by (vm_compute; reflexivity).
    rewrite He in Hentries. injection Hentries as <-.
    intros [<-|[<-|[]]] Hl; [vm_compute in Hl; discriminate Hl|vm_compute; discriminate]. }
  exact (save_keeps_index_from_dir allOk withImages 2%nat Hframe Hdir Hsmall Hunlisted).
Defined.

(** Two saves into the empty directory. *)
Lemma two_saves_in_a_row :
  dirs (disk (saveAll [allOk; allOk] readyToSave)) !! "/out"%string =
    Some (dirOf ["image_0001.png"; "image_0002.png"]%string) /\
  nextImageIndex_ (saveAll [allOk; allOk] readyToSave) = 3.
Proof.
  assert (Hframe : currentFrameBGR_ readyToSave = Some 2%nat) by (vm_compute; reflexivity).
  assert (Hdir : saveDirPath_ readyToSave <> EmptyString) by (vm_compute; discriminate).
  assert (Hempty : dirs (disk readyToSave) !! saveDirPath_ readyToSave = Some [])
    by (vm_compute; reflexivity).
  assert (Hok : Forall (fun io => imwriteOk io = true) [allOk; allOk])
    by (repeat constructor).
  assert (Hsmall : Z.of_nat (length [allOk; allOk]) < Int.int_max)
    by (vm_compute; reflexivity).
  pose proof (saves_number_consecutively [allOk; allOk] readyToSave 2%nat
                Hframe Hdir Hempty Hok Hsmall) as H.
  cbv zeta in H. destruct H as (Hfiles & Hidx & _).
  split; [exact Hfiles|]. apply Hidx. discriminate.
Defined.

(** The session's config read by the window of the next run. *)
Lemma session_read_back :
  sameConfig (loadConfig (with_configPath "/app/config.txt" nextRun)) session.
Proof.
  assert (Hv : plainPath (lastVideoPath_ session))
    by (repeat split; vm_compute; reflexivity).
  assert (Hd : plainPath (saveDirPath_ session))
    by (repeat split; vm_compute; reflexivity).
  assert (Hidx : Int.in_range (nextImageIndex_ session))
    by (vm_compute; split; discriminate).
  assert (Hpath : configPath_ (with_configPath "/app/config.txt" nextRun)
                  = configPath_ session) by reflexivity.
  assert (Hdisk : disk (with_configPath "/app/config.txt" nextRun)
                  = disk (saveConfig true session)) by reflexivity.
  exact (config_round_trip session _ Hv Hd Hidx Hpath Hdisk).
Defined.

(** In the broken config the last [save_dir] line decides. *)
Lemma broken_config_save_dir :
  saveDirPath_ (loadConfig withBrokenConfig) = "/out"%string.
Proof.
  assert (Hfile : files (disk withBrokenConfig) !! configPath_ withBrokenConfig
                  = Some brokenConfig) by (vm_compute; reflexivity).
  destruct (loadConfig_last_line_wins withBrokenConfig brokenConfig "save_dir" Hfile)
    as [Hlast _].
  assert (Hlines : readLines brokenConfig =
            ["# Simple config for Video Dataset Preparation Tool"; "last_video=v.mp4"]%string
            ++ "save_dir=/out"%string :: ["next_image=abc"%string])
    by (vm_compute; reflexivity).
  assert (Hkv : keyValue "save_dir=/out" = Some ("save_dir", "/out")%string)
    by (vm_compute; reflexivity).
  assert (Hafter : forall raw' val', In raw' ["next_image=abc"%string] ->
                     keyValue raw' <> Some ("save_dir"%string, val')).
  { intros raw' val' [<-|[]]. vm_compute. discriminate. }
  destruct (Hlast _ _ _ _ Hlines Hkv Hafter) as (_ & Hdir & _).
  exact (Hdir eq_refl).
Defined.

(** While the slider is held on frame 4, ticks, seeks and steps leave it. *)
Lemma dragged_slider_stays :
  timeSlider (run [Tick; SeekTo 0; StepRelative 1; SaveCurrentFrame allOk] dragged) =
    timeSlider dragged.
Proof.
  assert (Hheld : sliderHeld_ dragged = true) by (vm_compute; reflexivity).
  assert (Hno : ~ In SliderReleased [Tick; SeekTo 0; StepRelative 1; SaveCurrentFrame allOk]).
  { intros [H|[H|[H|[H|[]]]]]; discriminate H. }
  assert (Hopens : forallb (fun s => negb (opens s))
                     [Tick; SeekTo 0; StepRelative 1; SaveCurrentFrame allOk] = true)
    by reflexivity.
  exact (proj1 (proj1 (held_slider_is_not_moved _ dragged Hheld Hno Hopens))).
Defined.

(** A video opened while the slider is held at 50 of 0..99: the slider gets
    the range of the clip, 0..4, and its value is brought inside, to 4. *)
Lemma opening_moves_held_slider :
  sliderHeld_ heldAt50 = true /\
  timeSlider heldAt50 = mkSlider 0 99 50 /\
  timeSlider (call (SelectVideoBtn "clip.mp4" true) heldAt50) = mkSlider 0 4 4.
Proof. repeat split; vm_compute; reflexivity. Qed.

(** The clip opened at startup shows its first frame. *)
Lemma clip_opens_on_frame_0 :
  onFrame clip (openVideo "clip.mp4" startup) /\
  currentFrameBGR_ (openVideo "clip.mp4" startup) = Some 0%nat.
Proof.
  assert (Hlib : library (cap_ startup) !! "clip.mp4"%string = Some clip)
    by (vm_compute; reflexivity).
  assert (Hne : video_frames clip <> []) by discriminate.
  assert (Hmax : Z.of_nat (length (video_frames clip)) <= Int.int_max)
    by (vm_compute; discriminate).
  destruct (openVideo_shows_first_frame startup "clip.mp4" clip Hlib Hne Hmax)
    as (Hon & _ & Hframe & _).
  split; [exact Hon|exact Hframe].
Defined.

(** A mixed run from [onFrame2] ends on a frame of the clip. *)
Lemma mixed_run_stays_on_clip : onFrame clip (run mixedRun onFrame2).
Proof.
  assert (Hon : onFrame clip onFrame2).
  { unfold onFrame. repeat split; try (vm_compute; reflexivity); vm_compute; discriminate. }
  assert (Hopens : forallb (fun s => negb (opens s)) mixedRun = true) by reflexivity.
  exact (proj1 (proj1 (cursor_stays_on_frame mixedRun onFrame2 clip Hon Hopens))).
Defined.

(** A video that is not there, selected on frame 2 of the clip: the decoder
    is closed and frame 2 stays the current frame. *)
Lemma missing_video_ends_the_cursor :
  cap_isOpened (cap_ (call (SelectVideoBtn "missing.mp4" true) onFrame2)) = false /\
  currentFrameBGR_ (call (SelectVideoBtn "missing.mp4" true) onFrame2) = Some 2%nat.
Proof. split; vm_compute; reflexivity. Qed.

(** Before a video is opened the controls leave the window as it is. *)
Lemma controls_at_startup : run controls startup = startup.
Proof.
  assert (Hclosed : cap_isOpened (cap_ startup) = false) by reflexivity.
  assert (Hall : forallb needsVideo controls = true) by reflexivity.
  exact (controls_need_a_video controls startup Hclosed Hall).
Defined.

(** Reload on frame 2 of the clip goes back to frame 0 and plays; next
    goes to frame 3 and pauses. *)
Lemma reload_and_next_on_frame_2 :
  currentFrameIndex_ (on_reloadVideoBtn_clicked onFrame2) = 0 /\
  playing_ (on_reloadVideoBtn_clicked onFrame2) = true /\
  currentFrameBGR_ (on_nextVideoBtn_clicked onFrame2) = Some 3%nat.
Proof.
  assert (Hon : onFrame clip onFrame2).
  { unfold onFrame. repeat split; try (vm_compute; reflexivity); vm_compute; discriminate. }
  pose proof (transport_buttons onFrame2 clip Hon) as H.
  cbv zeta in H. destruct H as ((Hi & _ & Hp & _) & _ & (_ & Hf & _) & _).
  split; [exact Hi|]. split; [exact Hp|exact Hf].
Defined.

(** Five ticks from frame 2 of the playing clip: it stops on the last frame. *)
Lemma clip_plays_to_the_end :
  currentFrameIndex_ (ticks 5 playingClip) = 4 /\
  playing_ (ticks 5 playingClip) = false.
Proof.
  assert (Hon : onFrame clip playingClip).
  { unfold onFrame. repeat split; try (vm_compute; reflexivity); vm_compute; discriminate. }
  pose proof (playback_runs_to_the_end playingClip clip 5 Hon) as H.
  cbv zeta in H. destruct H as [_ Hstop].
  assert (Hpast : frameCount_ playingClip - 1 < currentFrameIndex_ playingClip + Z.of_nat 5)
    by (vm_compute; reflexivity).
  destruct (Hstop Hpast) as (Hi & _ & Hp & _).
  split; [exact Hi|exact Hp].
Defined.

(** Releasing the slider dragged to frame 4 lands on frame 4. *)
Lemma release_on_frame_4 :
  currentFrameIndex_ (on_timeSlider_sliderReleased dragged) = 4 /\
  currentFrameBGR_ (on_timeSlider_sliderReleased dragged) = Some 4%nat.
Proof.
  assert (Hon : onFrame clip dragged).
  { unfold onFrame. repeat split; try (vm_compute; reflexivity); vm_compute; discriminate. }
  assert (Hr : sliderRanged dragged).
  { unfold sliderRanged. repeat split; try (vm_compute; reflexivity); vm_compute; discriminate. }
  pose proof (slider_follows_cursor dragged clip Hon Hr) as H.
  destruct H as [_ H]. cbv zeta in H. destruct H as (Hi & Hf & _).
  split; [exact Hi|exact Hf].
Defined.

(** The next run finds the session's paths. *)
Lemma next_run_finds_session :
  lastVideoPath_ (construct appData separator true (fun _ => true) nextRun) = "clip.mp4"%string /\
  saveDirPath_ (construct appData separator true (fun _ => true) nextRun) = "/out"%string.
Proof.
  assert (Hv : plainPath (lastVideoPath_ session))
    by (repeat split; vm_compute; reflexivity).
  assert (Hd : plainPath (saveDirPath_ session))
    by (repeat split; vm_compute; reflexivity).
  assert (Hpath : configPath_ session = (appData +:+ String separator "config.txt")%string)
    by (vm_compute; reflexivity).
  assert (Hdisk : disk nextRun = disk (destruct_window true session)) by reflexivity.
  pose proof (restart_restores_session appData separator true (fun _ => true)
                session nextRun Hv Hd Hpath Hdisk) as H.
  cbv zeta in H. destruct H as (Hlast & Hdir & _).
  split; [exact Hlast|exact Hdir].
Defined.

(** Choosing the directory with image 3 in it sets the index to 4. *)
Lemma choosing_directory_with_image_3 :
  nextImageIndex_ (on_selectDirBtn_clicked "/out" true
                     (with_saveDirPath EmptyString withImages)) = 4.
Proof.
  assert (Hdir : "/out"%string <> EmptyString) by discriminate.
  pose proof (select_directory_rescans "/out" true
                (with_saveDirPath EmptyString withImages) Hdir) as H.
  cbv zeta in H. destruct H as (_ & Hidx & _).
  unfold indexFromDir in Hidx. rewrite Hidx. vm_compute. reflexivity.
Defined.

(** A video that does not open is recorded all the same. *)
Lemma missing_video_is_recorded :
  lastVideoPath_ (on_selectVideoBtn_clicked "missing.mp4" true onFrame2)
    = "missing.mp4"%string.
Proof.
  assert (Hpath : "missing.mp4"%string <> EmptyString) by discriminate.
  pose proof (select_video_records_path "missing.mp4" true onFrame2 Hpath) as H.
  cbv zeta in H. destruct H as (Hlast & _).
  exact Hlast.
Defined.

End Runs.
